(** * askPdfVideoBackendOpenAI: retrieval strategies and query orchestration

    A shallow embedding of [app/qdrant_utils.py] and of the helpers and
    endpoints of [app/main.py] that decide which stored chunks reach the
    answer-generation step.

    Conventions of the embedding.
    - A Python [str] is a [string]; an [int] is a [Z].
    - A similarity score is an IEEE double in the program.  A finite
      double is a rational, so a score is embedded as that rational ([Q])
      and [<] on scores is [Qlt]; NaN and the infinities are outside this
      model.  [np.mean] rounds, and how it sums is NumPy's business: it is
      an oracle like the services (field [mean] of [Services]), and what
      is proved holds for every such function.  [np_mean] is a reference
      model of it in binary64, used where a concrete store is evaluated.
    - A Python [dict] is an association list that keeps the order in which
      keys were first inserted (the iteration order of CPython dicts).
    - The vector store and the chat-completion service are external.  They
      are a record of oracles ([Services]); every call to one of them is
      appended to a log, so that "which external call was made, with which
      arguments, in which order" can be stated.
    - A Python exception is a value of [exn]; code that may raise lives in
      the monad [M]. *)

From Stdlib Require Import List String Ascii ZArith QArith Bool Arith Lia.
From Stdlib Require Import QArith.Qround QArith.Qabs DecimalString.
From Stdlib Require Import Sorting.Sorted Sorting.Permutation.
Import ListNotations.

Open Scope string_scope.
Open Scope Z_scope.
Open Scope list_scope.

Set Implicit Arguments.

(** ** Exceptions and the effect monad *)

Inductive exn : Type :=
| IndexError (msg : string)
| KeyError (msg : string)
| ValueError (msg : string)
| AttributeError (msg : string)
| ServiceError (msg : string)          (* any failure of an external client *)
| HTTPException (status_code : Z) (detail : string).

(** [str(e)]; [KeyError] quotes its argument, the HTTP exception is only
    ever raised last and its text is never read. *)
Definition str (e : exn) : string :=
  match e with
  | IndexError m | ValueError m | AttributeError m | ServiceError m => m
  | KeyError m => "'" ++ m ++ "'"
  | HTTPException _ d => d
  end.

(** Calls that leave the process. *)
Inductive event : Type :=
| SimilaritySearch (query : string) (k : Z)
| SimilaritySearchWithScore (query : string) (k : Z)
| ChatCompletion (system_content user_content : string).

Definition log := list event.

Definition M (A : Type) : Type := log -> (exn + A) * log.

Definition ret {A} (a : A) : M A := fun tr => (inr a, tr).
Definition raise {A} (e : exn) : M A := fun tr => (inl e, tr).
Definition bind {A B} (m : M A) (f : A -> M B) : M B :=
  fun tr => match m tr with
            | (inr a, tr') => f a tr'
            | (inl e, tr') => (inl e, tr')
            end.
(** [try: m except Exception as e: h e] *)
Definition try_except {A} (m : M A) (h : exn -> M A) : M A :=
  fun tr => match m tr with
            | (inr a, tr') => (inr a, tr')
            | (inl e, tr') => h e tr'
            end.
(** An external call: log it, then return or raise what the service did. *)
Definition call {A} (ev : event) (outcome : exn + A) : M A :=
  fun tr => (outcome, tr ++ [ev]).
(** A computation without external calls that may raise. *)
Definition lift {A} (r : exn + A) : M A := fun tr => (r, tr).

Declare Scope py_scope.
Delimit Scope py_scope with py.
Notation "x <- m ;; f" := (bind m (fun x => f))
  (at level 61, m at next level, right associativity) : py_scope.
Open Scope py_scope.

(** ** Data model *)

(** [langchain.schema.Document]; of [metadata] only the key ["source"] is
    ever read, [None] stands for a metadata dict without that key. *)
Record Document : Type := mkDocument {
  page_content : string;
  metadata_source : option string
}.

Definition ScoredChunk : Type := (Document * Q)%type.

(** [doc.metadata.get("source")] *)
Definition get_source (d : Document) : option string := metadata_source d.
(** [doc.metadata.get("source", "unknown")] *)
Definition get_source_or_unknown (d : Document) : string :=
  match metadata_source d with Some s => s | None => "unknown" end.

(** What the program calls and does not compute itself: the vector
    store, the completion service, and [np.mean] on a list of scores. *)
Record Services : Type := mkServices {
  similarity_search : string -> Z -> exn + list Document;
  similarity_search_with_score : string -> Z -> exn + list ScoredChunk;
  chat_completions_create : string -> string -> exn + string;
  mean : list Q -> Q
}.

(** ** Hashable keys and insertion-ordered dicts *)

Class Hashable (K : Type) : Type := { key_eqb : K -> K -> bool }.

#[export] Instance string_Hashable : Hashable string :=
  {| key_eqb := String.eqb |}.

Definition option_string_eqb (a b : option string) : bool :=
  match a, b with
  | Some x, Some y => String.eqb x y
  | None, None => true
  | _, _ => false
  end.

#[export] Instance option_string_Hashable : Hashable (option string) :=
  {| key_eqb := option_string_eqb |}.

Module Dict.
Section Dict.
Context {K V : Type} `{Hashable K}.

Definition t := list (K * V).

Fixpoint get (k : K) (d : t) : option V :=
  match d with
  | [] => None
  | (k', v) :: d' => if key_eqb k k' then Some v else get k d'
  end.

(** [k in d] *)
Definition mem (k : K) (d : t) : bool :=
  match get k d with Some _ => true | None => false end.

(** [d[k] = v]: an existing key keeps its position. *)
Fixpoint set (k : K) (v : V) (d : t) : t :=
  match d with
  | [] => [(k, v)]
  | (k', v') :: d' =>
      if key_eqb k k' then (k', v) :: d' else (k', v') :: set k v d'
  end.

Definition keys (d : t) : list K := map fst d.
End Dict.
Arguments t : clear implicits.
End Dict.

(** [d[k]] *)
Definition getitem {V} (k : string) (d : Dict.t string V) : exn + V :=
  match Dict.get k d with
  | Some v => inr v
  | None => inl (KeyError k)
  end.

(** [l[:k]] for an [int] [k]: a negative [k] counts from the end. *)
Definition slice_to {A} (k : Z) (l : list A) : list A :=
  if 0 <=? k then firstn (Z.to_nat k) l
  else firstn (List.length l - Z.to_nat (- k)) l.

(** ** Pure code that may raise *)

Definition result (A : Type) : Type := (exn + A)%type.

Definition rbind {A B} (m : result A) (f : A -> result B) : result B :=
  match m with
  | inr a => f a
  | inl e => inl e
  end.

Notation "x <~ m ;; f" := (rbind m (fun x => f))
  (at level 61, m at next level, right associativity) : py_scope.

(** [for x in l: st = body(st, x)] *)
Fixpoint for_each {S A} (body : S -> A -> result S) (l : list A) (st : S)
  : result S :=
  match l with
  | [] => inr st
  | x :: l' => st' <~ body st x ;; for_each body l' st'
  end.

(** [[f(x) for x in l]] *)
Fixpoint comprehension {A B} (f : A -> result B) (l : list A)
  : result (list B) :=
  match l with
  | [] => inr []
  | x :: l' => y <~ f x ;; ys <~ comprehension f l' ;; inr (y :: ys)
  end.

(** ** Builtins and library functions the strategies call *)

Definition Qltb (x y : Q) : bool := negb (Qle_bool y x).

(** Arithmetic on doubles, on their rational values: the exact result
    rounded to the nearest double, ties to the even significand.  A result
    beyond the largest double is outside the model. *)
Module Float64.

(** The nearest integer, ties to the even one. *)
Definition nearest_even (q : Q) : Z :=
  let f := Qfloor q in
  match Qcompare (q - inject_Z f) (1 # 2) with
  | Lt => f
  | Gt => f + 1
  | Eq => if Z.even f then f else f + 1
  end.

(** [floor (log2 |q|)] for [q] other than 0. *)
Definition ilog2 (q : Q) : Z :=
  let l := Z.log2 (Z.abs (Qnum q)) - Z.log2 (Zpos (Qden q)) in
  if Qle_bool (Qpower 2 l) (Qabs q) then l else l - 1.

(** The exponent of the last place: 52 below the leading bit, and that of
    the subnormals at the least. *)
Definition ulp_exponent (q : Q) : Z := Z.max (ilog2 q - 52) (-1074).

Definition round (q : Q) : Q :=
  if Qeq_bool q 0 then 0%Q
  else
    let ulp := Qpower 2 (ulp_exponent q) in
    Qred (inject_Z (nearest_even (q / ulp)) * ulp).

Definition add (x y : Q) : Q := round (x + y).
Definition div (x y : Q) : Q := round (x / y).

(** [for x in a: res += x] *)
Definition sum_onto (res : Q) (a : list Q) : Q := fold_left add a res.

(** NumPy's pairwise summation.  Fewer than 8 numbers are added in
    order.  Up to 128 numbers go to 8 running sums, the i-th number to sum
    [i mod 8], as long as whole blocks of 8 remain; the 8 sums are added as
    a balanced tree and the rest in order.  A longer array is cut near its
    middle, at a multiple of 8. *)
Definition add_each (r block : list Q) : list Q :=
  map (fun p => add (fst p) (snd p)) (combine r block).

Fixpoint accumulate8 (fuel : nat) (r a : list Q) : list Q * list Q :=
  match fuel with
  | O => (r, a)
  | S fuel' =>
      if (8 <=? List.length a)%nat
      then accumulate8 fuel' (add_each r (firstn 8 a)) (skipn 8 a)
      else (r, a)
  end.

Definition reduce8 (r : list Q) : Q :=
  match r with
  | [r0; r1; r2; r3; r4; r5; r6; r7] =>
      add (add (add r0 r1) (add r2 r3)) (add (add r4 r5) (add r6 r7))
  | _ => 0%Q
  end.

Fixpoint pairwise_sum (fuel : nat) (a : list Q) : Q :=
  let n := List.length a in
  if (n <? 8)%nat then sum_onto 0%Q a
  else if (n <=? 128)%nat then
    let '(r, rest) := accumulate8 n (firstn 8 a) (skipn 8 a) in
    sum_onto (reduce8 r) rest
  else
    match fuel with
    | O => 0%Q
    | S fuel' =>
        let n2 := (n / 2 - (n / 2) mod 8)%nat in
        add (pairwise_sum fuel' (firstn n2 a))
            (pairwise_sum fuel' (skipn n2 a))
    end.

End Float64.

(** Reference model of [np.mean(l)] for a list of Python floats: the list
    becomes an array of doubles, its pairwise sum is added to the initial
    0.0 of the reduction and divided by the count, each step rounded.
    (The mean of no number is NaN in NumPy; the program never asks for
    it.) *)
Definition np_mean (l : list Q) : Q :=
  let a := map Float64.round l in
  Float64.div (Float64.add 0%Q (Float64.pairwise_sum (List.length a) a))
              (inject_Z (Z.of_nat (List.length a))).

Section Builtins.
Context {A : Type}.

(** The loop of [min(iterable, key=key)]: the running best is replaced
    only by an element whose key is strictly smaller. *)
Fixpoint min_loop (key : A -> result Q) (best : A) (kbest : Q) (l : list A)
  : result A :=
  match l with
  | [] => inr best
  | x :: l' =>
      kx <~ key x ;;
      if Qltb kx kbest then min_loop key x kx l'
      else min_loop key best kbest l'
  end.

Definition py_min (key : A -> result Q) (l : list A) : result A :=
  match l with
  | [] => inl (ValueError "min() arg is an empty sequence")
  | x :: l' => kx <~ key x ;; min_loop key x kx l'
  end.

(** Stable insertion into a list of (key, element) pairs sorted by key. *)
Fixpoint insert_by (kx : Q) (x : A) (l : list (Q * A)) : list (Q * A) :=
  match l with
  | [] => [(kx, x)]
  | (ky, y) :: l' =>
      if Qle_bool kx ky then (kx, x) :: (ky, y) :: l'
      else (ky, y) :: insert_by kx x l'
  end.

Definition sort_decorated (l : list (Q * A)) : list (Q * A) :=
  fold_right (fun p acc => insert_by (fst p) (snd p) acc) [] l.

(** [sorted(l, key=key)]: every key is computed first, the sort is
    stable. *)
Definition py_sorted (key : A -> result Q) (l : list A) : result (list A) :=
  decorated <~ comprehension (fun x => kx <~ key x ;; inr (kx, x)) l ;;
  inr (map snd (sort_decorated decorated)).

(** [l[0]] *)
Definition index0 (l : list A) : result A :=
  match l with
  | x :: _ => inr x
  | [] => inl (IndexError "list index out of range")
  end.
End Builtins.

Section Counter.
Context {K : Type} `{Hashable K}.

(** [collections.Counter(l)]: [self[elem] = self.get(elem, 0) + 1]. *)
Definition Counter_add (c : Dict.t K Z) (elem : K) : Dict.t K Z :=
  Dict.set elem (match Dict.get elem c with Some n => n | None => 0 end + 1) c.

Definition Counter (l : list K) : Dict.t K Z := fold_left Counter_add l [].

(** The loop of [max(items, key=itemgetter(1))], which is what
    [most_common(1)] runs: the first item with the largest count wins. *)
Fixpoint max_loop (best : K * Z) (l : list (K * Z)) : K * Z :=
  match l with
  | [] => best
  | x :: l' => max_loop (if snd best <? snd x then x else best) l'
  end.

Definition most_common_1 (c : Dict.t K Z) : list (K * Z) :=
  match c with
  | [] => []
  | x :: l => [max_loop x l]
  end.
End Counter.

(** ** [app/qdrant_utils.py] *)

(** The dict [smart_document_search] returns.  A key the strategy does not
    put in the dict is [None]; [primary_source] holds what
    [metadata.get("source")] gave, which may itself be [None]. *)
Record SearchResult : Type := mkSearchResult {
  chunks : list Document;
  primary_source : option (option string);
  sources_used : option (list string);
  strategy_used : string;
  document_scores : option (Dict.t string Q)
}.

(** Body of the grouping loop of ["best_match"]. *)
Definition best_match_body
  (st : Dict.t string (list Q) * Dict.t string (list Document))
  (item : ScoredChunk)
  : result (Dict.t string (list Q) * Dict.t string (list Document)) :=
  let '(doc_scores, doc_chunks) := st in
  let '(doc, score) := item in
  let source := get_source_or_unknown doc in
  let '(doc_scores, doc_chunks) :=
    if negb (Dict.mem source doc_scores)
    then (Dict.set source [] doc_scores, Dict.set source [] doc_chunks)
    else (doc_scores, doc_chunks) in
  scores <~ getitem source doc_scores ;;
  let doc_scores := Dict.set source (scores ++ [score]) doc_scores in
  docs <~ getitem source doc_chunks ;;
  let doc_chunks := Dict.set source (docs ++ [doc]) doc_chunks in
  inr (doc_scores, doc_chunks).

Definition best_match (mean : list Q -> Q) (k : Z)
  (retrieved_chunks : list ScoredChunk) : result SearchResult :=
  st <~ for_each best_match_body retrieved_chunks ([], []) ;;
  let '(doc_scores, doc_chunks) := st in
  best_doc <~ py_min
    (fun x => scores <~ getitem x doc_scores ;; inr (mean scores))
    (Dict.keys doc_scores) ;;
  docs <~ getitem best_doc doc_chunks ;;
  let best_chunks := slice_to k docs in
  inr {| chunks := best_chunks;
         primary_source := Some (Some best_doc);
         sources_used := None;
         strategy_used := "best_match";
         document_scores :=
           Some (map (fun item => (fst item, mean (snd item))) doc_scores)
      |}.

(** Body of the grouping loop of ["multi_doc"]. *)
Definition multi_doc_body (doc_groups : Dict.t string (list ScoredChunk))
  (item : ScoredChunk) : result (Dict.t string (list ScoredChunk)) :=
  let '(doc, score) := item in
  let source := get_source_or_unknown doc in
  let doc_groups :=
    if negb (Dict.mem source doc_groups)
    then Dict.set source [] doc_groups
    else doc_groups in
  group <~ getitem source doc_groups ;;
  inr (Dict.set source (group ++ [(doc, score)]) doc_groups).

(** [min([score for _, score in doc_groups[x]])] *)
Definition min_score_key (doc_groups : Dict.t string (list ScoredChunk))
  (x : string) : result Q :=
  group <~ getitem x doc_groups ;;
  py_min (fun score => inr score) (map snd group).

(** Body of the loop over the sorted sources of ["multi_doc"]. *)
Definition multi_doc_pick (doc_groups : Dict.t string (list ScoredChunk))
  (st : list Document * list string) (source : string)
  : result (list Document * list string) :=
  let '(final_chunks, sources_used) := st in
  if Z.of_nat (List.length sources_used) <? 3 then
    group <~ getitem source doc_groups ;;
    ranked <~ py_sorted (fun x => inr (snd x)) group ;;
    let chunks_from_source := map fst (slice_to 2 ranked) in
    inr (final_chunks ++ chunks_from_source, sources_used ++ [source])
  else inr (final_chunks, sources_used).

Definition multi_doc (k : Z) (retrieved_chunks : list ScoredChunk)
  : result SearchResult :=
  doc_groups <~ for_each multi_doc_body retrieved_chunks [] ;;
  order <~ py_sorted (min_score_key doc_groups) (Dict.keys doc_groups) ;;
  st <~ for_each (multi_doc_pick doc_groups) order ([], []) ;;
  let '(final_chunks, sources_used) := st in
  inr {| chunks := slice_to k final_chunks;
         primary_source := None;
         sources_used := Some sources_used;
         strategy_used := "multi_doc";
         document_scores := None |}.

(** The source that [Counter(sources).most_common(1)[0][0]] names. *)
Definition most_common_source (retrieved_chunks : list Document)
  : result (option string) :=
  let sources := map get_source retrieved_chunks in
  top <~ index0 (most_common_1 (Counter sources)) ;;
  inr (fst top).

Definition filter_by_source (s : option string) (l : list Document)
  : list Document :=
  filter (fun doc => key_eqb (get_source doc) s) l.

Definition single_source (retrieved_chunks : list Document)
  : result SearchResult :=
  most_common <~ most_common_source retrieved_chunks ;;
  let filtered_chunks := filter_by_source most_common retrieved_chunks in
  inr {| chunks := filtered_chunks;
         primary_source := Some most_common;
         sources_used := None;
         strategy_used := "single_source";
         document_scores := None |}.

(** [smart_document_search(query, k, strategy)].  Building the client
    handle makes no request and is not modelled. *)
Definition smart_document_search (sv : Services) (query : string) (k : Z)
  (strategy : string) : M SearchResult :=
  if (strategy =? "best_match")%string then
    retrieved_chunks <-
      call (SimilaritySearchWithScore query (k * 5))
           (similarity_search_with_score sv query (k * 5)) ;;
    lift (best_match (mean sv) k retrieved_chunks)
  else if (strategy =? "multi_doc")%string then
    retrieved_chunks <-
      call (SimilaritySearchWithScore query (k * 3))
           (similarity_search_with_score sv query (k * 3)) ;;
    lift (multi_doc k retrieved_chunks)
  else
    retrieved_chunks <-
      call (SimilaritySearch query k) (similarity_search sv query k) ;;
    lift (single_source retrieved_chunks).

(** [qdrant_similarity_search(query, k)] *)
Definition qdrant_similarity_search (sv : Services) (query : string) (k : Z)
  : M (list Document) :=
  retrieved_chunks <-
    call (SimilaritySearch query k) (similarity_search sv query k) ;;
  most_common <- lift (most_common_source retrieved_chunks) ;;
  ret (filter_by_source most_common retrieved_chunks).

(** [sorted(list(set(l)))] on strings: duplicates collapse, the order is
    that of the code points. *)
Fixpoint insert_unique (x : string) (l : list string) : list string :=
  match l with
  | [] => [x]
  | y :: l' =>
      match String.compare x y with
      | Lt => x :: y :: l'
      | Eq => y :: l'
      | Gt => y :: insert_unique x l'
      end
  end.

Definition sorted_set (l : list string) : list string :=
  fold_right insert_unique [] l.

(** [doc.metadata.get("source")] is kept when it is truthy. *)
Definition truthy_sources (all_docs : list Document) : list string :=
  flat_map (fun doc => match get_source doc with
                       | Some s => if (s =? "")%string then [] else [s]
                       | None => []
                       end) all_docs.

(** [get_available_documents()] *)
Definition get_available_documents (sv : Services) : M (list string) :=
  try_except
    (all_docs <- call (SimilaritySearch "" 1000)
                      (similarity_search sv "" 1000) ;;
     ret (sorted_set (truthy_sources all_docs)))
    (fun e => ret []).

(** ** [app/main.py]: helpers *)

Definition nl : string := String (ascii_of_nat 10) EmptyString.

(** [sep.join(l)] *)
Fixpoint join (sep : string) (l : list string) : string :=
  match l with
  | [] => ""
  | [x] => x
  | x :: l' => x ++ sep ++ join sep l'
  end.

(** [s.startswith(pre)] *)
Definition startswith (s pre : string) : bool := String.prefix pre s.

Definition system_prompt : string :=
  "You are a helpful assistant that answers questions based on the provided context. Be accurate and concise.".

(** [f"Context:\n{context}\n\nQuestion: {query}\n\nAnswer:"] *)
Definition user_prompt (context query : string) : string :=
  "Context:" ++ nl ++ context ++ nl ++ nl ++ "Question: " ++ query
  ++ nl ++ nl ++ "Answer:".

(** [ask_azure_openai(query, context_chunks)].  The oracle
    [chat_completions_create] stands for building the client and sending
    the request; both happen inside the [try]. *)
Definition ask_azure_openai (sv : Services) (query : string)
  (context_chunks : list Document) : M string :=
  try_except
    (let context := join (nl ++ nl) (map page_content context_chunks) in
     call (ChatCompletion system_prompt (user_prompt context query))
          (chat_completions_create sv system_prompt
             (user_prompt context query)))
    (fun e => ret ("Error generating response: " ++ str e)%string).

(** What [extract_video_id] reads of [urlparse(url)]. *)
Record ParseResult : Type := mkParseResult {
  hostname : option string;
  path : string;
  query_string : string
}.

(** [urllib.parse] is the language's library, not code of the
    repository: [extract_video_id] takes [urlparse] and [parse_qs] as they
    come. *)
Record UrlLib : Type := mkUrlLib {
  urlparse : string -> result ParseResult;
  parse_qs : string -> Dict.t string (list string)
}.

(** [s[1:]] *)
Definition drop_first (s : string) : string :=
  match s with
  | EmptyString => EmptyString
  | String _ s' => s'
  end.

Definition is_youtube_host (h : option string) : bool :=
  match h with
  | Some h => (h =? "www.youtube.com")%string || (h =? "youtube.com")%string
  | None => false
  end.

Definition is_short_host (h : option string) : bool :=
  match h with
  | Some h => (h =? "youtu.be")%string
  | None => false
  end.

(** The body of the [try] of [extract_video_id]. *)
Definition extract_video_id_body (lib : UrlLib) (url : string)
  : result string :=
  parsed_url <~ urlparse lib url ;;
  let invalid := inl (ValueError "Invalid YouTube URL format") in
  if is_youtube_host (hostname parsed_url) then
    let query_params := parse_qs lib (query_string parsed_url) in
    if Dict.mem "v" query_params then
      values <~ getitem "v" query_params ;;
      index0 values
    else invalid
  else if is_short_host (hostname parsed_url) then
    inr (drop_first (path parsed_url))
  else invalid.

(** [extract_video_id(url)] *)
Definition extract_video_id (lib : UrlLib) (url : string) : result string :=
  match extract_video_id_body lib url with
  | inr video_id => inr video_id
  | inl _ =>
      inl (ValueError ("Could not extract video ID from URL: " ++ url)%string)
  end.

(** ** [app/main.py]: endpoints *)

(** Body of [GET /documents/]. *)
Record DocumentsResponse : Type := mkDocumentsResponse {
  documents : list string;
  count : Z
}.

Definition list_documents (sv : Services) : M DocumentsResponse :=
  try_except
    (docs <- get_available_documents sv ;;
     ret {| documents := docs; count := Z.of_nat (List.length docs) |})
    (fun e => raise (HTTPException 500 (str e))).

Record SmartVideoQueryRequest : Type := mkSmartVideoQueryRequest {
  req_query : string;
  req_k : Z;
  req_strategy : string;
  req_content_type : string
}.

(** Body of [POST /smart-query-all/]; a key that is not set is [None]. *)
Record SmartAllResponse : Type := mkSmartAllResponse {
  resp_answer : string;
  resp_strategy_used : string;
  resp_chunks_used : option Z;
  resp_content_type : string;
  resp_primary_source : option string;
  resp_source_type : option string;
  resp_sources_used : option (list string);
  resp_source_scores : option (Dict.t string Q)
}.

Definition filter_by_content_type (content_type : string)
  (docs : list string) : list string :=
  if (content_type =? "pdf")%string then
    filter (fun doc => negb (startswith doc "video_")) docs
  else if (content_type =? "video")%string then
    filter (fun doc => startswith doc "video_") docs
  else docs.

(** [not l] *)
Definition is_empty {A} (l : list A) : bool :=
  match l with [] => true | _ => false end.

Definition plain_response (answer : string)
  (request : SmartVideoQueryRequest) : SmartAllResponse :=
  {| resp_answer := answer;
     resp_strategy_used := req_strategy request;
     resp_chunks_used := None;
     resp_content_type := req_content_type request;
     resp_primary_source := None;
     resp_source_type := None;
     resp_sources_used := None;
     resp_source_scores := None |}.

(** The ["primary_source"] block: [source.startswith] on [None] raises. *)
Definition primary_source_metadata (search_result : SearchResult)
  : result (option string * option string) :=
  match primary_source search_result with
  | None => inr (None, None)
  | Some (Some source) =>
      inr (Some source,
           Some (if startswith source "video_" then "video" else "pdf"))
  | Some None =>
      inl (AttributeError
             "'NoneType' object has no attribute 'startswith'")
  end.

Definition smart_query_all_content (sv : Services)
  (request : SmartVideoQueryRequest) : M SmartAllResponse :=
  try_except
    (docs <- get_available_documents sv ;;
     let filtered_docs :=
       filter_by_content_type (req_content_type request) docs in
     if is_empty filtered_docs then
       ret (plain_response
              ("No " ++ req_content_type request
               ++ " content found in the database.")%string request)
     else
       search_result <-
         smart_document_search sv (req_query request) (req_k request)
           (req_strategy request) ;;
       if is_empty (chunks search_result) then
         ret (plain_response
                ("No relevant information found in "
                 ++ req_content_type request
                 ++ " content for your query.")%string request)
       else
         answer <- ask_azure_openai sv (req_query request)
                     (chunks search_result) ;;
         meta <- lift (primary_source_metadata search_result) ;;
         ret {| resp_answer := answer;
                resp_strategy_used := strategy_used search_result;
                resp_chunks_used :=
                  Some (Z.of_nat (List.length (chunks search_result)));
                resp_content_type := req_content_type request;
                resp_primary_source := fst meta;
                resp_source_type := snd meta;
                resp_sources_used := sources_used search_result;
                resp_source_scores := document_scores search_result |})
    (fun e => raise (HTTPException 500 (str e))).

(** ** A reference model of [urllib.parse]

    CPython's [urlparse] and [parse_qs] on URLs written in ASCII.  Outside
    the model: the NFKC check of a non-ASCII netloc, the validation of a
    bracketed IP literal, and the replacement of undecodable bytes after
    percent-decoding.  It fixes the library for the concrete URLs below;
    the general statements about [extract_video_id] hold for every
    [UrlLib]. *)
Module UrlModel.

Definition code (c : ascii) : nat := nat_of_ascii c.

Definition between (lo hi : nat) (c : ascii) : bool :=
  ((lo <=? code c) && (code c <=? hi))%nat.

Definition is_alpha (c : ascii) : bool := between 65 90 c || between 97 122 c.
Definition is_digit (c : ascii) : bool := between 48 57 c.
Definition is_scheme_char (c : ascii) : bool :=
  is_alpha c || is_digit c || (c =? "+")%char || (c =? "-")%char
  || (c =? ".")%char.
Definition is_c0_or_space (c : ascii) : bool := (code c <=? 32)%nat.
Definition is_tab_or_newline (c : ascii) : bool :=
  ((code c =? 9) || (code c =? 10) || (code c =? 13))%nat.

Definition lower_char (c : ascii) : ascii :=
  if between 65 90 c then ascii_of_nat (code c + 32) else c.

Fixpoint map_string (f : ascii -> ascii) (s : string) : string :=
  match s with
  | EmptyString => EmptyString
  | String c s' => String (f c) (map_string f s')
  end.

Definition lower : string -> string := map_string lower_char.

Fixpoint all_chars (p : ascii -> bool) (s : string) : bool :=
  match s with
  | EmptyString => true
  | String c s' => p c && all_chars p s'
  end.

Fixpoint contains (c : ascii) (s : string) : bool :=
  match s with
  | EmptyString => false
  | String a s' => (a =? c)%char || contains c s'
  end.

(** [url.lstrip(_WHATWG_C0_CONTROL_OR_SPACE)] *)
Fixpoint lstrip_c0 (s : string) : string :=
  match s with
  | EmptyString => EmptyString
  | String c s' => if is_c0_or_space c then lstrip_c0 s' else s
  end.

(** Tabs and newlines are removed wherever they stand. *)
Fixpoint remove_unsafe (s : string) : string :=
  match s with
  | EmptyString => EmptyString
  | String c s' =>
      if is_tab_or_newline c then remove_unsafe s'
      else String c (remove_unsafe s')
  end.

(** [s.partition(c)]: the text before the first [c], and the text after
    it when [c] occurs. *)
Fixpoint partition (c : ascii) (s : string) : string * option string :=
  match s with
  | EmptyString => (EmptyString, None)
  | String a s' =>
      if (a =? c)%char then (EmptyString, Some s')
      else let '(before, after) := partition c s' in (String a before, after)
  end.

(** The text after the last [c], when [c] occurs. *)
Fixpoint after_last (c : ascii) (s : string) : option string :=
  match s with
  | EmptyString => None
  | String a s' =>
      match after_last c s' with
      | Some r => Some r
      | None => if (a =? c)%char then Some s' else None
      end
  end.

(** [s.split(c)] *)
Fixpoint split (c : ascii) (s : string) : list string :=
  match s with
  | EmptyString => [EmptyString]
  | String a s' =>
      if (a =? c)%char then EmptyString :: split c s'
      else match split c s' with
           | x :: r => String a x :: r
           | [] => [String a EmptyString]
           end
  end.

(** A scheme is split off when the text before the first colon starts
    with a letter and holds scheme characters only. *)
Definition split_scheme (url : string) : string * string :=
  match partition ":" url with
  | (String c0 pre, Some rest) =>
      if is_alpha c0 && all_chars is_scheme_char (String c0 pre)
      then (lower (String c0 pre), rest)
      else (EmptyString, url)
  | _ => (EmptyString, url)
  end.

(** [_splitnetloc]: the netloc ends before the first of [/], [?], [#]. *)
Fixpoint span_netloc (s : string) : string * string :=
  match s with
  | EmptyString => (EmptyString, EmptyString)
  | String c s' =>
      if (c =? "/")%char || (c =? "?")%char || (c =? "#")%char
      then (EmptyString, s)
      else let '(n, r) := span_netloc s' in (String c n, r)
  end.

Definition split_netloc (url : string) : result (string * string) :=
  match url with
  | String "/" (String "/" rest) =>
      let '(netloc, url') := span_netloc rest in
      if xorb (contains "[" netloc) (contains "]" netloc)
      then inl (ValueError "Invalid IPv6 URL")
      else inr (netloc, url')
  | _ => inr (EmptyString, url)
  end.

Definition uses_params : list string :=
  [""; "ftp"; "hdl"; "prospero"; "http"; "imap"; "https"; "shttp"; "rtsp";
   "rtspu"; "sip"; "sips"; "mms"; "sftp"; "tel"].

(** The path up to and with its last [/], and the segment after it. *)
Fixpoint rsplit_slash (s : string) : string * string :=
  match s with
  | EmptyString => (EmptyString, EmptyString)
  | String a s' =>
      let '(dir, seg) := rsplit_slash s' in
      if contains "/" s' then (String a dir, seg)
      else if (a =? "/")%char then (String a EmptyString, s')
      else (EmptyString, String a s')
  end.

(** [_splitparams]: parameters start at the first [;] of the last
    segment. *)
Definition strip_params (scheme url : string) : string :=
  if existsb (String.eqb scheme) uses_params && contains ";" url then
    let '(dir, seg) := rsplit_slash url in
    match partition ";" seg with
    | (before, Some _) => (dir ++ before)%string
    | (_, None) => url
    end
  else url.

(** The [hostname] property of a parse result. *)
Definition hostname_of (netloc : string) : option string :=
  let hostinfo :=
    match after_last "@" netloc with Some r => r | None => netloc end in
  let host :=
    match partition "[" hostinfo with
    | (_, Some bracketed) => fst (partition "]" bracketed)
    | (_, None) => fst (partition ":" hostinfo)
    end in
  match host with
  | EmptyString => None
  | _ =>
      match partition "%" host with
      | (h, Some zone) => Some (lower h ++ "%" ++ zone)%string
      | (h, None) => Some (lower h)
      end
  end.

Definition urlparse (url : string) : result ParseResult :=
  let url := remove_unsafe (lstrip_c0 url) in
  let '(scheme, url) := split_scheme url in
  nu <~ split_netloc url ;;
  let '(netloc, url) := nu in
  let url := fst (partition "#" url) in
  let '(url, query) := partition "?" url in
  inr {| hostname := hostname_of netloc;
         path := strip_params scheme url;
         query_string := match query with Some q => q | None => "" end |}.

Definition hex_value (c : ascii) : option nat :=
  if is_digit c then Some (code c - 48)%nat
  else if between 97 102 c then Some (code c - 87)%nat
  else if between 65 70 c then Some (code c - 55)%nat
  else None.

(** [unquote]: [%XY] becomes the byte [XY]; any other [%] stays. *)
Fixpoint unquote (s : string) : string :=
  match s with
  | EmptyString => EmptyString
  | String c s' =>
      if (c =? "%")%char then
        match s' with
        | String a (String b rest) =>
            match hex_value a, hex_value b with
            | Some x, Some y =>
                String (ascii_of_nat (16 * x + y)) (unquote rest)
            | _, _ => String c (unquote s')
            end
        | _ => String c (unquote s')
        end
      else String c (unquote s')
  end.

Definition plus_to_space (c : ascii) : ascii :=
  if (c =? "+")%char then " "%char else c.

Definition decode (s : string) : string :=
  unquote (map_string plus_to_space s).

(** [parse_qsl]: fields without [=] or with a blank value are dropped. *)
Definition parse_qsl (qs : string) : list (string * string) :=
  flat_map (fun name_value =>
              match partition "=" name_value with
              | (name, Some value) =>
                  if (value =? "")%string then []
                  else [(decode name, decode value)]
              | (_, None) => []
              end) (split "&" qs).

Definition parse_qs_add (d : Dict.t string (list string))
  (nv : string * string) : Dict.t string (list string) :=
  match Dict.get (fst nv) d with
  | Some values => Dict.set (fst nv) (values ++ [snd nv]) d
  | None => Dict.set (fst nv) [snd nv] d
  end.

Definition parse_qs (qs : string) : Dict.t string (list string) :=
  fold_left parse_qs_add (parse_qsl qs) [].

Definition lib : UrlLib := mkUrlLib urlparse parse_qs.

End UrlModel.


(** ** Specification-level views of the batch

    What the loops compute, written without dicts: the distinct sources in
    the order in which the batch first shows them, and the chunks of one
    source in batch order. *)

Section FirstSeen.
Context {K : Type} `{Hashable K}.

Definition memb (x : K) (l : list K) : bool := existsb (key_eqb x) l.

(** The elements of [l] that are not in [seen], each once, in the order
    of their first occurrence. *)
Fixpoint first_seen (seen l : list K) : list K :=
  match l with
  | [] => []
  | x :: l' =>
      if memb x seen then first_seen seen l'
      else x :: first_seen (seen ++ [x]) l'
  end.

Definition occurrences (x : K) (l : list K) : Z :=
  Z.of_nat (List.length (filter (key_eqb x) l)).
End FirstSeen.

Definition source_of (item : ScoredChunk) : string :=
  get_source_or_unknown (fst item).

Definition distinct_sources (batch : list ScoredChunk) : list string :=
  first_seen [] (map source_of batch).

(** The scored chunks of source [s], in batch order. *)
Definition group_of (batch : list ScoredChunk) (s : string)
  : list ScoredChunk :=
  filter (fun item => key_eqb (source_of item) s) batch.

(** What [np.mean] gives for the scores of source [s], in batch order. *)
Definition mean_score (mean : list Q -> Q) (batch : list ScoredChunk)
  (s : string) : Q :=
  mean (map snd (group_of batch s)).

(** [sorted(l, key=f)] for a key that cannot raise. *)
Definition sort_by {A} (f : A -> Q) (l : list A) : list A :=
  map snd (sort_decorated (map (fun x => (f x, x)) l)).

(** The two best-scored chunks of source [s]. *)
Definition top2 (batch : list ScoredChunk) (s : string) : list Document :=
  map fst (firstn 2 (sort_by snd (group_of batch s))).

(** [m] is the least score of the chunks of source [s]. *)
Definition is_min_score (batch : list ScoredChunk) (s : string) (m : Q)
  : Prop :=
  In m (map snd (group_of batch s)) /\
  forall item, In item (group_of batch s) -> (m <= snd item)%Q.

(** What the grouping loops do to one dict: the item goes to the end of
    its source's group, a new source gets a new group at the end. *)
Definition get_group {V} (s : string) (d : Dict.t string (list V)) : list V :=
  match Dict.get s d with Some g => g | None => [] end.

Definition add_to_group {V} (s : string) (v : V)
  (d : Dict.t string (list V)) : Dict.t string (list V) :=
  Dict.set s (get_group s d ++ [v]) d.

Definition group_all {X V} (kf : X -> string) (vf : X -> V) (l : list X)
  (acc : Dict.t string (list V)) : Dict.t string (list V) :=
  fold_left (fun d x => add_to_group (kf x) (vf x) d) l acc.

(** [b] is the first element of [l] whose key is the least: what
    [min(l, key=f)] returns. *)
Definition first_min {A} (f : A -> Q) (l : list A) (b : A) : Prop :=
  exists l1 l2, l = l1 ++ b :: l2 /\
    (forall x, In x l1 -> (f b < f x)%Q) /\
    (forall x, In x l2 -> (f b <= f x)%Q).

(** [b] is the first item of [l] whose count is the greatest: what
    [most_common(1)] returns. *)
Definition first_max {K} (l : list (K * Z)) (b : K * Z) : Prop :=
  exists l1 l2, l = l1 ++ b :: l2 /\
    (forall x, In x l1 -> snd x < snd b) /\
    (forall x, In x l2 -> snd x <= snd b).

(** The least score of the chunks of source [s] ([0] for a source the
    batch does not have, which is never asked for). *)
Definition min_score (batch : list ScoredChunk) (s : string) : Q :=
  match py_min (fun score => inr score) (map snd (group_of batch s)) with
  | inr m => m
  | inl _ => 0%Q
  end.

(** The distinct sources, best single chunk first. *)
Definition ranked_sources (batch : list ScoredChunk) : list string :=
  sort_by (min_score batch) (distinct_sources batch).

(** [c[x]] of a [Counter]: a missing key counts 0. *)
Definition count_of {K} `{Hashable K} (x : K) (c : Dict.t K Z) : Z :=
  match Dict.get x c with Some n => n | None => 0 end.

(** The order of decorated pairs: by key. *)
Definition key_le {A} (p q : Q * A) : Prop := (fst p <= fst q)%Q.

(** ** Concrete stores *)

Module Examples.

Definition doc (content source : string) : Document :=
  mkDocument content (Some source).

(** A store that answers every query with the first [k] entries of a
    fixed ranking, and a completion service that always answers. *)
Definition store (ranking : list ScoredChunk) : Services :=
  {| similarity_search := fun _ k => inr (firstn (Z.to_nat k) (map fst ranking));
     similarity_search_with_score := fun _ k => inr (firstn (Z.to_nat k) ranking);
     chat_completions_create := fun _ _ => inr "An answer.";
     mean := np_mean |}.

(** A store whose search fails. *)
Definition unreachable_store : Services :=
  {| similarity_search := fun _ _ => inl (ServiceError "connection refused");
     similarity_search_with_score :=
       fun _ _ => inl (ServiceError "connection refused");
     chat_completions_create := fun _ _ => inr "An answer.";
     mean := np_mean |}.

Definition empty_store : Services := store [].

(** Source A has mean score 0.1, source B has mean score 0.5. *)
Definition batch_ab : list ScoredChunk :=
  [ (doc "b1" "B.pdf", 4 # 10); (doc "a1" "A.pdf", 5 # 100);
    (doc "a2" "A.pdf", 15 # 100); (doc "b2" "B.pdf", 6 # 10) ]%Q.

(** Four sources; A holds three chunks. *)
Definition batch_four : list ScoredChunk :=
  [ (doc "c1" "C.pdf", 1 # 10); (doc "a1" "A.pdf", 2 # 10);
    (doc "a2" "A.pdf", 3 # 10); (doc "d1" "D.pdf", 4 # 10);
    (doc "b1" "B.pdf", 5 # 10); (doc "a3" "A.pdf", 6 # 10) ]%Q.

(** Sources {A:3, B:2}, B first. *)
Definition batch_votes : list ScoredChunk :=
  [ (doc "b1" "B.pdf", 1 # 10); (doc "a1" "A.pdf", 2 # 10);
    (doc "a2" "A.pdf", 3 # 10); (doc "b2" "B.pdf", 4 # 10);
    (doc "a3" "A.pdf", 5 # 10) ]%Q.

(** Two sources within the first three results. *)
Definition batch_two : list ScoredChunk :=
  [ (doc "a1" "A.pdf", 1 # 10); (doc "b1" "B.pdf", 2 # 10);
    (doc "a2" "A.pdf", 3 # 10) ]%Q.

(** A video transcript that ranks before a PDF. *)
Definition batch_mixed : list ScoredChunk :=
  [ (doc "v1" "video_abc.txt", 1 # 10); (doc "h1" "handbook.pdf", 5 # 10) ]%Q.

Definition pdf_request : SmartVideoQueryRequest :=
  {| req_query := "What is the leave policy?";
     req_k := 3;
     req_strategy := "best_match";
     req_content_type := "pdf" |}.

End Examples.

(** ** [app/qdrant_utils.py]: the other searches *)

(** [doc.metadata.get("source", "")] *)
Definition get_source_or_empty (d : Document) : string :=
  match metadata_source d with Some s => s | None => "" end.

(** [search_specific_document(query, document_name, k)] *)
Definition search_specific_document (sv : Services) (query : string)
  (document_name : string) (k : Z) : M (list Document) :=
  retrieved_chunks <-
    call (SimilaritySearch query (k * 10))
         (similarity_search sv query (k * 10)) ;;
  ret (slice_to k
         (filter (fun doc => key_eqb (get_source doc) (Some document_name))
                 retrieved_chunks)).

(** [search_videos_only(query, k)] *)
Definition search_videos_only (sv : Services) (query : string) (k : Z)
  : M (list Document) :=
  retrieved_chunks <-
    call (SimilaritySearch query (k * 10))
         (similarity_search sv query (k * 10)) ;;
  ret (slice_to k
         (filter (fun doc => startswith (get_source_or_empty doc) "video_")
                 retrieved_chunks)).

(** [search_pdfs_only(query, k)] *)
Definition search_pdfs_only (sv : Services) (query : string) (k : Z)
  : M (list Document) :=
  retrieved_chunks <-
    call (SimilaritySearch query (k * 10))
         (similarity_search sv query (k * 10)) ;;
  ret (slice_to k
         (filter (fun doc =>
                    negb (startswith (get_source_or_empty doc) "video_"))
                 retrieved_chunks)).

(** One of the two blocks of the content summary. *)
Record TypeSummary : Type := mkTypeSummary {
  type_count : Z;
  type_sources : list string
}.

(** The dict of [get_content_type_summary]; the key ["error"] is set only
    by the handler. *)
Record ContentSummary : Type := mkContentSummary {
  summary_error : option string;
  total_documents : Z;
  summary_videos : TypeSummary;
  summary_pdfs : TypeSummary
}.

(** [get_content_type_summary()] *)
Definition get_content_type_summary (sv : Services) : M ContentSummary :=
  try_except
    (docs <- get_available_documents sv ;;
     let videos := filter (fun doc => startswith doc "video_") docs in
     let pdfs := filter (fun doc => negb (startswith doc "video_")) docs in
     ret {| summary_error := None;
            total_documents := Z.of_nat (List.length docs);
            summary_videos :=
              {| type_count := Z.of_nat (List.length videos);
                 type_sources := videos |};
            summary_pdfs :=
              {| type_count := Z.of_nat (List.length pdfs);
                 type_sources := pdfs |} |})
    (fun e =>
       ret {| summary_error := Some (str e);
              total_documents := 0;
              summary_videos := {| type_count := 0; type_sources := [] |};
              summary_pdfs := {| type_count := 0; type_sources := [] |} |}).

(** ** [app/main.py]: the other endpoints over the vector store *)

(** [try: ... except Exception as e: raise HTTPException(500, str(e))] *)
Definition or_http_500 {A} (m : M A) : M A :=
  try_except m (fun e => raise (HTTPException 500 (str e))).

(** Body of [POST /query/]: the dict holds the answer only. *)
Definition query_documents (sv : Services) (query : string) (k : Z)
  : M string :=
  or_http_500
    (results <- qdrant_similarity_search sv query k ;;
     answer <- ask_azure_openai sv query results ;;
     ret answer).

Record DocumentQueryResponse : Type := mkDocumentQueryResponse {
  dq_answer : string;
  dq_document_queried : string;
  dq_chunks_found : option Z
}.

(** Body of [POST /query-document/]. *)
Definition query_specific_document (sv : Services) (query : string)
  (document_name : string) (k : Z) : M DocumentQueryResponse :=
  or_http_500
    (results <- search_specific_document sv query document_name k ;;
     if is_empty results then
       ret {| dq_answer :=
                ("No relevant information found in document '"
                 ++ document_name ++ "' for your query.")%string;
              dq_document_queried := document_name;
              dq_chunks_found := None |}
     else
       answer <- ask_azure_openai sv query results ;;
       ret {| dq_answer := answer;
              dq_document_queried := document_name;
              dq_chunks_found := Some (Z.of_nat (List.length results)) |}).

(** Body of [POST /smart-query/]; a key that is not set is [None], and
    ["document_scores"] is renamed ["source_scores"]. *)
Record SmartResponse : Type := mkSmartResponse {
  sq_answer : string;
  sq_strategy_used : string;
  sq_chunks_used : option Z;
  sq_primary_source : option (option string);
  sq_sources_used : option (list string);
  sq_source_scores : option (Dict.t string Q)
}.

Definition smart_query (sv : Services) (query : string) (k : Z)
  (strategy : string) : M SmartResponse :=
  or_http_500
    (search_result <- smart_document_search sv query k strategy ;;
     if is_empty (chunks search_result) then
       ret {| sq_answer := "No relevant information found for your query.";
              sq_strategy_used := strategy;
              sq_chunks_used := None;
              sq_primary_source := None;
              sq_sources_used := None;
              sq_source_scores := None |}
     else
       answer <- ask_azure_openai sv query (chunks search_result) ;;
       ret {| sq_answer := answer;
              sq_strategy_used := strategy_used search_result;
              sq_chunks_used :=
                Some (Z.of_nat (List.length (chunks search_result)));
              sq_primary_source := primary_source search_result;
              sq_sources_used := sources_used search_result;
              sq_source_scores := document_scores search_result |}).

(** Body of [GET /content-summary/]. *)
Definition get_content_summary (sv : Services) : M ContentSummary :=
  or_http_500 (get_content_type_summary sv).

(** [s.replace(old, new)] for a non-empty [old]: occurrences are taken
    from the left and do not overlap; [skip] counts the characters of an
    occurrence that are still to be passed over. *)
Fixpoint replace_from (old new : string) (skip : nat) (s : string)
  : string :=
  match s with
  | EmptyString => EmptyString
  | String c s' =>
      match skip with
      | S n => replace_from old new n s'
      | O =>
          if String.prefix old s
          then (new ++ replace_from old new (String.length old - 1) s')%string
          else String c (replace_from old new 0 s')
      end
  end.

Definition replace (old new s : string) : string := replace_from old new 0 s.

(** [s.endswith(suffix)] *)
Fixpoint endswith (s suffix : string) : bool :=
  (s =? suffix)%string
  || match s with
     | EmptyString => false
     | String _ s' => endswith s' suffix
     end.

Record VideoInfo : Type := mkVideoInfo {
  video_id : string;
  source_name : string;
  youtube_url : string
}.

Record VideosResponse : Type := mkVideosResponse {
  videos : list VideoInfo;
  videos_count : Z
}.

(** [video.replace("video_", "").replace(".txt", "")] *)
Definition video_id_of_source (video : string) : string :=
  replace ".txt" "" (replace "video_" "" video).

Definition video_info_of_source (video : string) : VideoInfo :=
  {| video_id := video_id_of_source video;
     source_name := video;
     youtube_url :=
       ("https://www.youtube.com/watch?v=" ++ video_id_of_source video)%string
  |}.

(** Body of [GET /videos/]. *)
Definition list_youtube_videos (sv : Services) : M VideosResponse :=
  or_http_500
    (docs <- get_available_documents sv ;;
     let video_sources :=
       filter (fun doc => startswith doc "video_" && endswith doc ".txt")
              docs in
     let video_info := map video_info_of_source video_sources in
     ret {| videos := video_info;
            videos_count := Z.of_nat (List.length video_info) |}).

(** ** More concrete inputs *)

Module Fixtures.

(** A chunk stored without source metadata ranks first. *)
Definition batch_orphan : list ScoredChunk :=
  [ (mkDocument "orphan" None, 1 # 10);
    (Examples.doc "h1" "handbook.pdf", 5 # 10) ]%Q.

Definition orphan_request : SmartVideoQueryRequest :=
  {| req_query := "q";
     req_k := 1;
     req_strategy := "single_source";
     req_content_type := "all" |}.

Definition video_request : SmartVideoQueryRequest :=
  {| req_query := "q";
     req_k := 3;
     req_strategy := "best_match";
     req_content_type := "video" |}.

(** The Python float written as the decimal [q]. *)
Definition float (q : Q) : Q := Float64.round q.

(** Two sources whose means are told apart by rounding only: the mean of
    the doubles 0.1, 0.2, 0.3 is below the double 0.2, and in binary64
    their sum divided by 3 is 0.20000000000000004, above it. *)
Definition batch_rounding : list ScoredChunk :=
  [ (Examples.doc "a1" "A.pdf", float (1 # 10));
    (Examples.doc "a2" "A.pdf", float (2 # 10));
    (Examples.doc "a3" "A.pdf", float (3 # 10));
    (Examples.doc "b1" "B.pdf", float (2 # 10)) ]%Q.

End Fixtures.

(** [old in s], for a non-empty [old]. *)
Fixpoint occurs (old s : string) : bool :=
  String.prefix old s
  || match s with
     | EmptyString => false
     | String _ s' => occurs old s'
     end.

(** The first character of [t] is one of the characters of [p]. *)
Definition starts_with_char_of (p t : string) : bool :=
  match t with
  | EmptyString => false
  | String c _ => UrlModel.contains c p
  end.

(** ** [app/main.py]: transcripts

    The transcript helpers raise [RuntimeError], and they call the
    transcript service: exceptions and events are extended here. *)

Inductive app_exn : Type :=
| Builtin (e : exn)
| RuntimeError (msg : string).

(** [str(e)] *)
Definition app_str (e : app_exn) : string :=
  match e with
  | Builtin e => str e
  | RuntimeError m => m
  end.

Inductive io_event : Type :=
| StoreCall (e : event)                   (* a call logged by [M] *)
| GetTranscript (video_id : string)
| GetTranscriptIn (video_id : string) (languages : list string)
| ListTranscripts (video_id : string)
| FetchTranscript (video_id : string) (index : nat)
| StoreDocuments (docs : list Document).

Definition IO (A : Type) : Type :=
  list io_event -> (app_exn + A) * list io_event.

Definition io_ret {A} (a : A) : IO A := fun tr => (inr a, tr).
Definition io_raise {A} (e : app_exn) : IO A := fun tr => (inl e, tr).
Definition io_bind {A B} (m : IO A) (f : A -> IO B) : IO B :=
  fun tr => match m tr with
            | (inr a, tr') => f a tr'
            | (inl e, tr') => (inl e, tr')
            end.
Definition io_try {A} (m : IO A) (h : app_exn -> IO A) : IO A :=
  fun tr => match m tr with
            | (inr a, tr') => (inr a, tr')
            | (inl e, tr') => h e tr'
            end.
(** An external call that fails with a library exception. *)
Definition io_call {A} (ev : io_event) (outcome : result A) : IO A :=
  fun tr => (match outcome with
             | inr a => inr a
             | inl e => inl (Builtin e)
             end, tr ++ [ev]).
(** Pure code that may raise. *)
Definition io_lift {A} (r : result A) : IO A :=
  fun tr => (match r with
             | inr a => inr a
             | inl e => inl (Builtin e)
             end, tr).
(** A computation over the vector store and the completion service. *)
Definition io_of_M {A} (m : M A) : IO A :=
  fun tr => let '(r, calls) := m [] in
            (match r with
             | inr a => inr a
             | inl e => inl (Builtin e)
             end, tr ++ map StoreCall calls).

Notation "x <<- m ;; f" := (io_bind m (fun x => f))
  (at level 61, m at next level, right associativity) : py_scope.

(** The transcript service, the text splitter and the write side of
    the vector store.  A transcript is the list of the texts of its
    entries; [list_transcripts] gives, for each transcript on offer, what
    its [fetch()] does. *)
Record Platform : Type := mkPlatform {
  services : Services;
  urllib : UrlLib;
  isspace : ascii -> bool;
  get_transcript : string -> result (list string);
  get_transcript_in : string -> list string -> result (list string);
  list_transcripts : string -> result (list (result (list string)));
  split_documents : string -> string -> list Document;
  from_documents : list Document -> result unit;
  pdf_pages : string -> result (list string);
  http_exception_str : Z -> string -> string
}.

(** [s.lstrip()], [s.rstrip()], [s.strip()] for a whitespace class. *)
Fixpoint lstrip (space : ascii -> bool) (s : string) : string :=
  match s with
  | EmptyString => EmptyString
  | String c s' => if space c then lstrip space s' else s
  end.

Fixpoint rstrip (space : ascii -> bool) (s : string) : string :=
  match s with
  | EmptyString => EmptyString
  | String c s' =>
      match rstrip space s' with
      | EmptyString => if space c then EmptyString else String c EmptyString
      | r => String c r
      end
  end.

Definition strip (space : ascii -> bool) (s : string) : string :=
  rstrip space (lstrip space s).

(** [handle_manual_transcript(video_url, manual_transcript)] *)
Definition handle_manual_transcript (pf : Platform) (video_url : string)
  (manual_transcript : string) : result string :=
  if (manual_transcript =? "")%string
     || (strip (isspace pf) manual_transcript =? "")%string
  then inl (ValueError "Manual transcript text is required")
  else inr (strip (isspace pf) manual_transcript).

(** [" ".join([entry['text'] for entry in transcript])] *)
Definition transcript_text (entries : list string) : string :=
  join " " entries.

(** The loop over [transcript_list]: the first transcript whose
    [fetch()] succeeds is returned; [None] when the loop runs out. *)
Fixpoint fetch_first (video_id : string) (index : nat)
  (offers : list (result (list string))) : IO (option string) :=
  match offers with
  | [] => io_ret None
  | offer :: rest =>
      io_try
        (data <<- io_call (FetchTranscript video_id index) offer ;;
         io_ret (Some (transcript_text data)))
        (fun _ => fetch_first video_id (S index) rest)
  end.

Definition transcript_failure_message (video_id : string) : string :=
  ("Transcript retrieval failed for video " ++ video_id ++ ".

This is likely due to:
1. YouTube blocking cloud provider IPs (Azure/AWS/GCP)
2. Video has no captions/transcripts
3. Video is private or restricted
4. Geographic restrictions

For cloud deployment, consider:
1. Using manual transcript input
2. Using a proxy service
3. Processing videos locally before deployment")%string.

(** The two fallbacks and the final error of [get_youtube_transcript]. *)
Definition transcript_fallbacks (pf : Platform) (video_id : string)
  : IO string :=
  second <<-
    io_try
      (transcript <<-
         io_call (GetTranscriptIn video_id ["en"; "en-US"; "en-GB"])
                 (get_transcript_in pf video_id ["en"; "en-US"; "en-GB"]) ;;
       io_ret (Some (transcript_text transcript)))
      (fun _ => io_ret None) ;;
  match second with
  | Some text => io_ret text
  | None =>
      third <<-
        io_try
          (transcript_list <<-
             io_call (ListTranscripts video_id)
                     (list_transcripts pf video_id) ;;
           found <<- fetch_first video_id 0 transcript_list ;;
           match found with
           | Some text => io_ret (Some text)
           | None =>
               io_raise (Builtin
                           (ServiceError "No accessible transcripts found"))
           end)
          (fun _ => io_ret None) ;;
      match third with
      | Some text => io_ret text
      | None => io_raise (RuntimeError (transcript_failure_message video_id))
      end
  end.

(** [get_youtube_transcript(video_url, use_fallback)] *)
Definition get_youtube_transcript (pf : Platform) (video_url : string)
  (use_fallback : bool) : IO string :=
  video_id <<- io_lift (extract_video_id (urllib pf) video_url) ;;
  io_try
    (transcript <<-
       io_call (GetTranscript video_id) (get_transcript pf video_id) ;;
     io_ret (transcript_text transcript))
    (fun primary_error =>
       if negb use_fallback then
         io_raise (RuntimeError
                     ("Primary transcript retrieval failed: "
                      ++ app_str primary_error))
       else transcript_fallbacks pf video_id).

(** Body of [GET /youtube-status/]: the key ["status"]. *)
Definition check_youtube_api_status (pf : Platform) : IO string :=
  let test_video_id := "dQw4w9WgXcQ" in
  let test_url :=
    ("https://www.youtube.com/watch?v=" ++ test_video_id)%string in
  io_try
    (_ <<- get_youtube_transcript pf test_url true ;;
     io_ret "accessible")
    (fun e =>
       let error_str := app_str e in
       if occurs "cloud provider" (UrlModel.lower error_str)
          || occurs "ip" (UrlModel.lower error_str)
       then io_ret "blocked_cloud"
       else io_ret "error_other").

(** ** [app/main.py]: the YouTube endpoints *)

(** [split_text_into_chunks(text, source_name)]; the splitter is the
    library's. *)
Definition split_text_into_chunks (pf : Platform) (text source_name : string)
  : list Document :=
  split_documents pf text source_name.

(** [create_embeddings_and_store_qdrant(docs)] *)
Definition create_embeddings_and_store_qdrant (pf : Platform)
  (docs : list Document) : IO unit :=
  io_call (StoreDocuments docs) (from_documents pf docs).

Record VideoRequestWithTranscript : Type := mkVideoRequestWithTranscript {
  up_video_url : string;
  up_manual_transcript : option string;
  up_use_fallback : bool
}.

Record VideoQueryRequest : Type := mkVideoQueryRequest {
  vq_query : string;
  vq_video_url : string;
  vq_k : Z;
  vq_manual_transcript : option string
}.

(** [if request.manual_transcript:] holds for a non-empty string. *)
Definition truthy (s : option string) : option string :=
  match s with
  | Some text => if (text =? "")%string then None else Some text
  | None => None
  end.

(** The dict of [POST /upload-youtube/]: [success] true, or false with
    the keys of the failure. *)
Inductive UploadResponse : Type :=
| Uploaded (video_id source : string) (num_chunks : Z)
           (transcript_method : string) (transcript_length : Z)
| UploadFailed (error message details : string) (video_id : option string)
               (solutions : list string).

(** The transcript and how it was obtained, or the response that ends
    the request. *)
Definition upload_transcript (pf : Platform)
  (request : VideoRequestWithTranscript) (video_id : string)
  : IO (UploadResponse + string * string) :=
  match truthy (up_manual_transcript request) with
  | Some manual =>
      transcript <<-
        io_lift (handle_manual_transcript pf (up_video_url request) manual) ;;
      io_ret (inr (transcript, "manual"))
  | None =>
      io_try
        (transcript <<-
           get_youtube_transcript pf (up_video_url request)
             (up_use_fallback request) ;;
         io_ret (inr (transcript, "automatic")))
        (fun transcript_error =>
           io_ret (inl (UploadFailed "transcript_blocked"
                          "YouTube transcript retrieval failed"
                          (app_str transcript_error) (Some video_id)
                          ["Provide manual transcript text";
                           "Use a proxy service";
                           "Process video locally"])))
  end.

(** Body of [POST /upload-youtube/]. *)
Definition upload_youtube_video (pf : Platform)
  (request : VideoRequestWithTranscript) : IO UploadResponse :=
  io_try
    (video_id <<-
       io_lift (extract_video_id (urllib pf) (up_video_url request)) ;;
     outcome <<- upload_transcript pf request video_id ;;
     match outcome with
     | inl response => io_ret response
     | inr (transcript, source_method) =>
         let source_name := ("video_" ++ video_id ++ ".txt")%string in
         let chunks := split_text_into_chunks pf transcript source_name in
         _ <<- create_embeddings_and_store_qdrant pf chunks ;;
         io_ret (Uploaded video_id source_name
                   (Z.of_nat (List.length chunks)) source_method
                   (Z.of_nat (String.length transcript)))
     end)
    (fun e =>
       io_ret (UploadFailed "processing_failed"
                 "Failed to process YouTube video" (app_str e) None [])).

(** The dict of [POST /query-youtube/]. *)
Inductive VideoQueryResponse : Type :=
| AnsweredFromDatabase (answer video_id : string) (chunks_found : Z)
| AnsweredFromTranscript (answer video_id source : string) (chunks_used : Z)
| VideoQueryFailed (error message details : string)
                   (solutions : list string).

(** The first [try] of the endpoint: an answer from the stored chunks,
    or [None] when there are none or when anything in it raised. *)
Definition answer_from_database (pf : Platform) (request : VideoQueryRequest)
  (video_id source_name : string) : IO (option VideoQueryResponse) :=
  io_try
    (results <<-
       io_of_M (search_specific_document (services pf) (vq_query request)
                  source_name (vq_k request)) ;;
     if is_empty results then io_ret None
     else
       answer <<-
         io_of_M (ask_azure_openai (services pf) (vq_query request)
                    results) ;;
       io_ret (Some (AnsweredFromDatabase answer video_id
                       (Z.of_nat (List.length results)))))
    (fun _ => io_ret None).

Definition query_transcript (pf : Platform) (request : VideoQueryRequest)
  : IO (VideoQueryResponse + string * string) :=
  match truthy (vq_manual_transcript request) with
  | Some manual =>
      transcript <<-
        io_lift (handle_manual_transcript pf (vq_video_url request) manual) ;;
      io_ret (inr (transcript, "manual"))
  | None =>
      io_try
        (transcript <<-
           get_youtube_transcript pf (vq_video_url request) true ;;
         io_ret (inr (transcript, "automatic")))
        (fun transcript_error =>
           io_ret (inl (VideoQueryFailed "transcript_blocked"
                          "YouTube transcript blocked and no manual transcript provided"
                          (app_str transcript_error)
                          ["Provide manual transcript";
                           "Upload video first";
                           "Use proxy service"])))
  end.

(** [chunks[:k] if len(chunks) > k else chunks] *)
Definition relevant_chunks (k : Z) (chunks : list Document)
  : list Document :=
  if k <? Z.of_nat (List.length chunks) then slice_to k chunks else chunks.

(** Body of [POST /query-youtube/]. *)
Definition query_youtube_video (pf : Platform) (request : VideoQueryRequest)
  : IO VideoQueryResponse :=
  io_try
    (video_id <<-
       io_lift (extract_video_id (urllib pf) (vq_video_url request)) ;;
     let source_name := ("video_" ++ video_id ++ ".txt")%string in
     stored <<- answer_from_database pf request video_id source_name ;;
     match stored with
     | Some response => io_ret response
     | None =>
         outcome <<- query_transcript pf request ;;
         match outcome with
         | inl response => io_ret response
         | inr (transcript, source_method) =>
             let chunks :=
               split_text_into_chunks pf transcript source_name in
             let relevant := relevant_chunks (vq_k request) chunks in
             answer <<-
               io_of_M (ask_azure_openai (services pf) (vq_query request)
                          relevant) ;;
             io_ret (AnsweredFromTranscript answer video_id
                       ("direct_transcript_" ++ source_method)%string
                       (Z.of_nat (List.length relevant)))
         end
     end)
    (fun e =>
       io_ret (VideoQueryFailed "query_failed"
                 "Failed to query YouTube video" (app_str e) [])).

(** ** [app/main.py]: PDF upload *)

(** What the endpoint reads of an [UploadFile]. *)
Record UploadFile : Type := mkUploadFile {
  content_type : string;
  filename : string;
  read : result string          (* what [await file.read()] does *)
}.

(** [validate_pdf(file)] *)
Definition validate_pdf (file : UploadFile) : result unit :=
  if (content_type file =? "application/pdf")%string then inr tt
  else inl (HTTPException 400
              "Invalid file type. Only PDF files are allowed.").

(** [str(e)] where an [HTTPException] may be caught: its text is the
    web framework's. *)
Definition caught_str (pf : Platform) (e : app_exn) : string :=
  match e with
  | Builtin (HTTPException status_code detail) =>
      http_exception_str pf status_code detail
  | _ => app_str e
  end.

(** [text += page.get_text()] over the pages *)
Definition pages_text (pages : list string) : string :=
  fold_left append pages "".

(** [extract_text_from_pdf(file)]; the upload is read before the [try];
    opening the document and reading its pages is the oracle
    [pdf_pages]. *)
Definition extract_text_from_pdf (pf : Platform) (file : UploadFile)
  : IO string :=
  file_bytes <<- io_lift (read file) ;;
  io_try
    (io_lift
       (pages <~ pdf_pages pf file_bytes ;;
        let text := pages_text pages in
        if (strip (isspace pf) text =? "")%string
        then inl (ValueError "PDF has no extractable text.")
        else inr text))
    (fun e =>
       io_raise (RuntimeError
                   ("PDF text extraction failed: " ++ app_str e))).

(** One entry of the upload summary. *)
Record UploadSummary : Type := mkUploadSummary {
  summary_filename : string;
  summary_num_chunks : Z
}.

(** The loop over the files of [upload_pdfs]. *)
Fixpoint upload_each (pf : Platform) (files : list UploadFile)
  (upload_summaries : list UploadSummary) : IO (list UploadSummary) :=
  match files with
  | [] => io_ret upload_summaries
  | file :: rest =>
      _ <<- io_lift (validate_pdf file) ;;
      text <<- extract_text_from_pdf pf file ;;
      let chunks := split_text_into_chunks pf text (filename file) in
      _ <<- create_embeddings_and_store_qdrant pf chunks ;;
      upload_each pf rest
        (upload_summaries
           ++ [{| summary_filename := filename file;
                  summary_num_chunks := Z.of_nat (List.length chunks) |}])
  end.

(** Body of [POST /upload-pdf/]: the summary, or the HTTP error. *)
Definition upload_pdfs (pf : Platform) (files : list UploadFile)
  : IO (list UploadSummary) :=
  io_try (upload_each pf files [])
    (fun e => io_raise (Builtin (HTTPException 500 (caught_str pf e)))).

(** Platforms to evaluate on. *)
Module Stage.

(** A document is its pages, one per line; a blank line is a page
    without text. *)
Definition pages_of_bytes (bytes : string) : result (list string) :=
  inr (UrlModel.split (ascii_of_nat 10) bytes).

(** [str] of Starlette's [HTTPException]: the status code, a colon and
    the detail. *)
Definition starlette_str (status_code : Z) (detail : string) : string :=
  (NilZero.string_of_int (Z.to_int status_code) ++ ": " ++ detail)%string.

Definition ascii_space (c : ascii) : bool :=
  let n := nat_of_ascii c in
  ((9 <=? n) && (n <=? 13) || (28 <=? n) && (n <=? 32))%nat.

(** One chunk holding the whole text. *)
Definition one_chunk (text source_name : string) : list Document :=
  [mkDocument text (Some source_name)].

(** Every transcript request is refused; two transcripts are on offer
    and only the second can be fetched. *)
Definition second_offer_only (ranking : list ScoredChunk) : Platform :=
  {| services := Examples.store ranking;
     urllib := UrlModel.lib;
     isspace := ascii_space;
     get_transcript := fun _ => inl (ServiceError "blocked");
     get_transcript_in := fun _ _ => inl (ServiceError "blocked");
     list_transcripts :=
       fun _ => inr [inl (ServiceError "blocked"); inr ["never"; "gonna"]];
     split_documents := one_chunk;
     from_documents := fun _ => inr tt;
     pdf_pages := pages_of_bytes;
     http_exception_str := starlette_str |}.

(** No transcript can be had in any way. *)
Definition blocked (ranking : list ScoredChunk) : Platform :=
  {| services := Examples.store ranking;
     urllib := UrlModel.lib;
     isspace := ascii_space;
     get_transcript := fun _ => inl (ServiceError "blocked");
     get_transcript_in := fun _ _ => inl (ServiceError "blocked");
     list_transcripts := fun _ => inl (ServiceError "blocked");
     split_documents := one_chunk;
     from_documents := fun _ => inr tt;
     pdf_pages := pages_of_bytes;
     http_exception_str := starlette_str |}.

(** The vector store is unreachable and no transcript can be had. *)
Definition store_down : Platform :=
  {| services := Examples.unreachable_store;
     urllib := UrlModel.lib;
     isspace := ascii_space;
     get_transcript := fun _ => inl (ServiceError "blocked");
     get_transcript_in := fun _ _ => inl (ServiceError "blocked");
     list_transcripts := fun _ => inl (ServiceError "blocked");
     split_documents := one_chunk;
     from_documents := fun _ => inr tt;
     pdf_pages := pages_of_bytes;
     http_exception_str := starlette_str |}.

Definition stored_video : list ScoredChunk :=
  [ (Examples.doc "never gonna" "video_dQw4w9WgXcQ.txt", 1 # 10) ]%Q.

End Stage.

(** The data of the first offered transcript that can be fetched, and
    how many fetches it takes to get there. *)
Fixpoint first_ok (offers : list (result (list string)))
  : option (list string) :=
  match offers with
  | [] => None
  | inr data :: _ => Some data
  | inl _ :: rest => first_ok rest
  end.

Fixpoint tried (offers : list (result (list string))) : nat :=
  match offers with
  | [] => 0
  | inr _ :: _ => 1
  | inl _ :: rest => S (tried rest)
  end.

Definition fetches (video_id : string) (from count : nat) : list io_event :=
  map (FetchTranscript video_id) (seq from count).

Definition english : list string := ["en"; "en-US"; "en-GB"].

(** The two failure responses of [POST /upload-youtube/]. *)
Definition processing_failed (details : string) : UploadResponse :=
  UploadFailed "processing_failed" "Failed to process YouTube video" details
    None [].

Definition transcript_blocked (details video_id : string) : UploadResponse :=
  UploadFailed "transcript_blocked" "YouTube transcript retrieval failed"
    details (Some video_id)
    ["Provide manual transcript text"; "Use a proxy service";
     "Process video locally"].

Definition video_source (video_id : string) : string :=
  ("video_" ++ video_id ++ ".txt")%string.

(** What the endpoint does once it holds a transcript. *)
Definition store_and_report (pf : Platform) (video_id transcript : string)
  (method : string) (tr : list io_event)
  : (app_exn + UploadResponse) * list io_event :=
  let chunks := split_documents pf transcript (video_source video_id) in
  (inr match from_documents pf chunks with
       | inr _ =>
           Uploaded video_id (video_source video_id)
             (Z.of_nat (List.length chunks)) method
             (Z.of_nat (String.length transcript))
       | inl e => processing_failed (str e)
       end,
   tr ++ [StoreDocuments chunks]).

(** No document is written by the events [evs]. *)
Definition writes_nothing (evs : list io_event) : Prop :=
  forall docs, ~ In (StoreDocuments docs) evs.

(** [m] only adds events to the log, and none of them is a write. *)
Definition read_only {A} (m : IO A) : Prop :=
  forall tr, exists evs, snd (m tr) = tr ++ evs /\ writes_nothing evs.

(** What [ask_azure_openai] returns. *)
Definition answer_text (sv : Services) (query : string)
  (context_chunks : list Document) : string :=
  match chat_completions_create sv system_prompt
          (user_prompt (join (nl ++ nl) (map page_content context_chunks))
             query) with
  | inr text => text
  | inl e => ("Error generating response: " ++ str e)%string
  end.

Definition completion_call (query : string) (context_chunks : list Document)
  : event :=
  ChatCompletion system_prompt
    (user_prompt (join (nl ++ nl) (map page_content context_chunks)) query).

(** The stored chunks of a video among the [k * 10] fetched. *)
Definition stored_chunks (k : Z) (video_id : string) (docs : list Document)
  : list Document :=
  slice_to k
    (filter (fun doc => key_eqb (get_source doc)
                          (Some (video_source video_id))) docs).

(** What [POST /query-youtube/] does once it holds a transcript. *)
Definition answer_from_transcript (pf : Platform)
  (request : VideoQueryRequest) (video_id transcript method : string)
  (tr : list io_event) : (app_exn + VideoQueryResponse) * list io_event :=
  let relevant :=
    relevant_chunks (vq_k request)
      (split_documents pf transcript (video_source video_id)) in
  (inr (AnsweredFromTranscript
          (answer_text (services pf) (vq_query request) relevant) video_id
          ("direct_transcript_" ++ method)%string
          (Z.of_nat (List.length relevant))),
   tr ++ [StoreCall (completion_call (vq_query request) relevant)]).

(** The pages of a file that can be read. *)
Definition file_pages (pf : Platform) (file : UploadFile)
  : result (list string) :=
  file_bytes <~ read file ;; pdf_pages pf file_bytes.

(** The chunks of a file whose pages can be read. *)
Definition file_chunks (pf : Platform) (file : UploadFile) : list Document :=
  match file_pages pf file with
  | inr pages => split_documents pf (pages_text pages) (filename file)
  | inl _ => []
  end.

(** A file that [upload_pdfs] gets through: a PDF by its content type,
    that can be read, with pages that can be read and hold text, whose
    chunks the store accepts. *)
Definition uploadable (pf : Platform) (file : UploadFile) : Prop :=
  content_type file = "application/pdf" /\
  (exists pages,
      file_pages pf file = inr pages /\
      UrlModel.all_chars (isspace pf) (pages_text pages) = false) /\
  from_documents pf (file_chunks pf file) = inr tt.

Definition file_summary (pf : Platform) (file : UploadFile) : UploadSummary :=
  {| summary_filename := filename file;
     summary_num_chunks := Z.of_nat (List.length (file_chunks pf file)) |}.

(** * Lemmas *)

(** ** Keys *)

Class HashableSpec (K : Type) `{Hashable K} : Prop :=
  key_eqb_iff : forall x y : K, key_eqb x y = true <-> x = y.

#[export] Instance string_HashableSpec : @HashableSpec string _.
Proof. exact String.eqb_eq. Qed.

#[export] Instance option_string_HashableSpec :
  @HashableSpec (option string) _.
Proof.
  intros [x|] [y|]; simpl; try (split; congruence).
  rewrite String.eqb_eq. split; congruence.
Qed.

Section KeyFacts.
Context {K : Type} `{HS : HashableSpec K}.

Lemma key_eqb_spec (x y : K) : reflect (x = y) (key_eqb x y).
Proof.
  destruct (key_eqb x y) eqn:E; constructor.
  - now apply key_eqb_iff.
  - intros Heq. apply key_eqb_iff in Heq. congruence.
Qed.

Lemma key_eqb_refl (x : K) : key_eqb x x = true.
Proof. destruct (key_eqb_spec x x); congruence. Qed.

Lemma key_eqb_eq (x y : K) : key_eqb x y = true <-> x = y.
Proof. destruct (key_eqb_spec x y); split; congruence. Qed.

Lemma key_eqb_neq (x y : K) : key_eqb x y = false <-> x <> y.
Proof. destruct (key_eqb_spec x y); split; congruence. Qed.

Lemma key_eqb_sym (x y : K) : key_eqb x y = key_eqb y x.
Proof.
  destruct (key_eqb_spec x y), (key_eqb_spec y x); congruence.
Qed.

Lemma memb_In (x : K) (l : list K) : memb x l = true <-> In x l.
Proof.
  unfold memb. rewrite existsb_exists. split.
  - intros (y & Hy & E). apply key_eqb_eq in E. now subst.
  - intros Hx. exists x. split; [assumption | apply key_eqb_refl].
Qed.

Lemma memb_not_In (x : K) (l : list K) : memb x l = false <-> ~ In x l.
Proof.
  rewrite <- memb_In. destruct (memb x l); split; congruence.
Qed.

Lemma memb_app (x : K) (l1 l2 : list K) :
  memb x (l1 ++ l2) = memb x l1 || memb x l2.
Proof. unfold memb. apply existsb_app. Qed.
End KeyFacts.

(** ** Dicts *)

Section DictFacts.
Context {K V : Type} `{HS : HashableSpec K}.
Implicit Types (d : Dict.t K V) (k : K) (v : V).

Lemma get_set_same k v d : Dict.get k (Dict.set k v d) = Some v.
Proof.
  induction d as [|[k' v'] d IH]; simpl.
  - now rewrite key_eqb_refl.
  - destruct (key_eqb k k') eqn:E; simpl; rewrite E; auto.
Qed.

Lemma get_set_other k k' v d :
  k <> k' -> Dict.get k' (Dict.set k v d) = Dict.get k' d.
Proof.
  intros Hne. induction d as [|[k0 v0] d IH]; simpl.
  - apply not_eq_sym, key_eqb_neq in Hne. now rewrite Hne.
  - destruct (key_eqb k k0) eqn:E; simpl.
    + apply key_eqb_eq in E. subst k0.
      apply not_eq_sym, key_eqb_neq in Hne. now rewrite Hne.
    + now rewrite IH.
Qed.

Lemma set_set k v v' d : Dict.set k v (Dict.set k v' d) = Dict.set k v d.
Proof.
  induction d as [|[k0 v0] d IH]; simpl.
  - now rewrite key_eqb_refl.
  - destruct (key_eqb k k0) eqn:E; simpl; rewrite E; congruence.
Qed.

Lemma get_In_keys k d : Dict.get k d <> None <-> In k (Dict.keys d).
Proof.
  induction d as [|[k0 v0] d IH]; simpl.
  - tauto.
  - destruct (key_eqb_spec k k0) as [->|Hne].
    + split; [auto | discriminate].
    + rewrite IH. split; [auto | intros [E|]; congruence].
Qed.

Lemma mem_memb k d : Dict.mem k d = memb k (Dict.keys d).
Proof.
  unfold Dict.mem. destruct (Dict.get k d) eqn:E.
  - symmetry. apply memb_In, get_In_keys. congruence.
  - symmetry. apply memb_not_In. rewrite <- get_In_keys. congruence.
Qed.

(** Assigning to a key appends it when it is new and leaves the order of
    the keys alone otherwise. *)
Lemma keys_set k v d :
  Dict.keys (Dict.set k v d)
  = if Dict.mem k d then Dict.keys d else Dict.keys d ++ [k].
Proof.
  unfold Dict.mem.
  induction d as [|[k0 v0] d IH]; simpl; [reflexivity|].
  destruct (key_eqb k k0) eqn:E; simpl; [reflexivity|].
  rewrite IH. now destruct (Dict.get k d).
Qed.

Lemma get_of_item k v d :
  NoDup (Dict.keys d) -> In (k, v) d -> Dict.get k d = Some v.
Proof.
  induction d as [|[k0 v0] d IH]; simpl; [tauto|].
  intros Hnd [E|Hin].
  - inversion E; subst. now rewrite key_eqb_refl.
  - inversion Hnd as [|? ? Hnotin Hnd']; subst.
    destruct (key_eqb_spec k k0) as [->|Hne]; [|auto].
    exfalso. apply Hnotin. change k0 with (fst (k0, v)).
    now apply in_map.
Qed.
End DictFacts.

(** ** Order of first occurrence *)

Section FirstSeenFacts.
Context {K : Type} `{HS : HashableSpec K}.

Lemma first_seen_In (x : K) (l seen : list K) :
  In x (first_seen seen l) <-> In x l /\ ~ In x seen.
Proof.
  revert seen. induction l as [|y l IH]; intros seen; simpl; [tauto|].
  destruct (memb y seen) eqn:E.
  - apply memb_In in E. rewrite IH. split.
    + tauto.
    + intros [[->|Hx] Hn]; tauto.
  - apply memb_not_In in E. simpl. rewrite IH, in_app_iff. simpl. split.
    + intros [->|(Hx & Hn)]; tauto.
    + intros [[->|Hx] Hn]; [tauto|].
      destruct (key_eqb_spec y x) as [->|Hne]; [tauto|]. right. tauto.
Qed.

Lemma first_seen_NoDup (l seen : list K) :
  NoDup seen -> NoDup (seen ++ first_seen seen l).
Proof.
  revert seen. induction l as [|y l IH]; intros seen Hnd; simpl.
  - now rewrite app_nil_r.
  - destruct (memb y seen) eqn:E; [now apply IH|].
    apply memb_not_In in E.
    change (y :: first_seen (seen ++ [y]) l)
      with ([y] ++ first_seen (seen ++ [y]) l).
    rewrite app_assoc. apply IH.
    apply NoDup_app; [assumption | repeat constructor; simpl; tauto |].
    intros a Ha [<-|[]]. tauto.
Qed.

Lemma first_seen_nil_NoDup (l : list K) : NoDup (first_seen [] l).
Proof. apply (first_seen_NoDup l (seen:=[])). constructor. Qed.

Lemma first_seen_nil_In (x : K) (l : list K) :
  In x (first_seen [] l) <-> In x l.
Proof. rewrite first_seen_In. simpl. tauto. Qed.

(** A loop that only assigns [d[kf x] = ...] leaves the keys in the order
    in which the loop first met them. *)
Lemma keys_fold_set {V X} (kf : X -> K) (vf : Dict.t K V -> X -> V)
  (l : list X) (acc : Dict.t K V) :
  Dict.keys (fold_left (fun d x => Dict.set (kf x) (vf d x) d) l acc)
  = Dict.keys acc ++ first_seen (Dict.keys acc) (map kf l).
Proof.
  revert acc. induction l as [|x l IH]; intros acc; simpl.
  - now rewrite app_nil_r.
  - rewrite IH, keys_set, mem_memb.
    destruct (memb (kf x) (Dict.keys acc)); [reflexivity|].
    now rewrite <- app_assoc.
Qed.
End FirstSeenFacts.

(** ** The grouping loops *)

Section Grouping.
Context {X V : Type} (kf : X -> string) (vf : X -> V).

Lemma get_group_add (s k : string) (v : V) (d : Dict.t string (list V)) :
  get_group s (add_to_group k v d)
  = if key_eqb k s then get_group s d ++ [v] else get_group s d.
Proof.
  unfold add_to_group. destruct (key_eqb_spec k s) as [->|Hne].
  - unfold get_group at 1. now rewrite get_set_same.
  - unfold get_group at 1. rewrite get_set_other by assumption. reflexivity.
Qed.

Lemma get_group_all (s : string) (l : list X) (acc : Dict.t string (list V)) :
  get_group s (group_all kf vf l acc)
  = get_group s acc ++ map vf (filter (fun x => key_eqb (kf x) s) l).
Proof.
  unfold group_all. revert acc.
  induction l as [|x l IH]; intros acc; cbn [fold_left filter map].
  - now rewrite app_nil_r.
  - rewrite IH, get_group_add.
    destruct (key_eqb (kf x) s); cbn [map];
      [now rewrite <- app_assoc | reflexivity].
Qed.

Lemma keys_group_all (l : list X) (acc : Dict.t string (list V)) :
  Dict.keys (group_all kf vf l acc)
  = Dict.keys acc ++ first_seen (Dict.keys acc) (map kf l).
Proof.
  unfold group_all, add_to_group.
  apply (keys_fold_set kf (fun d x => get_group (kf x) d ++ [vf x])).
Qed.

Lemma getitem_get_group (s : string) (d : Dict.t string (list V)) :
  In s (Dict.keys d) -> getitem s d = inr (get_group s d).
Proof.
  intros Hin. apply get_In_keys in Hin. unfold getitem, get_group.
  destruct (Dict.get s d); congruence.
Qed.
End Grouping.

Lemma add_to_group_new {V} (s : string) (v : V) (d : Dict.t string (list V)) :
  Dict.mem s d = false ->
  Dict.set s ([] ++ [v]) (Dict.set s [] d) = add_to_group s v d.
Proof.
  intros Hm. rewrite set_set. unfold add_to_group, get_group.
  unfold Dict.mem in Hm. destruct (Dict.get s d); [discriminate | reflexivity].
Qed.

Lemma getitem_mem {V} (s : string) (d : Dict.t string V) :
  Dict.mem s d = true -> exists v, Dict.get s d = Some v /\ getitem s d = inr v.
Proof.
  unfold Dict.mem, getitem. destruct (Dict.get s d) as [v|]; [|discriminate].
  intros _. now exists v.
Qed.

Lemma add_to_group_old {V} (s : string) (v : V) (d : Dict.t string (list V))
  (g : list V) :
  Dict.get s d = Some g -> Dict.set s (g ++ [v]) d = add_to_group s v d.
Proof. intros Hg. unfold add_to_group, get_group. now rewrite Hg. Qed.

Lemma multi_doc_body_spec (d : Dict.t string (list ScoredChunk))
  (item : ScoredChunk) :
  multi_doc_body d item = inr (add_to_group (source_of item) item d).
Proof.
  destruct item as [doc score]. unfold multi_doc_body, source_of. cbn [fst].
  set (s := get_source_or_unknown doc).
  destruct (Dict.mem s d) eqn:Hm; cbn [negb].
  - destruct (getitem_mem _ _ Hm) as (g & Hg & ->). cbn [rbind].
    now rewrite (add_to_group_old _ _ _ Hg).
  - unfold getitem. rewrite get_set_same. cbn [rbind].
    now rewrite add_to_group_new.
Qed.

Lemma for_each_multi_doc_body (l : list ScoredChunk)
  (acc : Dict.t string (list ScoredChunk)) :
  for_each multi_doc_body l acc
  = inr (group_all source_of (fun item => item) l acc).
Proof.
  revert acc. induction l as [|x l IH]; intros acc; [reflexivity|].
  cbn [for_each]. rewrite multi_doc_body_spec. cbn [rbind]. apply IH.
Qed.

Lemma keys_add_to_group {V W} (s : string) (v : V) (w : W)
  (d : Dict.t string (list V)) (d' : Dict.t string (list W)) :
  Dict.keys d = Dict.keys d' ->
  Dict.keys (add_to_group s v d) = Dict.keys (add_to_group s w d').
Proof.
  intros E. unfold add_to_group. now rewrite !keys_set, !mem_memb, E.
Qed.

Lemma best_match_body_spec (ds : Dict.t string (list Q))
  (dc : Dict.t string (list Document)) (item : ScoredChunk) :
  Dict.keys ds = Dict.keys dc ->
  best_match_body (ds, dc) item
  = inr (add_to_group (source_of item) (snd item) ds,
         add_to_group (source_of item) (fst item) dc).
Proof.
  intros E. destruct item as [doc score].
  unfold best_match_body, source_of. cbn [fst snd].
  set (s := get_source_or_unknown doc).
  assert (Hmm : Dict.mem s dc = Dict.mem s ds) by now rewrite !mem_memb, E.
  destruct (Dict.mem s ds) eqn:Hm; cbn [negb].
  - destruct (getitem_mem _ _ Hm) as (g & Hg & ->).
    destruct (getitem_mem _ _ Hmm) as (g' & Hg' & ->). cbn [rbind].
    now rewrite (add_to_group_old _ _ _ Hg), (add_to_group_old _ _ _ Hg').
  - unfold getitem. rewrite !get_set_same. cbn [rbind].
    rewrite !add_to_group_new; [reflexivity | assumption | assumption].
Qed.

Lemma for_each_best_match_body (l : list ScoredChunk)
  (ds : Dict.t string (list Q)) (dc : Dict.t string (list Document)) :
  Dict.keys ds = Dict.keys dc ->
  for_each best_match_body l (ds, dc)
  = inr (group_all source_of snd l ds, group_all source_of fst l dc).
Proof.
  revert ds dc. induction l as [|x l IH]; intros ds dc E; [reflexivity|].
  cbn [for_each]. rewrite best_match_body_spec by assumption. cbn [rbind].
  apply IH. now apply keys_add_to_group.
Qed.

(** ** [min] and [max] *)

Lemma Qltb_true (x y : Q) : Qltb x y = true <-> (x < y)%Q.
Proof.
  unfold Qltb. rewrite negb_true_iff. split.
  - intros E. apply Qnot_le_lt. intros Hle.
    apply Qle_bool_iff in Hle. congruence.
  - intros Hlt. destruct (Qle_bool y x) eqn:E; [|reflexivity].
    apply Qle_bool_iff in E. exfalso. now apply (Qlt_not_le x y).
Qed.

Lemma Qltb_false (x y : Q) : Qltb x y = false <-> (y <= x)%Q.
Proof.
  unfold Qltb. rewrite negb_false_iff. apply Qle_bool_iff.
Qed.

Section MinMax.
Context {A : Type}.

Lemma first_min_In (f : A -> Q) (l : list A) (b : A) :
  first_min f l b -> In b l.
Proof.
  intros (l1 & l2 & -> & _). apply in_or_app. right. now left.
Qed.

Lemma first_min_le (f : A -> Q) (l : list A) (b x : A) :
  first_min f l b -> In x l -> (f b <= f x)%Q.
Proof.
  intros (l1 & l2 & -> & H1 & H2) Hx.
  apply in_app_or in Hx. destruct Hx as [Hx|[<-|Hx]].
  - now apply Qlt_le_weak, H1.
  - apply Qle_refl.
  - now apply H2.
Qed.

Lemma min_loop_spec (key : A -> result Q) (f : A -> Q) (rest : list A) :
  (forall x, In x rest -> key x = inr (f x)) ->
  forall best, exists b,
    min_loop key best (f best) rest = inr b /\ first_min f (best :: rest) b.
Proof.
  induction rest as [|x rest IH]; intros Hkey best.
  - exists best. split; [reflexivity|].
    exists [], []. repeat split; simpl; tauto.
  - cbn [min_loop]. rewrite (Hkey x) by now left. cbn [rbind].
    assert (Hkey' : forall y, In y rest -> key y = inr (f y))
      by (intros y Hy; apply Hkey; now right).
    destruct (Qltb (f x) (f best)) eqn:E.
    + apply Qltb_true in E.
      destruct (IH Hkey' x) as (b & -> & Hb). exists b. split; [reflexivity|].
      pose proof (@first_min_le f _ b x Hb (or_introl eq_refl)) as Hbx.
      destruct Hb as (l1 & l2 & Hl & H1 & H2).
      exists (best :: l1), l2. split; [simpl; now rewrite Hl|].
      split; [|assumption].
      intros y [<-|Hy]; [|now apply H1].
      now apply (Qle_lt_trans _ (f x)).
    + apply Qltb_false in E.
      destruct (IH Hkey' best) as (b & -> & Hb). exists b.
      split; [reflexivity|].
      destruct Hb as ([|a l1] & l2 & Hl & H1 & H2); simpl in Hl;
        inversion Hl; subst.
      * exists [], (x :: l2). split; [reflexivity|]. split; [simpl; tauto|].
        intros y [<-|Hy]; [assumption | now apply H2].
      * exists (a :: x :: l1), l2. split; [reflexivity|]. split; [|assumption].
        intros y [<-|[<-|Hy]].
        -- apply H1. now left.
        -- apply (Qlt_le_trans _ (f a)); [apply H1; now left | assumption].
        -- apply H1. now right.
Qed.

Lemma py_min_spec (key : A -> result Q) (f : A -> Q) (l : list A) :
  l <> [] -> (forall x, In x l -> key x = inr (f x)) ->
  exists b, py_min key l = inr b /\ first_min f l b.
Proof.
  destruct l as [|x l]; [congruence|]. intros _ Hkey.
  cbn [py_min]. rewrite (Hkey x) by now left. cbn [rbind].
  apply min_loop_spec. intros y Hy. apply Hkey. now right.
Qed.
End MinMax.

Section MaxLoop.
Context {K : Type}.

Lemma first_max_In (l : list (K * Z)) (b : K * Z) :
  first_max l b -> In b l.
Proof.
  intros (l1 & l2 & -> & _). apply in_or_app. right. now left.
Qed.

Lemma first_max_ge (l : list (K * Z)) (b x : K * Z) :
  first_max l b -> In x l -> snd x <= snd b.
Proof.
  intros (l1 & l2 & -> & H1 & H2) Hx.
  apply in_app_or in Hx. destruct Hx as [Hx|[<-|Hx]].
  - specialize (H1 x Hx). lia.
  - lia.
  - now apply H2.
Qed.

Lemma max_loop_spec (rest : list (K * Z)) (best : K * Z) :
  first_max (best :: rest) (max_loop best rest).
Proof.
  revert best. induction rest as [|x rest IH]; intros best.
  - exists [], []. repeat split; simpl; tauto.
  - cbn [max_loop]. destruct (snd best <? snd x) eqn:E.
    + apply Z.ltb_lt in E. specialize (IH x).
      pose proof (@first_max_ge _ _ x IH (or_introl eq_refl)) as Hxb.
      destruct IH as (l1 & l2 & Hl & H1 & H2).
      exists (best :: l1), l2. split; [simpl; now f_equal|].
      split; [|assumption].
      intros y [<-|Hy]; [lia | now apply H1].
    + apply Z.ltb_ge in E. specialize (IH best).
      destruct IH as ([|a l1] & l2 & Hl & H1 & H2); simpl in Hl;
        injection Hl as Hb Hr.
      * exists [], (x :: l2). split; [simpl; congruence|].
        split; [simpl; tauto|].
        intros y [<-|Hy]; [rewrite <- Hb; lia | now apply H2].
      * subst a. exists (best :: x :: l1), l2.
        split; [simpl; congruence|]. split; [|assumption].
        intros y [<-|[<-|Hy]].
        -- apply H1. now left.
        -- specialize (H1 best (or_introl eq_refl)). lia.
        -- apply H1. now right.
Qed.
End MaxLoop.

(** ** [sorted] *)

Section SortFacts.
Context {A : Type}.

Lemma insert_by_perm (kx : Q) (x : A) (l : list (Q * A)) :
  Permutation (insert_by kx x l) ((kx, x) :: l).
Proof.
  induction l as [|[ky y] l IH]; cbn [insert_by]; [reflexivity|].
  destruct (Qle_bool kx ky); [reflexivity|].
  rewrite IH. apply perm_swap.
Qed.

Lemma insert_by_sorted (kx : Q) (x : A) (l : list (Q * A)) :
  StronglySorted key_le l -> StronglySorted key_le (insert_by kx x l).
Proof.
  induction 1 as [|[ky y] l Hs IH Hall]; cbn [insert_by].
  - repeat constructor.
  - destruct (Qle_bool kx ky) eqn:E.
    + apply Qle_bool_iff in E. constructor.
      * now constructor.
      * constructor; [exact E|].
        eapply Forall_impl; [|exact Hall].
        intros p Hp. unfold key_le in *. cbn [fst] in *.
        now apply (Qle_trans _ ky).
    + constructor; [exact IH|].
      apply (Permutation_Forall (Permutation_sym (insert_by_perm kx x l))).
      constructor; [|exact Hall].
      unfold key_le. cbn [fst]. apply Qlt_le_weak, Qltb_true.
      unfold Qltb. now rewrite E.
Qed.

Lemma sort_decorated_perm (l : list (Q * A)) :
  Permutation (sort_decorated l) l.
Proof.
  induction l as [|[k x] l IH]; cbn; [reflexivity|].
  fold (sort_decorated l). rewrite insert_by_perm. now constructor.
Qed.

Lemma sort_decorated_sorted (l : list (Q * A)) :
  StronglySorted key_le (sort_decorated l).
Proof.
  induction l as [|[k x] l IH]; cbn; [constructor|].
  now apply insert_by_sorted.
Qed.

Lemma comprehension_decorate (key : A -> result Q) (f : A -> Q)
  (l : list A) :
  (forall x, In x l -> key x = inr (f x)) ->
  comprehension (fun x => kx <~ key x ;; inr (kx, x)) l
  = inr (map (fun x => (f x, x)) l).
Proof.
  induction l as [|x l IH]; intros Hkey; [reflexivity|].
  cbn [comprehension map]. rewrite (Hkey x) by now left. cbn [rbind].
  rewrite IH; [reflexivity|]. intros y Hy. apply Hkey. now right.
Qed.

(** When no key raises, [sorted] returns and its result is [sort_by]. *)
Lemma py_sorted_total (key : A -> result Q) (f : A -> Q) (l : list A) :
  (forall x, In x l -> key x = inr (f x)) ->
  py_sorted key l = inr (sort_by f l).
Proof.
  intros Hkey. unfold py_sorted, sort_by.
  now rewrite (@comprehension_decorate key f l Hkey).
Qed.

Lemma sort_by_perm (f : A -> Q) (l : list A) : Permutation (sort_by f l) l.
Proof.
  unfold sort_by. rewrite sort_decorated_perm, map_map. cbn [snd].
  now rewrite map_id.
Qed.

Lemma sort_by_length (f : A -> Q) (l : list A) :
  List.length (sort_by f l) = List.length l.
Proof. apply Permutation_length, sort_by_perm. Qed.

Lemma sorted_undecorate (f : A -> Q) (d : list (Q * A)) :
  StronglySorted key_le d ->
  Forall (fun p => fst p = f (snd p)) d ->
  StronglySorted (fun a b => (f a <= f b)%Q) (map snd d).
Proof.
  induction 1 as [|p d Hs IH Hall]; intros Hdec; cbn [map]; [constructor|].
  inversion Hdec as [|? ? Hp Hd]; subst. constructor; [now apply IH|].
  apply Forall_map. rewrite Forall_forall in *.
  intros q Hq. specialize (Hall q Hq). unfold key_le in Hall.
  now rewrite <- Hp, <- (Hd q Hq).
Qed.

Lemma sort_by_sorted (f : A -> Q) (l : list A) :
  StronglySorted (fun a b => (f a <= f b)%Q) (sort_by f l).
Proof.
  unfold sort_by. apply sorted_undecorate; [apply sort_decorated_sorted|].
  apply (Permutation_Forall (Permutation_sym (sort_decorated_perm _))).
  apply Forall_map, Forall_forall. reflexivity.
Qed.
End SortFacts.

(** ** The dicts the grouping loops build *)

Lemma dict_items_by_key {V} (d : Dict.t string (list V)) :
  NoDup (Dict.keys d) ->
  d = map (fun s => (s, get_group s d)) (Dict.keys d).
Proof.
  intros Hnd. unfold Dict.keys. rewrite map_map.
  rewrite <- (map_id d) at 1. apply map_ext_in.
  intros [k v] Hin. cbn [fst]. unfold get_group.
  now rewrite (get_of_item _ _ _ Hnd Hin).
Qed.

Section Grouped.
Context {V : Type} (vf : ScoredChunk -> V) (batch : list ScoredChunk).

Let grouped := group_all source_of vf batch [].

Lemma grouped_keys : Dict.keys grouped = distinct_sources batch.
Proof. unfold grouped. now rewrite keys_group_all. Qed.

Lemma grouped_group (s : string) :
  get_group s grouped = map vf (group_of batch s).
Proof. unfold grouped. now rewrite get_group_all. Qed.

Lemma grouped_getitem (s : string) :
  In s (distinct_sources batch) ->
  getitem s grouped = inr (map vf (group_of batch s)).
Proof.
  intros Hin. rewrite getitem_get_group by now rewrite grouped_keys.
  now rewrite grouped_group.
Qed.

Lemma grouped_items :
  grouped = map (fun s => (s, map vf (group_of batch s)))
                (distinct_sources batch).
Proof.
  rewrite (dict_items_by_key grouped), grouped_keys.
  - apply map_ext. intros s. now rewrite grouped_group.
  - rewrite grouped_keys. apply first_seen_nil_NoDup.
Qed.
End Grouped.

Lemma distinct_sources_In (batch : list ScoredChunk) (s : string) :
  In s (distinct_sources batch)
  <-> exists item, In item batch /\ source_of item = s.
Proof.
  unfold distinct_sources. rewrite first_seen_nil_In, in_map_iff.
  split; intros (item & H1 & H2); exists item; tauto.
Qed.

Lemma distinct_sources_nonempty (batch : list ScoredChunk) :
  batch <> [] -> distinct_sources batch <> [].
Proof.
  destruct batch as [|item batch]; [congruence|]. intros _ E.
  assert (Hin : In (source_of item) (distinct_sources (item :: batch)))
    by (apply distinct_sources_In; exists item; split; [now left | reflexivity]).
  rewrite E in Hin. contradiction.
Qed.

Lemma group_of_In (batch : list ScoredChunk) (s : string) (item : ScoredChunk) :
  In item (group_of batch s) <-> In item batch /\ source_of item = s.
Proof.
  unfold group_of. rewrite filter_In, key_eqb_eq. reflexivity.
Qed.

Lemma group_of_nonempty (batch : list ScoredChunk) (s : string) :
  In s (distinct_sources batch) -> group_of batch s <> [].
Proof.
  intros Hin E. apply distinct_sources_In in Hin.
  destruct Hin as (item & Hitem & Hs).
  assert (H : In item (group_of batch s)) by now apply group_of_In.
  rewrite E in H. contradiction.
Qed.

(** ** ["best_match"] *)

Lemma best_match_spec (mean : list Q -> Q) (k : Z)
  (batch : list ScoredChunk) :
  batch <> [] ->
  exists best,
    first_min (mean_score mean batch) (distinct_sources batch) best /\
    best_match mean k batch
    = inr {| chunks := slice_to k (map fst (group_of batch best));
             primary_source := Some (Some best);
             sources_used := None;
             strategy_used := "best_match";
             document_scores :=
               Some (map (fun s => (s, mean_score mean batch s))
                         (distinct_sources batch)) |}.
Proof.
  intros Hne. unfold best_match.
  rewrite for_each_best_match_body by reflexivity. cbn [rbind].
  rewrite grouped_keys.
  destruct (@py_min_spec _
              (fun x => scores <~ getitem x (group_all source_of snd batch []) ;;
                        inr (mean scores))
              (mean_score mean batch) (distinct_sources batch)
              (distinct_sources_nonempty Hne)) as (best & Hmin & Hbest).
  { intros s Hs. now rewrite grouped_getitem. }
  exists best. split; [assumption|].
  rewrite Hmin. cbn [rbind].
  rewrite grouped_getitem by now apply (first_min_In Hbest). cbn [rbind].
  do 3 f_equal. rewrite (grouped_items snd batch), map_map. reflexivity.
Qed.

Lemma best_match_empty (mean : list Q -> Q) (k : Z) :
  best_match mean k [] = inl (ValueError "min() arg is an empty sequence").
Proof. reflexivity. Qed.

(** ** ["multi_doc"] *)

Lemma slice_to_nonneg {A} (k : Z) (l : list A) :
  0 <= k -> slice_to k l = firstn (Z.to_nat k) l.
Proof.
  intros Hk. unfold slice_to.
  destruct (0 <=? k) eqn:E; [reflexivity|]. apply Z.leb_gt in E. lia.
Qed.

Lemma firstn_In {A} (n : nat) (l : list A) (x : A) :
  In x (firstn n l) -> In x l.
Proof.
  intros Hx. rewrite <- (firstn_skipn n l). apply in_or_app. now left.
Qed.

Lemma min_score_spec (batch : list ScoredChunk) (s : string) :
  In s (distinct_sources batch) ->
  py_min (fun score => inr score) (map snd (group_of batch s))
  = inr (min_score batch s)
  /\ is_min_score batch s (min_score batch s).
Proof.
  intros Hin. unfold min_score, is_min_score.
  destruct (@py_min_spec Q (fun score => inr score) (fun score => score)
              (map snd (group_of batch s))) as (m & -> & Hm).
  - intros E. apply map_eq_nil in E. now apply (@group_of_nonempty batch s Hin).
  - reflexivity.
  - split; [reflexivity|]. split; [exact (first_min_In Hm)|].
    intros item Hitem.
    apply (@first_min_le Q (fun score => score) _ m (snd item) Hm).
    now apply in_map.
Qed.

Section MultiDoc.
Variable batch : list ScoredChunk.

Let doc_groups := group_all source_of (fun item : ScoredChunk => item) batch [].

Lemma doc_groups_getitem (s : string) :
  In s (distinct_sources batch) ->
  getitem s doc_groups = inr (group_of batch s).
Proof.
  intros Hin. unfold doc_groups. rewrite grouped_getitem by assumption.
  now rewrite map_id.
Qed.

Lemma min_score_key_spec (s : string) :
  In s (distinct_sources batch) ->
  min_score_key doc_groups s = inr (min_score batch s).
Proof.
  intros Hin. unfold min_score_key. rewrite doc_groups_getitem by assumption.
  cbn [rbind]. now apply min_score_spec.
Qed.

Lemma multi_doc_pick_spec (final_chunks : list Document)
  (used : list string) (s : string) :
  In s (distinct_sources batch) ->
  multi_doc_pick doc_groups (final_chunks, used) s
  = inr (if Z.of_nat (List.length used) <? 3
         then (final_chunks ++ top2 batch s, used ++ [s])
         else (final_chunks, used)).
Proof.
  intros Hin. unfold multi_doc_pick.
  destruct (Z.of_nat (List.length used) <? 3); [|reflexivity].
  rewrite doc_groups_getitem by assumption. cbn [rbind].
  rewrite (@py_sorted_total _ (fun x => inr (snd x)) snd) by reflexivity.
  cbn [rbind]. now rewrite slice_to_nonneg by lia.
Qed.

Lemma multi_doc_pick_loop (order : list string) :
  (forall s, In s order -> In s (distinct_sources batch)) ->
  forall final_chunks used,
    for_each (multi_doc_pick doc_groups) order (final_chunks, used)
    = inr (final_chunks
             ++ flat_map (top2 batch) (firstn (3 - List.length used) order),
           used ++ firstn (3 - List.length used) order).
Proof.
  induction order as [|s order IH]; intros Hin final_chunks used.
  - cbn [for_each]. rewrite firstn_nil. cbn [flat_map].
    now rewrite !app_nil_r.
  - cbn [for_each]. rewrite multi_doc_pick_spec by (apply Hin; now left).
    cbn [rbind].
    assert (Hin' : forall s', In s' order -> In s' (distinct_sources batch))
      by (intros s' Hs'; apply Hin; now right).
    destruct (Z.of_nat (List.length used) <? 3) eqn:E.
    + apply Z.ltb_lt in E. rewrite (IH Hin').
      rewrite length_app. cbn [List.length].
      replace (3 - List.length used)%nat
        with (S (3 - (List.length used + 1)))%nat by lia.
      cbn [firstn flat_map]. now rewrite <- !app_assoc.
    + apply Z.ltb_ge in E. rewrite (IH Hin').
      replace (3 - List.length used)%nat with 0%nat by lia.
      reflexivity.
Qed.

Lemma ranked_sources_In (s : string) :
  In s (ranked_sources batch) <-> In s (distinct_sources batch).
Proof.
  unfold ranked_sources. split; apply Permutation_in.
  - apply sort_by_perm.
  - apply Permutation_sym, sort_by_perm.
Qed.

Lemma multi_doc_spec (k : Z) :
  multi_doc k batch
  = inr {| chunks :=
             slice_to k (flat_map (top2 batch)
                           (firstn 3 (ranked_sources batch)));
           primary_source := None;
           sources_used := Some (firstn 3 (ranked_sources batch));
           strategy_used := "multi_doc";
           document_scores := None |}.
Proof.
  unfold multi_doc. rewrite for_each_multi_doc_body. cbn [rbind].
  fold doc_groups. unfold doc_groups at 2. rewrite grouped_keys.
  rewrite (@py_sorted_total _ (min_score_key doc_groups) (min_score batch))
    by apply min_score_key_spec.
  cbn [rbind]. fold (ranked_sources batch).
  rewrite multi_doc_pick_loop by apply ranked_sources_In.
  cbn [rbind List.length app]. reflexivity.
Qed.
End MultiDoc.

Lemma top2_length (batch : list ScoredChunk) (s : string) :
  (List.length (top2 batch s) <= 2)%nat.
Proof. unfold top2. rewrite length_map. apply firstn_le_length. Qed.

Lemma top2_source (batch : list ScoredChunk) (s : string) (doc : Document) :
  In doc (top2 batch s) -> get_source_or_unknown doc = s.
Proof.
  unfold top2. rewrite in_map_iff. intros (item & <- & Hitem).
  apply firstn_In in Hitem.
  apply (Permutation_in _ (sort_by_perm snd (group_of batch s))) in Hitem.
  now apply group_of_In in Hitem.
Qed.

(** ** [Counter] and ["single_source"] *)

Section CounterFacts.
Context {K : Type} `{HS : HashableSpec K}.

Lemma count_of_add (s x : K) (c : Dict.t K Z) :
  count_of s (Counter_add c x)
  = if key_eqb s x then count_of s c + 1 else count_of s c.
Proof.
  unfold Counter_add, count_of at 1.
  destruct (key_eqb_spec s x) as [->|Hne].
  - rewrite get_set_same. reflexivity.
  - rewrite get_set_other by congruence. reflexivity.
Qed.

Lemma count_of_fold (s : K) (l : list K) (acc : Dict.t K Z) :
  count_of s (fold_left Counter_add l acc) = count_of s acc + occurrences s l.
Proof.
  unfold occurrences. revert acc.
  induction l as [|x l IH]; intros acc; cbn [fold_left filter].
  - cbn. lia.
  - rewrite IH, count_of_add.
    destruct (key_eqb s x); cbn [List.length]; lia.
Qed.

Lemma Counter_keys (l : list K) : Dict.keys (Counter l) = first_seen [] l.
Proof.
  unfold Counter, Counter_add.
  rewrite (keys_fold_set (fun x => x)
             (fun d x => match Dict.get x d with
                         | Some n => n
                         | None => 0
                         end + 1)).
  now rewrite map_id.
Qed.

Lemma Counter_item (l : list K) (x : K) (n : Z) :
  In (x, n) (Counter l) -> n = occurrences x l.
Proof.
  intros Hin.
  assert (Hget : Dict.get x (Counter l) = Some n).
  { apply get_of_item; [|assumption].
    rewrite Counter_keys. apply first_seen_nil_NoDup. }
  pose proof (count_of_fold x l []) as Hc. fold (Counter l) in Hc.
  unfold count_of in Hc. rewrite Hget in Hc. cbn in Hc. lia.
Qed.

Lemma Counter_has (l : list K) (x : K) :
  In x l -> In (x, occurrences x l) (Counter l).
Proof.
  intros Hin.
  assert (Hk : In x (Dict.keys (Counter l)))
    by (rewrite Counter_keys; now apply first_seen_nil_In).
  unfold Dict.keys in Hk. apply in_map_iff in Hk.
  destruct Hk as ([x' n] & Hx & Hitem). cbn in Hx. subst x'.
  now rewrite <- (@Counter_item l x n Hitem).
Qed.

Lemma occurrences_nonneg (x : K) (l : list K) : 0 <= occurrences x l.
Proof. unfold occurrences. lia. Qed.

Lemma occurrences_absent (x : K) (l : list K) :
  ~ In x l -> occurrences x l = 0.
Proof.
  intros Hn. unfold occurrences.
  replace (filter (key_eqb x) l) with (@nil K); [reflexivity|].
  symmetry. induction l as [|y l IH]; [reflexivity|]. cbn [filter].
  destruct (key_eqb_spec x y) as [->|Hne].
  - exfalso. apply Hn. now left.
  - apply IH. intros Hx. apply Hn. now right.
Qed.

(** What [Counter(l).most_common(1)[0][0]] is for a non-empty [l]. *)
Lemma most_common_spec (l : list K) :
  l <> [] ->
  exists p,
    index0 (most_common_1 (Counter l)) = inr (p, occurrences p l) /\
    In p l /\
    (forall s, occurrences s l <= occurrences p l) /\
    (exists before after,
        first_seen [] l = before ++ p :: after /\
        forall s, In s before -> occurrences s l < occurrences p l).
Proof.
  intros Hne.
  destruct (Counter l) as [|x rest] eqn:Ec.
  { exfalso. pose proof (Counter_keys l) as Hk. rewrite Ec in Hk.
    destruct l as [|y l]; [congruence|]. cbn in Hk. discriminate. }
  cbn [most_common_1 index0].
  pose proof (max_loop_spec rest x) as Hmax.
  destruct (max_loop x rest) as [p n] eqn:Em.
  assert (Hpn : n = occurrences p l).
  { apply Counter_item. rewrite Ec. exact (@first_max_In _ _ _ Hmax). }
  subst n. exists p. split; [reflexivity|].
  assert (Hp : In p l).
  { apply first_seen_nil_In. rewrite <- Counter_keys, Ec.
    apply first_max_In in Hmax. unfold Dict.keys.
    change p with (fst (p, occurrences p l)). now apply in_map. }
  split; [assumption|]. split.
  - intros s. destruct (memb s l) eqn:Es.
    + apply memb_In in Es. apply Counter_has in Es. rewrite Ec in Es.
      exact (@first_max_ge _ _ _ _ Hmax Es).
    + apply memb_not_In in Es. rewrite (@occurrences_absent s l Es).
      apply occurrences_nonneg.
  - destruct Hmax as (l1 & l2 & Hl & H1 & _).
    exists (map fst l1), (map fst l2). split.
    + rewrite <- Counter_keys, Ec. unfold Dict.keys.
      now rewrite Hl, map_app.
    + intros s Hs. apply in_map_iff in Hs.
      destruct Hs as ([s' m] & Hs' & Hitem). cbn in Hs'. subst s'.
      assert (Hm : m = occurrences s l).
      { apply Counter_item. rewrite Ec, Hl. apply in_or_app. now left. }
      specialize (H1 _ Hitem). cbn in H1. lia.
Qed.
End CounterFacts.

Lemma single_source_spec (docs : list Document) :
  docs <> [] ->
  exists p,
    single_source docs
    = inr {| chunks := filter_by_source p docs;
             primary_source := Some p;
             sources_used := None;
             strategy_used := "single_source";
             document_scores := None |} /\
    In p (map get_source docs) /\
    (forall s, occurrences s (map get_source docs)
               <= occurrences p (map get_source docs)) /\
    (exists before after,
        first_seen [] (map get_source docs) = before ++ p :: after /\
        forall s, In s before ->
                  occurrences s (map get_source docs)
                  < occurrences p (map get_source docs)).
Proof.
  intros Hne.
  destruct (@most_common_spec (option string) _ _ (map get_source docs))
    as (p & Hidx & Hrest).
  { intros E. apply map_eq_nil in E. contradiction. }
  exists p. split; [|exact Hrest].
  unfold single_source, most_common_source. now rewrite Hidx.
Qed.

Lemma single_source_empty :
  single_source [] = inl (IndexError "list index out of range").
Proof. reflexivity. Qed.

(** ** Dispatch on the strategy name *)

Lemma smart_document_search_best_match (sv : Services) (query : string)
  (k : Z) (tr : log) :
  smart_document_search sv query k "best_match" tr
  = (best <~ similarity_search_with_score sv query (k * 5) ;;
     best_match (mean sv) k best,
     tr ++ [SimilaritySearchWithScore query (k * 5)]).
Proof.
  unfold smart_document_search, bind, call, lift. cbn [String.eqb Ascii.eqb Bool.eqb].
  now destruct (similarity_search_with_score sv query (k * 5)).
Qed.

Lemma smart_document_search_multi_doc (sv : Services) (query : string)
  (k : Z) (tr : log) :
  smart_document_search sv query k "multi_doc" tr
  = (batch <~ similarity_search_with_score sv query (k * 3) ;;
     multi_doc k batch,
     tr ++ [SimilaritySearchWithScore query (k * 3)]).
Proof.
  unfold smart_document_search, bind, call, lift. cbn [String.eqb Ascii.eqb Bool.eqb].
  now destruct (similarity_search_with_score sv query (k * 3)).
Qed.

Lemma smart_document_search_fallback (sv : Services) (query : string)
  (k : Z) (strategy : string) (tr : log) :
  strategy <> "best_match" -> strategy <> "multi_doc" ->
  smart_document_search sv query k strategy tr
  = (docs <~ similarity_search sv query k ;; single_source docs,
     tr ++ [SimilaritySearch query k]).
Proof.
  intros H1 H2. unfold smart_document_search, bind, call, lift.
  apply String.eqb_neq in H1, H2. rewrite H1, H2.
  now destruct (similarity_search sv query k).
Qed.

(** * The retrieval strategies *)

Lemma get_map_keys {V} (f : string -> V) (l : list string) (s : string) :
  In s l -> Dict.get s (map (fun x => (x, f x)) l) = Some (f s).
Proof.
  induction l as [|x l IH]; [contradiction|]. intros Hin. cbn [map Dict.get].
  destruct (key_eqb_spec s x) as [->|Hne]; [reflexivity|].
  destruct Hin as [->|Hin]; [congruence | now apply IH].
Qed.

(** X27.  Strategy "best_match" with limit [k >= 1], when the search
    for [k * 5] scored chunks returns a non-empty batch: the one external
    call is that search; the batch is grouped by source; [primary_source]
    is a source of the batch whose mean score, as [np.mean] gives it, is
    the lowest (the first met among those); the chunks returned are the
    first [k] chunks of that source in batch order, so at most [k] chunks,
    all of that source; [document_scores] gives every source of the batch
    that mean.  Nothing is assumed of what [np.mean] computes. *)
Theorem best_match_retrieval (sv : Services) (query : string) (k : Z)
  (tr : log) (batch : list ScoredChunk) :
  1 <= k ->
  similarity_search_with_score sv query (k * 5) = inr batch ->
  batch <> [] ->
  exists r best,
    smart_document_search sv query k "best_match" tr
    = (inr r, tr ++ [SimilaritySearchWithScore query (k * 5)]) /\
    primary_source r = Some (Some best) /\
    (exists item, In item batch /\ source_of item = best) /\
    (forall s, In s (distinct_sources batch) ->
               (mean_score (mean sv) batch best
                <= mean_score (mean sv) batch s)%Q) /\
    first_min (mean_score (mean sv) batch) (distinct_sources batch) best /\
    chunks r = firstn (Z.to_nat k) (map fst (group_of batch best)) /\
    Z.of_nat (List.length (chunks r)) <= k /\
    (forall d, In d (chunks r) -> get_source_or_unknown d = best) /\
    (exists scores,
        document_scores r = Some scores /\
        Dict.keys scores = distinct_sources batch /\
        forall item, In item batch ->
          Dict.get (source_of item) scores
          = Some (mean sv (map snd (group_of batch (source_of item))))) /\
    strategy_used r = "best_match".
Proof.
  intros Hk Hsearch Hne.
  destruct (best_match_spec (mean sv) k Hne) as (best & Hmin & Hres).
  eexists. exists best. split.
  { rewrite smart_document_search_best_match, Hsearch. cbn [rbind].
    rewrite Hres. reflexivity. }
  cbn [primary_source chunks document_scores strategy_used].
  rewrite slice_to_nonneg by lia.
  split; [reflexivity|]. split.
  { apply distinct_sources_In. exact (first_min_In Hmin). }
  split.
  { intros s Hs. exact (@first_min_le _ _ _ _ _ Hmin Hs). }
  split; [assumption|]. split; [reflexivity|]. split.
  { pose proof (firstn_le_length (Z.to_nat k) (map fst (group_of batch best))).
    lia. }
  split.
  { intros d Hd. apply firstn_In, in_map_iff in Hd.
    destruct Hd as (item & <- & Hitem). now apply group_of_In in Hitem. }
  split; [|reflexivity].
  eexists. split; [reflexivity|]. split.
  { unfold Dict.keys. rewrite map_map. cbn [fst]. apply map_id. }
  intros item Hitem.
  apply (get_map_keys (mean_score (mean sv) batch)).
  apply distinct_sources_In. now exists item.
Qed.

Lemma best_match_retrieval_witness :
  exists r best,
    smart_document_search (Examples.store Examples.batch_ab) "q" 2
      "best_match" []
    = (inr r, [SimilaritySearchWithScore "q" 10]) /\
    primary_source r = Some (Some best) /\
    chunks r = firstn 2 (map fst (group_of Examples.batch_ab best)).
Proof.
  destruct (@best_match_retrieval (Examples.store Examples.batch_ab) "q" 2
              [] Examples.batch_ab)
    as (r & best & H1 & H2 & _ & _ & _ & H5 & _).
  - lia.
  - reflexivity.
  - discriminate.
  - exists r, best. repeat split; assumption.
Defined.

(** The mean that decides is the one [np.mean] computes.  On the doubles
    0.1, 0.2, 0.3 for A and 0.2 for B the exact mean of A is the lower
    one, the computed mean of A is the higher one, and "best_match"
    answers from B. *)
Lemma best_match_follows_rounding :
  let a := map snd (group_of Fixtures.batch_rounding "A.pdf") in
  let b := map snd (group_of Fixtures.batch_rounding "B.pdf") in
  (fold_left Qplus a 0 / 3 < fold_left Qplus b 0 / 1)%Q /\
  (np_mean b < np_mean a)%Q /\
  match fst (smart_document_search (Examples.store Fixtures.batch_rounding)
               "q" 1 "best_match" []) with
  | inr r => primary_source r
  | inl _ => None
  end = Some (Some "B.pdf").
Proof. repeat split; vm_compute; reflexivity. Qed.

(** C1.  Strategy "best_match" against a collection for which the search
    returns no chunk: [min] is called on no source and raises
    [ValueError], so no result is returned, neither a primary source nor
    chunks nor document scores.  The one external call made is the
    search. *)
Lemma best_match_empty_batch_raises :
  similarity_search_with_score Examples.empty_store "q" (1 * 5) = inr [] /\
  smart_document_search Examples.empty_store "q" 1 "best_match" []
  = (inl (ValueError "min() arg is an empty sequence"),
     [SimilaritySearchWithScore "q" 5]) /\
  ~ (exists r,
        fst (smart_document_search Examples.empty_store "q" 1
               "best_match" []) = inr r).
Proof.
  split; [reflexivity|]. split; [reflexivity|].
  intros (r & Hr). cbn in Hr. discriminate.
Qed.

Lemma smart_document_search_multi_doc_result (sv : Services)
  (query : string) (k : Z) (tr : log) (batch : list ScoredChunk) :
  similarity_search_with_score sv query (k * 3) = inr batch ->
  smart_document_search sv query k "multi_doc" tr
  = (inr {| chunks :=
              slice_to k (flat_map (top2 batch)
                            (firstn 3 (ranked_sources batch)));
            primary_source := None;
            sources_used := Some (firstn 3 (ranked_sources batch));
            strategy_used := "multi_doc";
            document_scores := None |},
     tr ++ [SimilaritySearchWithScore query (k * 3)]).
Proof.
  intros Hsearch.
  rewrite smart_document_search_multi_doc, Hsearch. cbn [rbind].
  now rewrite multi_doc_spec.
Qed.

(** C2.  Strategy "multi_doc" with limit [k >= 1]: the one external call
    is the search for [k * 3] scored chunks.  The distinct sources of the
    batch are put in ascending order of the least score of their group
    ([ranked_sources]); the first three of them are [sources_used]; each
    of these contributes its two best-scored chunks ([top2]: the first two
    of its group sorted by ascending score), in that order of sources;
    the combined list is cut to [k] chunks.  So at most 3 sources
    contribute, each at most 2 chunks, and at most [k] chunks come
    back. *)
Theorem multi_doc_retrieval (sv : Services) (query : string) (k : Z)
  (tr : log) (batch : list ScoredChunk) :
  1 <= k ->
  similarity_search_with_score sv query (k * 3) = inr batch ->
  exists r,
    smart_document_search sv query k "multi_doc" tr
    = (inr r, tr ++ [SimilaritySearchWithScore query (k * 3)]) /\
    Permutation (ranked_sources batch) (distinct_sources batch) /\
    StronglySorted (fun a b => (min_score batch a <= min_score batch b)%Q)
      (ranked_sources batch) /\
    (forall s, In s (distinct_sources batch) ->
               is_min_score batch s (min_score batch s)) /\
    sources_used r = Some (firstn 3 (ranked_sources batch)) /\
    chunks r
    = firstn (Z.to_nat k)
        (flat_map (top2 batch) (firstn 3 (ranked_sources batch))) /\
    (forall s,
        Permutation (sort_by snd (group_of batch s)) (group_of batch s) /\
        StronglySorted (fun a b => (snd a <= snd b)%Q)
          (sort_by snd (group_of batch s)) /\
        top2 batch s = map fst (firstn 2 (sort_by snd (group_of batch s))) /\
        (List.length (top2 batch s) <= 2)%nat /\
        forall d, In d (top2 batch s) -> get_source_or_unknown d = s) /\
    (List.length (firstn 3 (ranked_sources batch)) <= 3)%nat /\
    Z.of_nat (List.length (chunks r)) <= k /\
    strategy_used r = "multi_doc".
Proof.
  intros Hk Hsearch. eexists. split.
  { rewrite (@smart_document_search_multi_doc_result sv query k tr batch)
      by assumption. reflexivity. }
  cbn [chunks sources_used strategy_used].
  rewrite slice_to_nonneg by lia.
  split; [apply sort_by_perm|].
  split; [apply sort_by_sorted|].
  split; [intros s Hs; now apply min_score_spec|].
  split; [reflexivity|]. split; [reflexivity|]. split.
  { intros s. split; [apply sort_by_perm|].
    split; [apply (sort_by_sorted snd)|].
    split; [reflexivity|]. split; [apply top2_length|].
    intros d. apply top2_source. }
  split; [apply firstn_le_length|]. split; [|reflexivity].
  match goal with
  | |- Z.of_nat (List.length (firstn ?n ?l)) <= _ =>
      pose proof (firstn_le_length n l)
  end. lia.
Qed.

Lemma multi_doc_retrieval_witness :
  exists r,
    smart_document_search (Examples.store Examples.batch_four) "q" 2
      "multi_doc" []
    = (inr r, [SimilaritySearchWithScore "q" 6]) /\
    sources_used r = Some (firstn 3 (ranked_sources Examples.batch_four)) /\
    Z.of_nat (List.length (chunks r)) <= 2.
Proof.
  destruct (@multi_doc_retrieval (Examples.store Examples.batch_four) "q" 2
              [] Examples.batch_four)
    as (r & H1 & _ & _ & _ & H5 & _ & _ & _ & H9 & _).
  - lia.
  - reflexivity.
  - exists r. repeat split; assumption.
Defined.

(** Four distinct sources: three are used, two chunks at most from
    each, two chunks after the cut to [k = 2]. *)
Example multi_doc_four_sources :
  fst (smart_document_search (Examples.store Examples.batch_four) "q" 2
         "multi_doc" [])
  = inr {| chunks := [Examples.doc "c1" "C.pdf"; Examples.doc "a1" "A.pdf"];
           primary_source := None;
           sources_used := Some ["C.pdf"; "A.pdf"; "D.pdf"];
           strategy_used := "multi_doc";
           document_scores := None |}.
Proof. reflexivity. Qed.

(** C10.  For "multi_doc", [sources_used] is fixed before the chunk list
    is cut to [k]: whatever [k] is, it is the first [min 3 n] sources in
    ascending order of least score, [n] being the number of distinct
    sources of the batch.  With [k = 1] and two sources in the batch,
    [sources_used] names a source of which no chunk is returned. *)
Theorem multi_doc_sources_used_ignores_limit :
  (forall (sv : Services) (query : string) (k : Z) (tr : log)
          (batch : list ScoredChunk),
      similarity_search_with_score sv query (k * 3) = inr batch ->
      exists r,
        fst (smart_document_search sv query k "multi_doc" tr) = inr r /\
        sources_used r = Some (firstn 3 (ranked_sources batch)) /\
        List.length (firstn 3 (ranked_sources batch))
        = Nat.min 3 (List.length (distinct_sources batch)) /\
        Permutation (ranked_sources batch) (distinct_sources batch) /\
        StronglySorted
          (fun a b => (min_score batch a <= min_score batch b)%Q)
          (ranked_sources batch)) /\
  (exists r,
      fst (smart_document_search (Examples.store Examples.batch_two) "q" 1
             "multi_doc" []) = inr r /\
      sources_used r = Some ["A.pdf"; "B.pdf"] /\
      chunks r = [Examples.doc "a1" "A.pdf"] /\
      forall d, In d (chunks r) -> get_source_or_unknown d <> "B.pdf").
Proof.
  split.
  - intros sv query k tr batch Hsearch. eexists. split.
    { rewrite (@smart_document_search_multi_doc_result sv query k tr batch)
        by assumption. reflexivity. }
    cbn [sources_used]. split; [reflexivity|]. split.
    { rewrite length_firstn. unfold ranked_sources.
      now rewrite sort_by_length. }
    split; [apply sort_by_perm | apply sort_by_sorted].
  - eexists. split; [reflexivity|]. cbn [sources_used chunks].
    split; [reflexivity|]. split; [reflexivity|].
    intros d [<-|[]]. discriminate.
Qed.

Lemma multi_doc_sources_used_ignores_limit_witness :
  exists r,
    fst (smart_document_search (Examples.store Examples.batch_two) "q" 1
           "multi_doc" []) = inr r /\
    sources_used r = Some (firstn 3 (ranked_sources Examples.batch_two)).
Proof.
  destruct (proj1 multi_doc_sources_used_ignores_limit
              (Examples.store Examples.batch_two) "q" 1 []
              Examples.batch_two eq_refl)
    as (r & H1 & H2 & _).
  exists r. split; assumption.
Defined.

(** C3.  What each strategy does when the search returns no chunk:
    "multi_doc" returns an empty chunk list (with [sources_used] set to
    the empty list), but "best_match" raises [ValueError] and
    "single_source", like every unknown strategy name, raises
    [IndexError]. *)
Theorem empty_search_result (sv : Services) (query : string) (k : Z)
  (tr : log) :
  similarity_search sv query k = inr [] ->
  similarity_search_with_score sv query (k * 5) = inr [] ->
  similarity_search_with_score sv query (k * 3) = inr [] ->
  smart_document_search sv query k "best_match" tr
  = (inl (ValueError "min() arg is an empty sequence"),
     tr ++ [SimilaritySearchWithScore query (k * 5)]) /\
  smart_document_search sv query k "multi_doc" tr
  = (inr {| chunks := slice_to k [];
            primary_source := None;
            sources_used := Some [];
            strategy_used := "multi_doc";
            document_scores := None |},
     tr ++ [SimilaritySearchWithScore query (k * 3)]) /\
  slice_to k (@nil Document) = [] /\
  forall strategy, strategy <> "best_match" -> strategy <> "multi_doc" ->
    smart_document_search sv query k strategy tr
    = (inl (IndexError "list index out of range"),
       tr ++ [SimilaritySearch query k]).
Proof.
  intros H1 H5 H3. split.
  { now rewrite smart_document_search_best_match, H5. }
  split.
  { now rewrite smart_document_search_multi_doc, H3. }
  split.
  { unfold slice_to. destruct (0 <=? k); apply firstn_nil. }
  intros strategy Hb Hm.
  now rewrite smart_document_search_fallback, H1.
Qed.

Lemma empty_search_result_witness :
  smart_document_search Examples.empty_store "q" 3 "best_match" []
  = (inl (ValueError "min() arg is an empty sequence"),
     [SimilaritySearchWithScore "q" 15]) /\
  smart_document_search Examples.empty_store "q" 3 "single_source" []
  = (inl (IndexError "list index out of range"), [SimilaritySearch "q" 3]).
Proof.
  destruct (@empty_search_result Examples.empty_store "q" 3 []
              eq_refl eq_refl eq_refl) as (Hb & _ & _ & Hs).
  split; [exact Hb|]. apply Hs; discriminate.
Defined.

(** C4.  Strategy "single_source" on a non-empty search result: the one
    external call is the search for exactly [k] chunks; [primary_source]
    is a source with the highest number of occurrences among them, and
    every source first met before it occurs strictly less often; the
    chunks returned are exactly the fetched chunks of that source, in
    their order. *)
Theorem single_source_retrieval (sv : Services) (query : string) (k : Z)
  (tr : log) (docs : list Document) :
  similarity_search sv query k = inr docs ->
  docs <> [] ->
  exists r p,
    smart_document_search sv query k "single_source" tr
    = (inr r, tr ++ [SimilaritySearch query k]) /\
    primary_source r = Some p /\
    In p (map get_source docs) /\
    (forall s, occurrences s (map get_source docs)
               <= occurrences p (map get_source docs)) /\
    (exists before after,
        first_seen [] (map get_source docs) = before ++ p :: after /\
        forall s, In s before ->
                  occurrences s (map get_source docs)
                  < occurrences p (map get_source docs)) /\
    chunks r = filter (fun d => option_string_eqb (get_source d) p) docs /\
    (forall d, In d (chunks r) <-> In d docs /\ get_source d = p) /\
    strategy_used r = "single_source".
Proof.
  intros Hsearch Hne.
  destruct (single_source_spec Hne) as (p & Hres & Hin & Hmax & Htie).
  eexists. exists p. split.
  { rewrite smart_document_search_fallback by discriminate.
    rewrite Hsearch. cbn [rbind]. rewrite Hres. reflexivity. }
  cbn [primary_source chunks strategy_used].
  repeat (split; [first [reflexivity | assumption]|]).
  split; [|reflexivity].
  intros d. unfold filter_by_source. rewrite filter_In.
  now rewrite (key_eqb_eq (get_source d) p).
Qed.

Lemma single_source_retrieval_witness :
  exists r p,
    smart_document_search (Examples.store Examples.batch_votes) "q" 5
      "single_source" []
    = (inr r, [SimilaritySearch "q" 5]) /\
    primary_source r = Some p /\
    forall s, occurrences s (map get_source (map fst Examples.batch_votes))
              <= occurrences p (map get_source (map fst Examples.batch_votes)).
Proof.
  destruct (@single_source_retrieval (Examples.store Examples.batch_votes)
              "q" 5 [] (map fst Examples.batch_votes))
    as (r & p & H1 & H2 & _ & H4 & _).
  - reflexivity.
  - discriminate.
  - exists r, p. repeat split; assumption.
Defined.

(** Sources {A:3, B:2}, B met first: [primary_source] is A and every
    chunk returned is a chunk of A. *)
Example single_source_three_two :
  fst (smart_document_search (Examples.store Examples.batch_votes) "q" 5
         "single_source" [])
  = inr {| chunks := [Examples.doc "a1" "A.pdf"; Examples.doc "a2" "A.pdf";
                      Examples.doc "a3" "A.pdf"];
           primary_source := Some (Some "A.pdf");
           sources_used := None;
           strategy_used := "single_source";
           document_scores := None |}.
Proof. reflexivity. Qed.

(** X28.  A strategy name other than "best_match" and "multi_doc"
    gives exactly what "single_source" gives on the same input and log:
    the same result, or the same exception.  It gives a result, with
    [strategy_used] "single_source", whenever the search returns at least
    one chunk. *)
Theorem unknown_strategy_falls_back (sv : Services) (query : string)
  (k : Z) (strategy : string) (tr : log) :
  strategy <> "best_match" ->
  strategy <> "multi_doc" ->
  smart_document_search sv query k strategy tr
  = smart_document_search sv query k "single_source" tr /\
  forall docs,
    similarity_search sv query k = inr docs -> docs <> [] ->
    exists r,
      fst (smart_document_search sv query k strategy tr) = inr r /\
      strategy_used r = "single_source".
Proof.
  intros Hb Hm. split.
  { rewrite !smart_document_search_fallback by (assumption || discriminate).
    reflexivity. }
  intros docs Hsearch Hne.
  destruct (single_source_spec Hne) as (p & Hres & _).
  rewrite smart_document_search_fallback by assumption.
  rewrite Hsearch. cbn [rbind fst]. rewrite Hres.
  eexists. split; reflexivity.
Qed.

Lemma unknown_strategy_falls_back_witness :
  smart_document_search (Examples.store Examples.batch_votes) "q" 5
    "semantic" []
  = smart_document_search (Examples.store Examples.batch_votes) "q" 5
      "single_source" [].
Proof.
  apply (@unknown_strategy_falls_back (Examples.store Examples.batch_votes)
           "q" 5 "semantic" []); discriminate.
Defined.

(** C5.  An unknown strategy name against a collection for which the
    search returns no chunk: the fallback takes the first of no
    [most_common] entry and raises [IndexError], so the request ends in an
    error and no result is returned.  The one external call made is the
    search. *)
Lemma unknown_strategy_empty_result_raises :
  "semantic" <> "best_match" /\ "semantic" <> "multi_doc" /\
  smart_document_search Examples.empty_store "q" 3 "semantic" []
  = (inl (IndexError "list index out of range"), [SimilaritySearch "q" 3]) /\
  ~ (exists r,
        fst (smart_document_search Examples.empty_store "q" 3 "semantic" [])
        = inr r).
Proof.
  split; [discriminate|]. split; [discriminate|]. split; [reflexivity|].
  intros (r & Hr). cbn in Hr. discriminate.
Qed.

(** * Answer synthesis *)

Lemma join_cons (sep x y : string) (l : list string) :
  join sep (x :: y :: l) = (x ++ sep ++ join sep (y :: l))%string.
Proof. reflexivity. Qed.

Lemma join_concat (sep : string) (l : list string) :
  join sep l = String.concat sep l.
Proof.
  induction l as [|x [|y l] IH]; [reflexivity | reflexivity |].
  rewrite join_cons, IH. reflexivity.
Qed.

(** C7.  [ask_azure_openai] never raises.  Its context is the contents of
    the chunks in the order given, joined by a blank line; its one
    external call is the completion request carrying that context and the
    question; it returns the text of the completion, or, when that call
    fails with [e], the string "Error generating response: " followed by
    the text of [e], as if it were the answer. *)
Theorem ask_azure_openai_never_raises (sv : Services) (query : string)
  (context_chunks : list Document) (tr : log) :
  let context :=
    String.concat (nl ++ nl) (map page_content context_chunks) in
  let prompt :=
    ("Context:" ++ nl ++ context ++ nl ++ nl ++ "Question: " ++ query
     ++ nl ++ nl ++ "Answer:")%string in
  ask_azure_openai sv query context_chunks tr
  = (inr match chat_completions_create sv system_prompt prompt with
         | inr text => text
         | inl e => ("Error generating response: " ++ str e)%string
         end,
     tr ++ [ChatCompletion system_prompt prompt]).
Proof.
  cbv zeta. unfold ask_azure_openai, try_except, call, ret, user_prompt.
  rewrite join_concat.
  now destruct (chat_completions_create sv system_prompt _).
Qed.

(** * Video identifiers *)

Lemma is_youtube_host_iff (h : option string) :
  is_youtube_host h = true
  <-> h = Some "www.youtube.com" \/ h = Some "youtube.com".
Proof.
  destruct h as [h|]; cbn [is_youtube_host].
  - rewrite orb_true_iff, !String.eqb_eq.
    split; (intros [E|E]; [left | right]; congruence).
  - split; [discriminate | intros [E|E]; discriminate].
Qed.

Lemma is_short_host_iff (h : option string) :
  is_short_host h = true <-> h = Some "youtu.be".
Proof.
  destruct h as [h|]; cbn [is_short_host].
  - rewrite String.eqb_eq. split; congruence.
  - split; discriminate.
Qed.

(** C8.  [extract_video_id] is a function of the URL (and of the URL
    library).  When the host is www.youtube.com or youtube.com it returns
    the first value of the query parameter [v], and fails when there is
    none; when the host is youtu.be it returns the path without its
    leading slash; for any other host, and when the URL does not parse, it
    fails with [ValueError] "Could not extract video ID from URL: ...".
    With CPython's [urllib.parse], https://www.youtube.com/watch?v=XYZ and
    https://youtu.be/XYZ both give "XYZ", and a URL of another site
    fails. *)
Theorem extract_video_id_spec :
  (forall (lib : UrlLib) (url : string) (p : ParseResult),
      urlparse lib url = inr p ->
      let invalid : result string :=
        inl (ValueError ("Could not extract video ID from URL: " ++ url)) in
      ((hostname p = Some "www.youtube.com" \/ hostname p = Some "youtube.com") ->
       forall v others,
         Dict.get "v" (parse_qs lib (query_string p)) = Some (v :: others) ->
         extract_video_id lib url = inr v) /\
      ((hostname p = Some "www.youtube.com" \/ hostname p = Some "youtube.com") ->
       Dict.get "v" (parse_qs lib (query_string p)) = None ->
       extract_video_id lib url = invalid) /\
      (hostname p = Some "youtu.be" ->
       extract_video_id lib url = inr (drop_first (path p))) /\
      (hostname p <> Some "www.youtube.com" ->
       hostname p <> Some "youtube.com" ->
       hostname p <> Some "youtu.be" ->
       extract_video_id lib url = invalid)) /\
  (forall (lib : UrlLib) (url : string) (e : exn),
      urlparse lib url = inl e ->
      extract_video_id lib url
      = inl (ValueError ("Could not extract video ID from URL: " ++ url))) /\
  extract_video_id UrlModel.lib "https://www.youtube.com/watch?v=XYZ"
  = inr "XYZ" /\
  extract_video_id UrlModel.lib "https://youtube.com/watch?v=XYZ"
  = inr "XYZ" /\
  extract_video_id UrlModel.lib "https://youtu.be/XYZ" = inr "XYZ" /\
  extract_video_id UrlModel.lib "https://vimeo.com/watch?v=XYZ"
  = inl (ValueError
           "Could not extract video ID from URL: https://vimeo.com/watch?v=XYZ").
Proof.
  split; [|split; [|repeat split; reflexivity]].
  - intros lib url p Hparse invalid.
    unfold extract_video_id, extract_video_id_body. rewrite Hparse.
    cbn [rbind]. repeat split.
    + intros Hhost v others Hv. apply is_youtube_host_iff in Hhost.
      rewrite Hhost. unfold Dict.mem, getitem. rewrite Hv. reflexivity.
    + intros Hhost Hv. apply is_youtube_host_iff in Hhost.
      rewrite Hhost. unfold Dict.mem. rewrite Hv. reflexivity.
    + intros Hhost. rewrite Hhost. reflexivity.
    + intros H1 H2 H3.
      destruct (is_youtube_host (hostname p)) eqn:Ey.
      { apply is_youtube_host_iff in Ey. tauto. }
      destruct (is_short_host (hostname p)) eqn:Es.
      { apply is_short_host_iff in Es. contradiction. }
      reflexivity.
  - intros lib url e Hparse.
    unfold extract_video_id, extract_video_id_body. now rewrite Hparse.
Qed.

Lemma extract_video_id_spec_witness :
  exists p,
    urlparse UrlModel.lib "https://youtu.be/XYZ" = inr p /\
    hostname p = Some "youtu.be" /\
    extract_video_id UrlModel.lib "https://youtu.be/XYZ"
    = inr (drop_first (path p)).
Proof.
  eexists. split; [reflexivity|]. split; [reflexivity|].
  refine (proj1 (proj2 (proj2 (proj1 extract_video_id_spec
            UrlModel.lib "https://youtu.be/XYZ" _ eq_refl))) eq_refl).
Defined.

(** * Endpoints *)

Lemma get_available_documents_never_raises (sv : Services) (tr : log) :
  get_available_documents sv tr
  = (inr match similarity_search sv "" 1000 with
         | inr all_docs => sorted_set (truthy_sources all_docs)
         | inl _ => []
         end,
     tr ++ [SimilaritySearch "" 1000]).
Proof.
  unfold get_available_documents, try_except, bind, call, ret.
  now destruct (similarity_search sv "" 1000).
Qed.

(** C9.  When the search that enumerates the sources fails,
    [list_documents] does not fail: it answers with the empty listing,
    [{documents: [], count: 0}]. *)
Theorem list_documents_hides_search_failure (sv : Services) (e : exn)
  (tr : log) :
  similarity_search sv "" 1000 = inl e ->
  list_documents sv tr
  = (inr {| documents := []; count := 0 |},
     tr ++ [SimilaritySearch "" 1000]).
Proof.
  intros Hfail. unfold list_documents, try_except, bind.
  rewrite get_available_documents_never_raises, Hfail. reflexivity.
Qed.

Lemma list_documents_hides_search_failure_witness :
  list_documents Examples.unreachable_store []
  = (inr {| documents := []; count := 0 |}, [SimilaritySearch "" 1000]).
Proof.
  apply (@list_documents_hides_search_failure Examples.unreachable_store
           (ServiceError "connection refused") []).
  reflexivity.
Defined.

(** X14.  The part of the content-type gate that the endpoint does
    have: when no listed source has the requested type, it answers "no
    content" and neither retrieval nor synthesis is called. *)
Lemma smart_query_all_no_content (sv : Services)
  (request : SmartVideoQueryRequest) (tr : log) (all_docs : list Document) :
  similarity_search sv "" 1000 = inr all_docs ->
  filter_by_content_type (req_content_type request)
    (sorted_set (truthy_sources all_docs)) = [] ->
  smart_query_all_content sv request tr
  = (inr (plain_response
            ("No " ++ req_content_type request
             ++ " content found in the database.") request),
     tr ++ [SimilaritySearch "" 1000]).
Proof.
  intros Hlist Hempty. unfold smart_query_all_content, try_except, bind.
  rewrite get_available_documents_never_raises, Hlist, Hempty.
  reflexivity.
Qed.

(** C6.  A request for "pdf" content against a store that holds a PDF
    and a video whose chunk ranks first: the content-type filter only
    decides whether the listing is empty; retrieval then runs over the
    whole store, and the answer is built from the video's chunk
    ([primary_source] is the video, [source_type] is "video"). *)
Theorem smart_query_all_ignores_content_type :
  filter_by_content_type "pdf" ["handbook.pdf"; "video_abc.txt"]
  = ["handbook.pdf"] /\
  smart_query_all_content (Examples.store Examples.batch_mixed)
    Examples.pdf_request []
  = (inr {| resp_answer := "An answer.";
            resp_strategy_used := "best_match";
            resp_chunks_used := Some 1;
            resp_content_type := "pdf";
            resp_primary_source := Some "video_abc.txt";
            resp_source_type := Some "video";
            resp_sources_used := None;
            resp_source_scores :=
              Some [("video_abc.txt", np_mean [1 # 10]);
                    ("handbook.pdf", np_mean [5 # 10])]%Q |},
     [SimilaritySearch "" 1000;
      SimilaritySearchWithScore "What is the leave policy?" 15;
      ChatCompletion system_prompt
        (user_prompt "v1" "What is the leave policy?")]).
Proof. split; reflexivity. Qed.

(** * Further properties of [app/qdrant_utils.py] *)

Lemma slice_to_In {A} (k : Z) (l : list A) (x : A) :
  In x (slice_to k l) -> In x l.
Proof. unfold slice_to. destruct (0 <=? k); apply firstn_In. Qed.

Lemma slice_to_length {A} (k : Z) (l : list A) :
  0 <= k -> Z.of_nat (List.length (slice_to k l)) <= k.
Proof.
  intros Hk. rewrite slice_to_nonneg by assumption.
  pose proof (firstn_le_length (Z.to_nat k) l). lia.
Qed.

Lemma slice_to_all {A} (k : Z) (l : list A) :
  Z.of_nat (List.length l) <= k -> slice_to k l = l.
Proof.
  intros Hk. rewrite slice_to_nonneg by lia. apply firstn_all2. lia.
Qed.

(** X1.  [search_specific_document] asks the store for [k * 10] chunks
    and keeps, in their order, the first [k] of those whose source is the
    document asked for: every chunk returned comes from the search result
    and from that document, and there are at most [k] of them. *)
Theorem search_specific_document_spec (sv : Services) (query name : string)
  (k : Z) (tr : log) (docs : list Document) :
  0 <= k ->
  similarity_search sv query (k * 10) = inr docs ->
  exists found,
    search_specific_document sv query name k tr
    = (inr found, tr ++ [SimilaritySearch query (k * 10)]) /\
    found
    = firstn (Z.to_nat k)
        (filter (fun d => option_string_eqb (get_source d) (Some name)) docs) /\
    (forall d, In d found -> In d docs /\ get_source d = Some name) /\
    Z.of_nat (List.length found) <= k.
Proof.
  intros Hk Hsearch. eexists. split.
  { unfold search_specific_document, bind, call, ret. rewrite Hsearch.
    reflexivity. }
  split; [now rewrite slice_to_nonneg|]. split.
  - intros d Hd. apply slice_to_In, filter_In in Hd.
    destruct Hd as (Hin & Heq). split; [assumption|].
    now apply (key_eqb_eq (get_source d) (Some name)).
  - now apply slice_to_length.
Qed.

Lemma search_specific_document_spec_witness :
  exists found,
    search_specific_document (Examples.store Examples.batch_four) "q"
      "A.pdf" 2 []
    = (inr found, [SimilaritySearch "q" 20]) /\
    Z.of_nat (List.length found) <= 2.
Proof.
  destruct (@search_specific_document_spec
              (Examples.store Examples.batch_four) "q" "A.pdf" 2 []
              (map fst Examples.batch_four))
    as (found & H1 & _ & _ & H4).
  - lia.
  - reflexivity.
  - exists found. split; assumption.
Defined.

(** X2.  On one search result, [search_videos_only] and
    [search_pdfs_only] split the chunks by the prefix "video_" of their
    source: a chunk returned by one is never returned by the other, a
    chunk without source metadata is never a video, and when the search
    returned at most [k] chunks every one of them is returned by exactly
    one of the two. *)
Theorem video_pdf_searches_split (sv : Services) (query : string) (k : Z)
  (tr : log) (docs : list Document) :
  similarity_search sv query (k * 10) = inr docs ->
  exists vs ps,
    search_videos_only sv query k tr
    = (inr vs, tr ++ [SimilaritySearch query (k * 10)]) /\
    search_pdfs_only sv query k tr
    = (inr ps, tr ++ [SimilaritySearch query (k * 10)]) /\
    (forall d, In d vs ->
               In d docs /\ exists s, metadata_source d = Some s /\
                                      startswith s "video_" = true) /\
    (forall d, In d ps ->
               In d docs /\ forall s, metadata_source d = Some s ->
                                      startswith s "video_" = false) /\
    (forall d, In d vs -> ~ In d ps) /\
    (Z.of_nat (List.length docs) <= k ->
     forall d, In d docs -> In d vs \/ In d ps).
Proof.
  intros Hsearch. eexists. eexists. split.
  { unfold search_videos_only, bind, call, ret. rewrite Hsearch.
    reflexivity. }
  split.
  { unfold search_pdfs_only, bind, call, ret. rewrite Hsearch.
    reflexivity. }
  assert (Hv : forall d,
             In d (slice_to k (filter (fun doc =>
                      startswith (get_source_or_empty doc) "video_") docs)) ->
             In d docs /\ startswith (get_source_or_empty d) "video_" = true).
  { intros d Hd. now apply slice_to_In, filter_In in Hd. }
  assert (Hp : forall d,
             In d (slice_to k (filter (fun doc =>
                      negb (startswith (get_source_or_empty doc) "video_"))
                      docs)) ->
             In d docs /\ startswith (get_source_or_empty d) "video_" = false).
  { intros d Hd. apply slice_to_In, filter_In in Hd.
    now rewrite negb_true_iff in Hd. }
  split.
  { intros d Hd. destruct (Hv d Hd) as (Hin & Hs). split; [assumption|].
    unfold get_source_or_empty in Hs.
    destruct (metadata_source d) as [s|]; [now exists s | discriminate]. }
  split.
  { intros d Hd. destruct (Hp d Hd) as (Hin & Hs). split; [assumption|].
    intros s Hsrc. unfold get_source_or_empty in Hs. now rewrite Hsrc in Hs. }
  split.
  { intros d Hd Hd'. destruct (Hv d Hd) as (_ & E1).
    destruct (Hp d Hd') as (_ & E2). congruence. }
  intros Hlen d Hd.
  assert (Hf : forall f : Document -> bool,
             slice_to k (filter f docs) = filter f docs).
  { intros f. apply slice_to_all.
    pose proof (filter_length_le f docs). lia. }
  rewrite !Hf, !filter_In.
  destruct (startswith (get_source_or_empty d) "video_"); cbn; tauto.
Qed.

Lemma video_pdf_searches_split_witness :
  exists vs ps,
    search_videos_only (Examples.store Examples.batch_mixed) "q" 3 []
    = (inr vs, [SimilaritySearch "q" 30]) /\
    search_pdfs_only (Examples.store Examples.batch_mixed) "q" 3 []
    = (inr ps, [SimilaritySearch "q" 30]) /\
    forall d, In d vs -> ~ In d ps.
Proof.
  destruct (@video_pdf_searches_split (Examples.store Examples.batch_mixed)
              "q" 3 [] (map fst Examples.batch_mixed) eq_refl)
    as (vs & ps & H1 & H2 & _ & _ & H5 & _).
  exists vs, ps. repeat split; assumption.
Defined.

(** ** The listing of sources *)

Definition string_lt (a b : string) : Prop := String.compare a b = Lt.

Lemma ascii_compare_lt_trans (a b c : ascii) :
  Ascii.compare a b = Lt -> Ascii.compare b c = Lt -> Ascii.compare a c = Lt.
Proof.
  unfold Ascii.compare. rewrite !N.compare_lt_iff. apply N.lt_trans.
Qed.

Lemma string_compare_refl (s : string) : String.compare s s = Eq.
Proof.
  pose proof (String.compare_antisym s s) as H.
  destruct (String.compare s s); [reflexivity | discriminate | discriminate].
Qed.

Lemma string_lt_trans (a b c : string) :
  string_lt a b -> string_lt b c -> string_lt a c.
Proof.
  unfold string_lt. revert b c.
  induction a as [|x a IH]; intros [|y b] [|z c]; cbn;
    try discriminate; try reflexivity.
  destruct (Ascii.compare x y) eqn:Exy; try discriminate;
    destruct (Ascii.compare y z) eqn:Eyz; try discriminate; intros H1 H2.
  - apply Ascii.compare_eq_iff in Exy, Eyz. subst.
    rewrite (proj2 (N.compare_eq_iff _ _) eq_refl : Ascii.compare z z = Eq).
    now apply (IH b).
  - apply Ascii.compare_eq_iff in Exy. subst. now rewrite Eyz.
  - apply Ascii.compare_eq_iff in Eyz. subst. now rewrite Exy.
  - now rewrite (@ascii_compare_lt_trans x y z Exy Eyz).
Qed.

Lemma string_lt_irrefl (a : string) : ~ string_lt a a.
Proof. unfold string_lt. now rewrite string_compare_refl. Qed.

Lemma insert_unique_In (x y : string) (l : list string) :
  In y (insert_unique x l) <-> y = x \/ In y l.
Proof.
  induction l as [|z l IH]; cbn [insert_unique].
  - cbn. intuition.
  - destruct (String.compare x z) eqn:E; cbn [In].
    + apply String.compare_eq_iff in E. subst z. intuition.
    + intuition.
    + rewrite IH. intuition.
Qed.

Lemma insert_unique_sorted (x : string) (l : list string) :
  StronglySorted string_lt l -> StronglySorted string_lt (insert_unique x l).
Proof.
  induction 1 as [|z l Hs IH Hall]; cbn [insert_unique].
  - repeat constructor.
  - destruct (String.compare x z) eqn:E.
    + now constructor.
    + constructor; [now constructor|].
      constructor; [exact E|].
      eapply Forall_impl; [|exact Hall].
      intros w Hw. now apply (@string_lt_trans x z w).
    + constructor; [exact IH|].
      apply Forall_forall. intros w Hw. apply insert_unique_In in Hw.
      destruct Hw as [->|Hw].
      * unfold string_lt. rewrite String.compare_antisym, E. reflexivity.
      * rewrite Forall_forall in Hall. now apply Hall.
Qed.

Lemma sorted_set_In (s : string) (l : list string) :
  In s (sorted_set l) <-> In s l.
Proof.
  induction l as [|x l IH]; cbn; [tauto|].
  fold (sorted_set l). rewrite insert_unique_In, IH. intuition.
Qed.

Lemma sorted_set_sorted (l : list string) :
  StronglySorted string_lt (sorted_set l).
Proof.
  induction l as [|x l IH]; cbn; [constructor|].
  now apply insert_unique_sorted.
Qed.

Lemma strictly_sorted_NoDup (l : list string) :
  StronglySorted string_lt l -> NoDup l.
Proof.
  induction 1 as [|x l Hs IH Hall]; constructor; [|assumption].
  intros Hin. rewrite Forall_forall in Hall.
  exact (@string_lt_irrefl x (Hall x Hin)).
Qed.

Lemma truthy_sources_In (s : string) (all_docs : list Document) :
  In s (truthy_sources all_docs)
  <-> s <> "" /\ exists d, In d all_docs /\ metadata_source d = Some s.
Proof.
  unfold truthy_sources, get_source. rewrite in_flat_map. split.
  - intros (d & Hd & Hs). destruct (metadata_source d) as [s'|] eqn:E;
      [|contradiction].
    destruct (String.eqb_spec s' ""); [contradiction|].
    destruct Hs as [->|[]]. split; [assumption|]. now exists d.
  - intros (Hne & d & Hd & E). exists d. split; [assumption|]. rewrite E.
    destruct (String.eqb_spec s ""); [contradiction | now left].
Qed.

(** X3.  [get_available_documents] never raises and makes one search,
    for the empty query with limit 1000.  Its listing is in strictly
    ascending order (so without duplicates) and never holds the empty
    string; when the search succeeds it holds exactly the non-empty
    sources of the chunks returned, and when the search fails it is
    empty. *)
Theorem get_available_documents_listing (sv : Services) (tr : log) :
  exists listing,
    get_available_documents sv tr
    = (inr listing, tr ++ [SimilaritySearch "" 1000]) /\
    StronglySorted (fun a b => String.compare a b = Lt) listing /\
    NoDup listing /\
    ~ In "" listing /\
    (forall all_docs,
        similarity_search sv "" 1000 = inr all_docs ->
        forall s, In s listing
                  <-> s <> "" /\
                      exists d, In d all_docs /\ metadata_source d = Some s) /\
    (forall e, similarity_search sv "" 1000 = inl e -> listing = []).
Proof.
  rewrite get_available_documents_never_raises.
  eexists. split; [reflexivity|].
  destruct (similarity_search sv "" 1000) as [e|all_docs].
  - split; [constructor|]. split; [constructor|]. split; [tauto|].
    split; [discriminate | reflexivity].
  - split; [apply sorted_set_sorted|].
    split; [apply strictly_sorted_NoDup, sorted_set_sorted|].
    split.
    { rewrite sorted_set_In, truthy_sources_In. tauto. }
    split; [|discriminate].
    intros docs' [= <-] s. now rewrite sorted_set_In, truthy_sources_In.
Qed.

Lemma filter_partition_length {A} (f : A -> bool) (l : list A) :
  (List.length (filter f l) + List.length (filter (fun x => negb (f x)) l)
   = List.length l)%nat.
Proof.
  induction l as [|x l IH]; [reflexivity|]. cbn [filter].
  destruct (f x); cbn [negb List.length]; lia.
Qed.

(** X4.  [get_content_type_summary] never raises and never sets the key
    "error", even when the store is unreachable; [GET /content-summary/]
    therefore never answers with a failure.  The sources of the two
    blocks are those of the listing that start with "video_" and those
    that do not, and the two counts add up to [total_documents]. *)
Theorem content_summary_counts (sv : Services) (tr : log) :
  exists summary listing,
    get_available_documents sv tr
    = (inr listing, tr ++ [SimilaritySearch "" 1000]) /\
    get_content_type_summary sv tr
    = (inr summary, tr ++ [SimilaritySearch "" 1000]) /\
    get_content_summary sv tr
    = (inr summary, tr ++ [SimilaritySearch "" 1000]) /\
    summary_error summary = None /\
    total_documents summary = Z.of_nat (List.length listing) /\
    total_documents summary
    = type_count (summary_videos summary)
      + type_count (summary_pdfs summary) /\
    type_count (summary_videos summary)
    = Z.of_nat (List.length (type_sources (summary_videos summary))) /\
    type_count (summary_pdfs summary)
    = Z.of_nat (List.length (type_sources (summary_pdfs summary))) /\
    (forall s, In s (type_sources (summary_videos summary))
               <-> In s listing /\ startswith s "video_" = true) /\
    (forall s, In s (type_sources (summary_pdfs summary))
               <-> In s listing /\ startswith s "video_" = false).
Proof.
  unfold get_content_summary, or_http_500, get_content_type_summary,
    try_except, bind.
  rewrite get_available_documents_never_raises.
  eexists. eexists. split; [reflexivity|]. split; [reflexivity|].
  split; [reflexivity|].
  cbn [summary_error total_documents summary_videos summary_pdfs
       type_count type_sources].
  split; [reflexivity|]. split; [reflexivity|]. split.
  { rewrite <- Nat2Z.inj_add. f_equal. symmetry.
    apply filter_partition_length. }
  split; [reflexivity|]. split; [reflexivity|]. split.
  - intros s. rewrite filter_In. reflexivity.
  - intros s. rewrite filter_In, negb_true_iff. reflexivity.
Qed.

(** * Further properties of the endpoints *)

Lemma ask_azure_openai_total (sv : Services) (query : string)
  (context_chunks : list Document) (tr : log) :
  ask_azure_openai sv query context_chunks tr
  = (inr (answer_text sv query context_chunks),
     tr ++ [completion_call query context_chunks]).
Proof.
  unfold ask_azure_openai, try_except, call, ret, answer_text,
    completion_call.
  now destruct (chat_completions_create sv system_prompt _).
Qed.

Lemma most_common_source_spec (docs : list Document) :
  docs <> [] ->
  exists p,
    most_common_source docs = inr p /\
    In p (map get_source docs) /\
    forall s, occurrences s (map get_source docs)
              <= occurrences p (map get_source docs).
Proof.
  intros Hne.
  destruct (@most_common_spec (option string) _ _ (map get_source docs))
    as (p & Hidx & Hin & Hmax & _).
  { intros E. apply map_eq_nil in E. contradiction. }
  exists p. unfold most_common_source. rewrite Hidx. now repeat split.
Qed.

Lemma filter_by_source_nonempty (p : option string) (docs : list Document) :
  In p (map get_source docs) -> filter_by_source p docs <> [].
Proof.
  intros Hin E. apply in_map_iff in Hin. destruct Hin as (d & Hd & Hin).
  assert (H : In d (filter_by_source p docs)).
  { unfold filter_by_source. apply filter_In. split; [assumption|].
    now apply (key_eqb_eq (get_source d) p). }
  rewrite E in H. contradiction.
Qed.

Lemma filter_by_source_In (p : option string) (docs : list Document)
  (d : Document) :
  In d (filter_by_source p docs) <-> In d docs /\ get_source d = p.
Proof.
  unfold filter_by_source. rewrite filter_In.
  now rewrite (key_eqb_eq (get_source d) p).
Qed.

Lemma qdrant_similarity_search_run (sv : Services) (query : string)
  (k : Z) (tr : log) :
  qdrant_similarity_search sv query k tr
  = (docs <~ similarity_search sv query k ;;
     p <~ most_common_source docs ;;
     inr (filter_by_source p docs),
     tr ++ [SimilaritySearch query k]).
Proof.
  unfold qdrant_similarity_search, bind, call, lift, ret.
  destruct (similarity_search sv query k) as [e|docs]; [reflexivity|].
  cbn [rbind]. now destruct (most_common_source docs).
Qed.

(** X5.  [qdrant_similarity_search] on a non-empty search result returns
    a non-empty list: the fetched chunks of one source [p], in their
    order, where no source occurs more often among the fetched chunks
    than [p]. *)
Theorem qdrant_similarity_search_one_source (sv : Services)
  (query : string) (k : Z) (tr : log) (docs : list Document) :
  similarity_search sv query k = inr docs ->
  docs <> [] ->
  exists found p,
    qdrant_similarity_search sv query k tr
    = (inr found, tr ++ [SimilaritySearch query k]) /\
    found <> [] /\
    (forall d, In d found <-> In d docs /\ get_source d = p) /\
    (forall s, occurrences s (map get_source docs)
               <= occurrences p (map get_source docs)).
Proof.
  intros Hsearch Hne.
  destruct (most_common_source_spec Hne) as (p & Hp & Hin & Hmax).
  exists (filter_by_source p docs), p. split.
  { rewrite qdrant_similarity_search_run, Hsearch. cbn [rbind].
    now rewrite Hp. }
  split; [now apply filter_by_source_nonempty|].
  split; [intros d; apply filter_by_source_In | assumption].
Qed.

Lemma qdrant_similarity_search_one_source_witness :
  exists found,
    qdrant_similarity_search (Examples.store Examples.batch_votes) "q" 5 []
    = (inr found, [SimilaritySearch "q" 5]) /\
    found <> [].
Proof.
  destruct (@qdrant_similarity_search_one_source
              (Examples.store Examples.batch_votes) "q" 5 []
              (map fst Examples.batch_votes) eq_refl)
    as (found & p & H1 & H2 & _).
  - discriminate.
  - exists found. split; assumption.
Defined.

(** X6.  [POST /query/] against a collection for which the search
    returns no chunk fails with status 500 and detail "list index out of
    range", and the completion service is not called.  On a non-empty
    search result it does not fail, whatever the completion service
    does: it makes the search and one completion call. *)
Theorem query_documents_outcomes (sv : Services) (query : string) (k : Z)
  (tr : log) :
  (similarity_search sv query k = inr [] ->
   query_documents sv query k tr
   = (inl (HTTPException 500 "list index out of range"),
      tr ++ [SimilaritySearch query k])) /\
  (forall docs,
      similarity_search sv query k = inr docs -> docs <> [] ->
      exists found,
        (forall d, In d found -> In d docs) /\
        query_documents sv query k tr
        = (inr (answer_text sv query found),
           tr ++ [SimilaritySearch query k; completion_call query found])).
Proof.
  split.
  - intros Hsearch.
    unfold query_documents, or_http_500, try_except, bind.
    rewrite qdrant_similarity_search_run, Hsearch. reflexivity.
  - intros docs Hsearch Hne.
    destruct (most_common_source_spec Hne) as (p & Hp & _).
    exists (filter_by_source p docs). split.
    { intros d Hd. now apply filter_by_source_In in Hd. }
    unfold query_documents, or_http_500, try_except, bind, ret.
    rewrite qdrant_similarity_search_run, Hsearch. cbn [rbind].
    rewrite Hp. cbn [rbind].
    rewrite ask_azure_openai_total, <- app_assoc. reflexivity.
Qed.

Lemma query_documents_outcomes_witness :
  query_documents Examples.empty_store "q" 3 []
  = (inl (HTTPException 500 "list index out of range"),
     [SimilaritySearch "q" 3]).
Proof.
  apply (proj1 (query_documents_outcomes Examples.empty_store "q" 3 [])).
  reflexivity.
Defined.

Lemma search_specific_document_run (sv : Services) (query name : string)
  (k : Z) (tr : log) :
  search_specific_document sv query name k tr
  = (docs <~ similarity_search sv query (k * 10) ;;
     inr (slice_to k
            (filter (fun doc => key_eqb (get_source doc) (Some name)) docs)),
     tr ++ [SimilaritySearch query (k * 10)]).
Proof.
  unfold search_specific_document, bind, call, ret.
  now destruct (similarity_search sv query (k * 10)).
Qed.

Lemma slice_to_nil {A} (k : Z) : slice_to k (@nil A) = [].
Proof. unfold slice_to. destruct (0 <=? k); now rewrite firstn_nil. Qed.

(** X7.  [POST /query-document/]: when none of the [k * 10] chunks
    fetched belongs to the document asked for, the answer is the fixed
    "No relevant information found in document ..." text, without the key
    [chunks_found], and the completion service is not called. *)
Theorem query_specific_document_no_hit (sv : Services)
  (query name : string) (k : Z) (tr : log) (docs : list Document) :
  similarity_search sv query (k * 10) = inr docs ->
  (forall d, In d docs -> get_source d <> Some name) ->
  query_specific_document sv query name k tr
  = (inr {| dq_answer :=
              ("No relevant information found in document '" ++ name
               ++ "' for your query.")%string;
            dq_document_queried := name;
            dq_chunks_found := None |},
     tr ++ [SimilaritySearch query (k * 10)]).
Proof.
  intros Hsearch Hnone.
  assert (Hf : filter (fun doc => key_eqb (get_source doc) (Some name)) docs
               = []).
  { destruct (filter _ docs) as [|d l] eqn:E; [reflexivity|]. exfalso.
    assert (Hd : In d (filter (fun doc => key_eqb (get_source doc)
                                             (Some name)) docs))
      by (rewrite E; now left).
    apply filter_In in Hd. destruct Hd as (Hin & Heq).
    apply (key_eqb_eq (get_source d) (Some name)) in Heq.
    exact (Hnone d Hin Heq). }
  unfold query_specific_document, or_http_500, try_except, bind.
  rewrite search_specific_document_run, Hsearch. cbn [rbind].
  rewrite Hf, slice_to_nil. reflexivity.
Qed.

Lemma query_specific_document_no_hit_witness :
  exists r,
    query_specific_document (Examples.store Examples.batch_ab) "q" "C.pdf"
      3 []
    = (inr r, [SimilaritySearch "q" 30]) /\
    dq_chunks_found r = None.
Proof.
  eexists. split.
  - apply (@query_specific_document_no_hit (Examples.store Examples.batch_ab)
             "q" "C.pdf" 3 [] (map fst Examples.batch_ab) eq_refl).
    intros d Hd. cbn in Hd.
    repeat (destruct Hd as [<-|Hd]; [discriminate|]). contradiction.
  - reflexivity.
Defined.

(** ** [POST /smart-query/] *)

Definition no_info_response (strategy : string) : SmartResponse :=
  {| sq_answer := "No relevant information found for your query.";
     sq_strategy_used := strategy;
     sq_chunks_used := None;
     sq_primary_source := None;
     sq_sources_used := None;
     sq_source_scores := None |}.

Definition full_response (sv : Services) (query : string)
  (search_result : SearchResult) : SmartResponse :=
  {| sq_answer := answer_text sv query (chunks search_result);
     sq_strategy_used := strategy_used search_result;
     sq_chunks_used := Some (Z.of_nat (List.length (chunks search_result)));
     sq_primary_source := primary_source search_result;
     sq_sources_used := sources_used search_result;
     sq_source_scores := document_scores search_result |}.

Lemma smart_query_run (sv : Services) (query : string) (k : Z)
  (strategy : string) (tr : log) :
  smart_query sv query k strategy tr
  = match smart_document_search sv query k strategy tr with
    | (inl e, tr') => (inl (HTTPException 500 (str e)), tr')
    | (inr search_result, tr') =>
        if is_empty (chunks search_result)
        then (inr (no_info_response strategy), tr')
        else (inr (full_response sv query search_result),
              tr' ++ [completion_call query (chunks search_result)])
    end.
Proof.
  unfold smart_query, or_http_500, try_except, bind.
  destruct (smart_document_search sv query k strategy tr)
    as [[e|search_result] tr']; [reflexivity|].
  destruct (is_empty (chunks search_result)); [reflexivity|].
  now rewrite ask_azure_openai_total.
Qed.

(** X8.  [POST /smart-query/] against a collection for which the search
    returns no chunk: with "multi_doc" the answer is "No relevant
    information found for your query.", but with "best_match" the request
    fails with status 500 and detail "min() arg is an empty sequence",
    and with "single_source" or an unknown strategy name with status 500
    and detail "list index out of range".  The completion service is not
    called in any of these cases. *)
Theorem smart_query_empty_collection (sv : Services) (query : string)
  (k : Z) (tr : log) :
  similarity_search sv query k = inr [] ->
  similarity_search_with_score sv query (k * 5) = inr [] ->
  similarity_search_with_score sv query (k * 3) = inr [] ->
  smart_query sv query k "multi_doc" tr
  = (inr (no_info_response "multi_doc"),
     tr ++ [SimilaritySearchWithScore query (k * 3)]) /\
  smart_query sv query k "best_match" tr
  = (inl (HTTPException 500 "min() arg is an empty sequence"),
     tr ++ [SimilaritySearchWithScore query (k * 5)]) /\
  forall strategy, strategy <> "best_match" -> strategy <> "multi_doc" ->
    smart_query sv query k strategy tr
    = (inl (HTTPException 500 "list index out of range"),
       tr ++ [SimilaritySearch query k]).
Proof.
  intros H1 H5 H3. split; [|split].
  - rewrite smart_query_run, smart_document_search_multi_doc, H3.
    cbn [rbind]. rewrite multi_doc_spec.
    change (ranked_sources []) with (@nil string).
    cbn [chunks firstn flat_map]. now rewrite slice_to_nil.
  - now rewrite smart_query_run, smart_document_search_best_match, H5.
  - intros strategy Hb Hm.
    now rewrite smart_query_run, smart_document_search_fallback, H1.
Qed.

Lemma smart_query_empty_collection_witness :
  smart_query Examples.empty_store "q" 3 "multi_doc" []
  = (inr (no_info_response "multi_doc"),
     [SimilaritySearchWithScore "q" 9]) /\
  smart_query Examples.empty_store "q" 3 "best_match" []
  = (inl (HTTPException 500 "min() arg is an empty sequence"),
     [SimilaritySearchWithScore "q" 15]).
Proof.
  destruct (@smart_query_empty_collection Examples.empty_store "q" 3 []
              eq_refl eq_refl eq_refl) as (Hm & Hb & _).
  split; assumption.
Defined.

Lemma firstn_nonempty {A} (n : nat) (l : list A) :
  (1 <= n)%nat -> l <> [] -> firstn n l <> [].
Proof.
  destruct n as [|n]; [lia|]. destruct l as [|x l]; [congruence|].
  discriminate.
Qed.

Lemma is_empty_false {A} (l : list A) : l <> [] -> is_empty l = false.
Proof. destruct l; [congruence | reflexivity]. Qed.

Lemma length_pos {A} (l : list A) :
  l <> [] -> 1 <= Z.of_nat (List.length l).
Proof. destruct l; [congruence|]. cbn [List.length]. lia. Qed.

(** X9.  With a limit [k >= 1] and any strategy other than "multi_doc",
    [POST /smart-query/] never gives the "No relevant information"
    response: whenever it answers, the answer was built from at least one
    chunk and [primary_source] is set; [strategy_used] is "best_match"
    or, for every other name, "single_source". *)
Theorem smart_query_answers_from_chunks (sv : Services) (query : string)
  (k : Z) (strategy : string) (tr : log) (r : SmartResponse) :
  1 <= k ->
  strategy <> "multi_doc" ->
  fst (smart_query sv query k strategy tr) = inr r ->
  exists n p,
    sq_chunks_used r = Some n /\ 1 <= n /\
    sq_primary_source r = Some p /\
    sq_strategy_used r
    = (if (strategy =? "best_match")%string then "best_match"
       else "single_source").
Proof.
  intros Hk Hm. rewrite smart_query_run.
  destruct (String.eqb_spec strategy "best_match") as [->|Hb].
  - rewrite smart_document_search_best_match.
    destruct (similarity_search_with_score sv query (k * 5))
      as [e|batch]; [discriminate|]. cbn [rbind].
    destruct batch as [|item batch']; [discriminate|].
    remember (item :: batch') as batch eqn:Eb.
    assert (Hnb : batch <> []) by (subst; discriminate).
    destruct (@best_match_spec (mean sv) k batch Hnb) as (best & Hmin & ->).
    assert (Hne : slice_to k (map fst (group_of batch best)) <> []).
    { rewrite slice_to_nonneg by lia. apply firstn_nonempty; [lia|].
      intros E. apply map_eq_nil in E. revert E.
      apply group_of_nonempty. exact (first_min_In Hmin). }
    cbn [chunks]. rewrite (is_empty_false Hne). cbn [fst].
    intros [= <-]. cbn [full_response sq_chunks_used sq_primary_source
                        sq_strategy_used chunks primary_source strategy_used].
    eexists. eexists.
    split; [reflexivity|]. split; [now apply length_pos|].
    split; reflexivity.
  - rewrite smart_document_search_fallback by assumption.
    destruct (similarity_search sv query k) as [e|docs]; [discriminate|].
    cbn [rbind]. destruct docs as [|d docs']; [discriminate|].
    remember (d :: docs') as docs eqn:Ed.
    assert (Hnd : docs <> []) by (subst; discriminate).
    destruct (@single_source_spec docs Hnd) as (p & -> & Hin & _).
    pose proof (@filter_by_source_nonempty p docs Hin) as Hne.
    cbn [chunks]. rewrite (is_empty_false Hne). cbn [fst].
    intros [= <-]. cbn [full_response sq_chunks_used sq_primary_source
                        sq_strategy_used chunks primary_source strategy_used].
    eexists. eexists.
    split; [reflexivity|]. split; [now apply length_pos|].
    split; reflexivity.
Qed.

Lemma smart_query_answers_from_chunks_witness :
  exists n p,
    sq_chunks_used
      (full_response (Examples.store Examples.batch_ab) "q"
         {| chunks := [Examples.doc "a1" "A.pdf"; Examples.doc "a2" "A.pdf"];
            primary_source := Some (Some "A.pdf");
            sources_used := None;
            strategy_used := "best_match";
            document_scores :=
              Some [("B.pdf", np_mean [4 # 10; 6 # 10]);
                    ("A.pdf", np_mean [5 # 100; 15 # 100])]%Q |})
    = Some n /\ 1 <= n /\ Some (Some "A.pdf") = Some p.
Proof.
  assert (Hrun :
    fst (smart_query (Examples.store Examples.batch_ab) "q" 2
           "best_match" [])
    = inr (full_response (Examples.store Examples.batch_ab) "q"
             {| chunks := [Examples.doc "a1" "A.pdf";
                           Examples.doc "a2" "A.pdf"];
                primary_source := Some (Some "A.pdf");
                sources_used := None;
                strategy_used := "best_match";
                document_scores :=
                  Some [("B.pdf", np_mean [4 # 10; 6 # 10]);
                        ("A.pdf", np_mean [5 # 100; 15 # 100])]%Q |}))
    by (vm_compute; reflexivity).
  destruct (@smart_query_answers_from_chunks
              (Examples.store Examples.batch_ab) "q" 2 "best_match" [] _
              ltac:(lia) ltac:(discriminate) Hrun)
    as (n & p & H1 & H2 & H3 & _).
  exists n, p. repeat split; assumption.
Defined.

(** ** Where the chunks of "multi_doc" come from *)

Lemma top2_from_batch (batch : list ScoredChunk) (s : string)
  (d : Document) :
  In d (top2 batch s) -> exists score, In (d, score) batch.
Proof.
  unfold top2. rewrite in_map_iff. intros ([d' score] & <- & Hitem).
  apply firstn_In in Hitem.
  apply (Permutation_in _ (sort_by_perm snd (group_of batch s))) in Hitem.
  apply group_of_In in Hitem. now exists score.
Qed.

(** X10.  Strategy "multi_doc" returns a result for every batch and
    every limit, also an empty batch and a limit below 1.  Every chunk it
    returns is a chunk of the batch whose source is listed in
    [sources_used], and every source listed is a source of the batch. *)
Theorem multi_doc_always_returns (sv : Services) (query : string) (k : Z)
  (tr : log) (batch : list ScoredChunk) :
  similarity_search_with_score sv query (k * 3) = inr batch ->
  exists r used,
    smart_document_search sv query k "multi_doc" tr
    = (inr r, tr ++ [SimilaritySearchWithScore query (k * 3)]) /\
    sources_used r = Some used /\
    (forall d, In d (chunks r) ->
               In (get_source_or_unknown d) used /\
               exists score, In (d, score) batch) /\
    (forall s, In s used ->
               exists item, In item batch /\ source_of item = s).
Proof.
  intros Hsearch. eexists. eexists. split.
  { rewrite (@smart_document_search_multi_doc_result sv query k tr batch)
      by assumption. reflexivity. }
  cbn [sources_used chunks]. split; [reflexivity|]. split.
  - intros d Hd. apply slice_to_In, in_flat_map in Hd.
    destruct Hd as (s & Hs & Hd). split.
    + now rewrite (top2_source _ _ _ Hd).
    + exact (top2_from_batch _ _ _ Hd).
  - intros s Hs. apply firstn_In, ranked_sources_In in Hs.
    now apply distinct_sources_In.
Qed.

Lemma multi_doc_always_returns_witness :
  exists r used,
    smart_document_search (Examples.store Examples.batch_four) "q" 0
      "multi_doc" []
    = (inr r, [SimilaritySearchWithScore "q" 0]) /\
    sources_used r = Some used.
Proof.
  destruct (@multi_doc_always_returns (Examples.store Examples.batch_four)
              "q" 0 [] [] eq_refl) as (r & used & H1 & H2 & _).
  exists r, used. split; assumption.
Defined.

(** ** [POST /smart-query-all/] *)

Lemma smart_query_all_run (sv : Services) (request : SmartVideoQueryRequest)
  (tr : log) :
  let listing :=
    match similarity_search sv "" 1000 with
    | inr all_docs => sorted_set (truthy_sources all_docs)
    | inl _ => []
    end in
  let tr1 := tr ++ [SimilaritySearch "" 1000] in
  smart_query_all_content sv request tr
  = if is_empty (filter_by_content_type (req_content_type request) listing)
    then (inr (plain_response
                 ("No " ++ req_content_type request
                  ++ " content found in the database.") request), tr1)
    else
      match smart_document_search sv (req_query request) (req_k request)
              (req_strategy request) tr1 with
      | (inl e, tr2) => (inl (HTTPException 500 (str e)), tr2)
      | (inr search_result, tr2) =>
          if is_empty (chunks search_result)
          then (inr (plain_response
                       ("No relevant information found in "
                        ++ req_content_type request
                        ++ " content for your query.") request), tr2)
          else
            let tr3 :=
              tr2 ++ [completion_call (req_query request)
                        (chunks search_result)] in
            match primary_source_metadata search_result with
            | inl e => (inl (HTTPException 500 (str e)), tr3)
            | inr meta =>
                (inr {| resp_answer :=
                          answer_text sv (req_query request)
                            (chunks search_result);
                        resp_strategy_used := strategy_used search_result;
                        resp_chunks_used :=
                          Some (Z.of_nat
                                  (List.length (chunks search_result)));
                        resp_content_type := req_content_type request;
                        resp_primary_source := fst meta;
                        resp_source_type := snd meta;
                        resp_sources_used := sources_used search_result;
                        resp_source_scores :=
                          document_scores search_result |}, tr3)
            end
      end.
Proof.
  cbv zeta. unfold smart_query_all_content, try_except, bind.
  rewrite get_available_documents_never_raises.
  destruct (is_empty (filter_by_content_type _ _)); [reflexivity|].
  destruct (smart_document_search sv _ _ _ _) as [[e|search_result] tr2];
    [reflexivity|].
  destruct (is_empty (chunks search_result)); [reflexivity|].
  rewrite ask_azure_openai_total. unfold lift, ret.
  now destruct (primary_source_metadata search_result).
Qed.

Lemma filter_by_source_all (p : option string) (docs : list Document) :
  (forall d, In d docs -> get_source d = p) ->
  filter_by_source p docs = docs.
Proof.
  intros Hall. unfold filter_by_source.
  induction docs as [|d docs IH]; [reflexivity|]. cbn [filter].
  rewrite (proj2 (key_eqb_eq (get_source d) p) (Hall d (or_introl eq_refl))).
  f_equal. apply IH. intros d' Hd'. apply Hall. now right.
Qed.

(** X11.  Chunks stored without source metadata: when every chunk the
    search returns lacks the key "source" and the strategy is
    "single_source" (or an unknown name), [POST /smart-query/] answers,
    with [primary_source] null, but [POST /smart-query-all/] fails with
    status 500 and detail "'NoneType' object has no attribute
    'startswith'", after the completion service has been called. *)
Theorem missing_source_metadata (sv : Services)
  (request : SmartVideoQueryRequest) (tr : log)
  (all_docs docs : list Document) :
  req_strategy request <> "best_match" ->
  req_strategy request <> "multi_doc" ->
  similarity_search sv "" 1000 = inr all_docs ->
  filter_by_content_type (req_content_type request)
    (sorted_set (truthy_sources all_docs)) <> [] ->
  similarity_search sv (req_query request) (req_k request) = inr docs ->
  docs <> [] ->
  (forall d, In d docs -> metadata_source d = None) ->
  smart_query_all_content sv request tr
  = (inl (HTTPException 500
            "'NoneType' object has no attribute 'startswith'"),
     tr ++ [SimilaritySearch "" 1000;
            SimilaritySearch (req_query request) (req_k request);
            completion_call (req_query request) docs]) /\
  exists r,
    smart_query sv (req_query request) (req_k request)
      (req_strategy request) tr
    = (inr r,
       tr ++ [SimilaritySearch (req_query request) (req_k request);
              completion_call (req_query request) docs]) /\
    sq_primary_source r = Some None /\
    sq_chunks_used r = Some (Z.of_nat (List.length docs)).
Proof.
  intros Hb Hm Hlist Hfiltered Hsearch Hne Hnone.
  destruct (@single_source_spec docs Hne) as (p & Hres & Hin & _).
  assert (Hp : p = None).
  { apply in_map_iff in Hin. destruct Hin as (d & <- & Hd).
    now apply Hnone. }
  subst p.
  assert (Hall : filter_by_source None docs = docs)
    by now apply filter_by_source_all.
  rewrite Hall in Hres. split.
  - rewrite smart_query_all_run. cbv zeta. rewrite Hlist.
    rewrite (is_empty_false Hfiltered).
    rewrite smart_document_search_fallback by assumption.
    rewrite Hsearch. cbn [rbind]. rewrite Hres. cbn [chunks].
    rewrite (is_empty_false Hne). cbn [primary_source_metadata
                                         primary_source str].
    now rewrite <- !app_assoc.
  - eexists. split.
    + rewrite smart_query_run.
      rewrite smart_document_search_fallback by assumption.
      rewrite Hsearch. cbn [rbind]. rewrite Hres. cbn [chunks].
      rewrite (is_empty_false Hne). now rewrite <- app_assoc.
    + split; reflexivity.
Qed.

Lemma missing_source_metadata_witness :
  smart_query_all_content (Examples.store Fixtures.batch_orphan)
    Fixtures.orphan_request []
  = (inl (HTTPException 500
            "'NoneType' object has no attribute 'startswith'"),
     [SimilaritySearch "" 1000; SimilaritySearch "q" 1;
      completion_call "q" [mkDocument "orphan" None]]).
Proof.
  refine (proj1 (@missing_source_metadata
                   (Examples.store Fixtures.batch_orphan)
                   Fixtures.orphan_request []
                   (map fst Fixtures.batch_orphan)
                   [mkDocument "orphan" None] _ _ eq_refl _ eq_refl _ _)).
  - discriminate.
  - discriminate.
  - discriminate.
  - discriminate.
  - intros d [<-|[]]. reflexivity.
Defined.

(** X12.  When the search that lists the sources fails,
    [POST /smart-query-all/] does not fail: for every content type it
    answers "No <type> content found in the database.", and neither
    retrieval nor the completion service is called. *)
Theorem smart_query_all_store_unreachable (sv : Services)
  (request : SmartVideoQueryRequest) (tr : log) (e : exn) :
  similarity_search sv "" 1000 = inl e ->
  smart_query_all_content sv request tr
  = (inr (plain_response
            ("No " ++ req_content_type request
             ++ " content found in the database.") request),
     tr ++ [SimilaritySearch "" 1000]).
Proof.
  intros Hfail. rewrite smart_query_all_run. cbv zeta. rewrite Hfail.
  unfold filter_by_content_type.
  now destruct (req_content_type request =? "pdf")%string,
               (req_content_type request =? "video")%string.
Qed.

Lemma smart_query_all_store_unreachable_witness :
  exists r,
    smart_query_all_content Examples.unreachable_store Examples.pdf_request []
    = (inr r, [SimilaritySearch "" 1000]) /\
    resp_answer r = "No pdf content found in the database.".
Proof.
  eexists. split.
  - apply (@smart_query_all_store_unreachable Examples.unreachable_store
             Examples.pdf_request [] (ServiceError "connection refused")).
    reflexivity.
  - reflexivity.
Defined.

Lemma smart_query_all_no_content_witness :
  exists r,
    smart_query_all_content (Examples.store Examples.batch_ab)
      Fixtures.video_request []
    = (inr r, [SimilaritySearch "" 1000]) /\
    resp_answer r = "No video content found in the database.".
Proof.
  eexists. split.
  - apply (@smart_query_all_no_content (Examples.store Examples.batch_ab)
             Fixtures.video_request [] (map fst Examples.batch_ab));
      reflexivity.
  - reflexivity.
Defined.

(** ** [GET /videos/] *)

Lemma prefix_app (p s : string) : String.prefix p (p ++ s) = true.
Proof.
  induction p as [|c p IH]; cbn; [now destruct s|].
  destruct (ascii_dec c c); [assumption | congruence].
Qed.

Lemma prefix_app_inv (p s t : string) :
  String.prefix p (s ++ t) = true ->
  String.prefix p s = true \/ starts_with_char_of p t = true.
Proof.
  revert s. induction p as [|a p IH]; intros s; cbn.
  - left. now destruct s.
  - destruct s as [|b s]; cbn.
    + destruct t as [|c t]; [discriminate|]. cbn.
      destruct (ascii_dec a c) as [->|]; [|discriminate].
      intros _. right. now rewrite Ascii.eqb_refl.
    + destruct (ascii_dec a b) as [->|]; [|discriminate].
      intros H. destruct (IH s H) as [Hl|Hr]; [now left|]. right.
      destruct t as [|c t]; [discriminate|]. cbn in *.
      rewrite Hr. apply orb_true_r.
Qed.

Lemma occurs_app (p s t : string) :
  occurs p s = false -> occurs p t = false ->
  starts_with_char_of p t = false ->
  occurs p (s ++ t) = false.
Proof.
  intros Hs Ht Hc. induction s as [|c s IH]; [exact Ht|].
  cbn [occurs] in Hs. apply orb_false_iff in Hs. destruct Hs as (Hp & Hs).
  change ((String c s ++ t)%string) with (String c (s ++ t)).
  cbn [occurs]. rewrite (IH Hs), orb_false_r.
  destruct (String.prefix p (String c (s ++ t))) eqn:E; [|reflexivity].
  destruct (prefix_app_inv p (String c s) t E); congruence.
Qed.

Lemma replace_from_skip (old new pre s : string) :
  replace_from old new (String.length pre) (pre ++ s)
  = replace_from old new 0 s.
Proof. induction pre as [|c pre IH]; [reflexivity | exact IH]. Qed.

Lemma replace_no_occurrence (old new s : string) :
  occurs old s = false -> replace old new s = s.
Proof.
  unfold replace. induction s as [|c s IH]; [reflexivity|].
  cbn [occurs]. intros H. apply orb_false_iff in H. destruct H as (Hp & Hs).
  cbn [replace_from]. rewrite Hp. f_equal. now apply IH.
Qed.

Lemma replace_leading (a : ascii) (old' new rest : string) :
  replace (String a old') new (String a old' ++ rest)
  = (new ++ replace (String a old') new rest)%string.
Proof.
  unfold replace.
  change ((String a old' ++ rest)%string) with (String a (old' ++ rest)).
  cbn [replace_from].
  change (String a (old' ++ rest)) with ((String a old' ++ rest)%string).
  rewrite prefix_app. f_equal.
  cbn [String.length]. rewrite Nat.sub_1_r. cbn [Nat.pred].
  apply replace_from_skip.
Qed.

Lemma replace_trailing_txt (s : string) :
  UrlModel.contains "." s = false -> replace ".txt" "" (s ++ ".txt") = s.
Proof.
  unfold replace. induction s as [|c s IH]; [reflexivity|].
  cbn [UrlModel.contains]. intros H. apply orb_false_iff in H.
  destruct H as (Hc & Hs).
  change ((String c s ++ ".txt")%string) with (String c (s ++ ".txt")).
  cbn [replace_from String.prefix].
  destruct (ascii_dec "." c) as [<-|_]; [discriminate|].
  f_equal. now apply IH.
Qed.

Lemma string_app_assoc (a b c : string) :
  (a ++ (b ++ c) = (a ++ b) ++ c)%string.
Proof. induction a as [|x a IH]; cbn; [reflexivity | now rewrite IH]. Qed.

Lemma endswith_app (s suffix : string) : endswith (s ++ suffix) suffix = true.
Proof.
  induction s as [|c s IH].
  - change (("" ++ suffix)%string) with suffix.
    destruct suffix; cbn [endswith]; now rewrite String.eqb_refl.
  - change ((String c s ++ suffix)%string) with (String c (s ++ suffix)).
    cbn [endswith]. rewrite IH. apply orb_true_r.
Qed.

(** X13.  The identifier shown by [GET /videos/] for a stored video.
    When the identifier holds neither the text "video_" nor a dot, the
    source name "video_<id>.txt" passes the filter of the endpoint and is
    listed with that identifier and the watch URL of that identifier.
    Both conditions are needed: the two [replace] calls remove every
    occurrence, so "video_avideo_b.txt" is listed as "ab" and
    "video_a.txt.txt" as "a". *)
Theorem video_id_round_trip :
  (forall ident : string,
      occurs "video_" ident = false ->
      UrlModel.contains "." ident = false ->
      let source := ("video_" ++ ident ++ ".txt")%string in
      startswith source "video_" = true /\
      endswith source ".txt" = true /\
      video_info_of_source source
      = {| video_id := ident;
           source_name := source;
           youtube_url := ("https://www.youtube.com/watch?v=" ++ ident)%string
        |}) /\
  video_id_of_source "video_avideo_b.txt" = "ab" /\
  video_id_of_source "video_a.txt.txt" = "a".
Proof.
  split; [|split; reflexivity].
  intros ident Hv Hdot source.
  assert (Hid : video_id_of_source source = ident).
  { unfold video_id_of_source, source.
    rewrite (replace_leading "v" "ideo_" "" (ident ++ ".txt")).
    rewrite (@replace_no_occurrence "video_" "" (ident ++ ".txt")).
    - cbn [append]. now apply replace_trailing_txt.
    - apply occurs_app; [assumption | reflexivity | reflexivity]. }
  split; [apply (prefix_app "video_")|]. split.
  { unfold source. rewrite string_app_assoc. apply endswith_app. }
  unfold video_info_of_source. now rewrite Hid.
Qed.

Lemma video_id_round_trip_witness :
  video_info_of_source "video_dQw4w9WgXcQ.txt"
  = {| video_id := "dQw4w9WgXcQ";
       source_name := "video_dQw4w9WgXcQ.txt";
       youtube_url := "https://www.youtube.com/watch?v=dQw4w9WgXcQ" |}.
Proof.
  apply (proj1 video_id_round_trip "dQw4w9WgXcQ"); reflexivity.
Defined.

(** * Transcripts *)

Section StripFacts.
Variable space : ascii -> bool.

Lemma all_chars_app (a b : string) :
  UrlModel.all_chars space (a ++ b)
  = UrlModel.all_chars space a && UrlModel.all_chars space b.
Proof.
  induction a as [|c a IH]; cbn; [reflexivity|].
  now rewrite IH, andb_assoc.
Qed.

Lemma lstrip_split (s : string) :
  exists pre, s = (pre ++ lstrip space s)%string /\
              UrlModel.all_chars space pre = true.
Proof.
  induction s as [|c s (pre & Hs & Hpre)]; [now exists ""|].
  cbn [lstrip]. destruct (space c) eqn:E.
  - exists (String c pre). cbn. rewrite E, Hpre. split; [|reflexivity].
    now rewrite <- Hs.
  - now exists "".
Qed.

Lemma lstrip_head (s : string) :
  lstrip space s = "" \/
  exists c r, lstrip space s = String c r /\ space c = false.
Proof.
  induction s as [|c s IH]; [now left|]. cbn [lstrip].
  destruct (space c) eqn:E; [exact IH|]. right. now exists c, s.
Qed.

Lemma rstrip_split (s : string) :
  exists post, s = (rstrip space s ++ post)%string /\
               UrlModel.all_chars space post = true.
Proof.
  induction s as [|c s (post & Hs & Hpost)]; [now exists ""|].
  cbn [rstrip]. destruct (rstrip space s) as [|d r] eqn:Er.
  - destruct (space c) eqn:E.
    + exists (String c s). split; [reflexivity|]. cbn. rewrite E.
      cbn in Hs. now rewrite Hs.
    + exists post. split; [|assumption]. cbn. now rewrite Hs at 1.
  - exists post. split; [|assumption].
    change ((String c (String d r) ++ post)%string)
      with (String c (String d r ++ post)).
    now rewrite <- Hs.
Qed.

Lemma rstrip_keeps_head (c : ascii) (s : string) :
  rstrip space (String c s) = "" \/
  exists r, rstrip space (String c s) = String c r.
Proof.
  cbn [rstrip]. destruct (rstrip space s) as [|d r].
  - destruct (space c); [now left | right; now exists ""].
  - right. now exists (String d r).
Qed.

Lemma rstrip_idem (s : string) :
  rstrip space (rstrip space s) = rstrip space s.
Proof.
  induction s as [|c s IH]; [reflexivity|]. cbn [rstrip].
  destruct (rstrip space s) as [|d r] eqn:Er.
  - destruct (space c) eqn:E; [reflexivity|]. cbn. now rewrite E.
  - cbn [rstrip] in *. now rewrite IH.
Qed.

Lemma rstrip_blank (s : string) :
  rstrip space s = "" <-> UrlModel.all_chars space s = true.
Proof.
  induction s as [|c s IH]; [easy|]. cbn [rstrip UrlModel.all_chars].
  destruct (rstrip space s) as [|d r].
  - destruct (space c); cbn; [|easy]. tauto.
  - rewrite andb_true_iff. split; [discriminate|].
    intros (_ & H). apply IH in H. discriminate.
Qed.

Lemma strip_blank (s : string) :
  strip space s = "" <-> UrlModel.all_chars space s = true.
Proof.
  unfold strip. rewrite rstrip_blank.
  destruct (lstrip_split s) as (pre & Hs & Hpre).
  rewrite Hs at 2. rewrite all_chars_app, Hpre. reflexivity.
Qed.

Lemma strip_stripped (s : string) :
  lstrip space (strip space s) = strip space s /\
  rstrip space (strip space s) = strip space s.
Proof.
  unfold strip. split; [|apply rstrip_idem].
  destruct (lstrip_head s) as [->|(c & r & -> & Hc)]; [reflexivity|].
  destruct (rstrip_keeps_head c r) as [->|(r' & ->)]; [reflexivity|].
  cbn [lstrip]. now rewrite Hc.
Qed.

Lemma strip_split (s : string) :
  exists pre post,
    s = (pre ++ strip space s ++ post)%string /\
    UrlModel.all_chars space pre = true /\
    UrlModel.all_chars space post = true.
Proof.
  destruct (lstrip_split s) as (pre & Hs & Hpre).
  destruct (rstrip_split (lstrip space s)) as (post & Hl & Hpost).
  exists pre, post. unfold strip. now rewrite <- Hl.
Qed.
End StripFacts.

(** X15.  [handle_manual_transcript] raises [ValueError] "Manual
    transcript text is required" exactly when the text is empty or all
    whitespace.  Otherwise it returns the text without its leading and
    trailing whitespace: the result is not empty, it neither starts nor
    ends with whitespace, and the text is the result between two runs of
    whitespace. *)
Theorem handle_manual_transcript_spec (pf : Platform)
  (video_url text : string) :
  (UrlModel.all_chars (isspace pf) text = true ->
   handle_manual_transcript pf video_url text
   = inl (ValueError "Manual transcript text is required")) /\
  (UrlModel.all_chars (isspace pf) text = false ->
   exists stripped pre post,
     handle_manual_transcript pf video_url text = inr stripped /\
     stripped <> "" /\
     text = (pre ++ stripped ++ post)%string /\
     UrlModel.all_chars (isspace pf) pre = true /\
     UrlModel.all_chars (isspace pf) post = true /\
     lstrip (isspace pf) stripped = stripped /\
     rstrip (isspace pf) stripped = stripped).
Proof.
  unfold handle_manual_transcript. split.
  - intros Hblank. apply strip_blank in Hblank. rewrite Hblank.
    now rewrite orb_true_r.
  - intros Htext.
    assert (Hs : strip (isspace pf) text <> "").
    { intros E. apply strip_blank in E. congruence. }
    assert (Ht : text <> "") by (intros ->; discriminate).
    apply String.eqb_neq in Hs, Ht. rewrite Hs, Ht. cbn [orb].
    destruct (strip_split (isspace pf) text) as (pre & post & H1 & H2 & H3).
    exists (strip (isspace pf) text), pre, post.
    split; [reflexivity|]. split; [now apply String.eqb_neq|].
    split; [assumption|]. split; [assumption|]. split; [assumption|].
    apply strip_stripped.
Qed.

Lemma handle_manual_transcript_spec_witness :
  handle_manual_transcript (Stage.blocked []) "https://youtu.be/abc" "   "
  = inl (ValueError "Manual transcript text is required").
Proof.
  apply (proj1 (handle_manual_transcript_spec (Stage.blocked [])
                  "https://youtu.be/abc" "   ")).
  reflexivity.
Defined.

(** ** The fallback chain *)

Lemma fetch_first_run (video_id : string)
  (offers : list (result (list string))) :
  forall (index : nat) (tr : list io_event),
    fetch_first video_id index offers tr
    = (inr (option_map transcript_text (first_ok offers)),
       tr ++ fetches video_id index (tried offers)).
Proof.
  unfold fetches.
  induction offers as [|[e|data] rest IH]; intros index tr.
  - cbn. now rewrite app_nil_r.
  - cbn [fetch_first first_ok tried seq map].
    unfold io_try, io_bind, io_call. rewrite IH, <- app_assoc. reflexivity.
  - reflexivity.
Qed.

Lemma transcript_fallbacks_run (pf : Platform) (video_id : string)
  (tr : list io_event) :
  transcript_fallbacks pf video_id tr
  = match get_transcript_in pf video_id english with
    | inr t =>
        (inr (transcript_text t), tr ++ [GetTranscriptIn video_id english])
    | inl _ =>
        match list_transcripts pf video_id with
        | inr offers =>
            (match first_ok offers with
             | Some data => inr (transcript_text data)
             | None =>
                 inl (RuntimeError (transcript_failure_message video_id))
             end,
             tr ++ [GetTranscriptIn video_id english;
                    ListTranscripts video_id]
                ++ fetches video_id 0 (tried offers))
        | inl _ =>
            (inl (RuntimeError (transcript_failure_message video_id)),
             tr ++ [GetTranscriptIn video_id english;
                    ListTranscripts video_id])
        end
    end.
Proof.
  unfold transcript_fallbacks, io_bind, io_try, io_call, io_ret, io_raise.
  fold english.
  destruct (get_transcript_in pf video_id english) as [e|t]; [|reflexivity].
  destruct (list_transcripts pf video_id) as [e'|offers].
  - now rewrite <- app_assoc.
  - rewrite fetch_first_run, <- !app_assoc. cbn [app].
    now destruct (first_ok offers).
Qed.

Lemma get_youtube_transcript_run (pf : Platform) (video_url : string)
  (use_fallback : bool) (tr : list io_event) :
  get_youtube_transcript pf video_url use_fallback tr
  = match extract_video_id (urllib pf) video_url with
    | inl e => (inl (Builtin e), tr)
    | inr video_id =>
        match get_transcript pf video_id with
        | inr t => (inr (transcript_text t), tr ++ [GetTranscript video_id])
        | inl e =>
            if use_fallback
            then transcript_fallbacks pf video_id
                   (tr ++ [GetTranscript video_id])
            else (inl (RuntimeError
                         ("Primary transcript retrieval failed: " ++ str e)),
                  tr ++ [GetTranscript video_id])
        end
    end.
Proof.
  unfold get_youtube_transcript, io_bind, io_lift, io_try, io_call, io_ret,
    io_raise.
  destruct (extract_video_id (urllib pf) video_url) as [e|video_id];
    [reflexivity|].
  destruct (get_transcript pf video_id) as [e|t]; [|reflexivity].
  now destruct use_fallback.
Qed.

(** X16.  [get_youtube_transcript] tries, in this order, the plain
    request, the request for English, and each transcript on offer; it
    returns the text of the first attempt that succeeds (the texts of the
    entries joined by spaces) and makes no attempt after it. *)
Theorem transcript_first_success (pf : Platform) (video_url video_id : string)
  (tr : list io_event) :
  extract_video_id (urllib pf) video_url = inr video_id ->
  (forall t use_fallback,
      get_transcript pf video_id = inr t ->
      get_youtube_transcript pf video_url use_fallback tr
      = (inr (join " " t), tr ++ [GetTranscript video_id])) /\
  (forall e t,
      get_transcript pf video_id = inl e ->
      get_transcript_in pf video_id ["en"; "en-US"; "en-GB"] = inr t ->
      get_youtube_transcript pf video_url true tr
      = (inr (join " " t),
         tr ++ [GetTranscript video_id;
                GetTranscriptIn video_id ["en"; "en-US"; "en-GB"]])) /\
  (forall e e' before data after,
      get_transcript pf video_id = inl e ->
      get_transcript_in pf video_id ["en"; "en-US"; "en-GB"] = inl e' ->
      list_transcripts pf video_id = inr (before ++ inr data :: after) ->
      (forall offer, In offer before -> exists e'', offer = inl e'') ->
      get_youtube_transcript pf video_url true tr
      = (inr (join " " data),
         tr ++ [GetTranscript video_id;
                GetTranscriptIn video_id ["en"; "en-US"; "en-GB"];
                ListTranscripts video_id]
            ++ map (FetchTranscript video_id)
                   (seq 0 (S (List.length before))))).
Proof.
  intros Hid. split; [|split].
  - intros t fb Ht. now rewrite get_youtube_transcript_run, Hid, Ht.
  - intros e t He Ht.
    rewrite get_youtube_transcript_run, Hid, He, transcript_fallbacks_run.
    unfold english. rewrite Ht, <- app_assoc. reflexivity.
  - intros e e' before data after He He' Hl Hbefore.
    rewrite get_youtube_transcript_run, Hid, He, transcript_fallbacks_run.
    unfold english. rewrite He', Hl.
    assert (Hok : first_ok (before ++ inr data :: after) = Some data
                  /\ tried (before ++ inr data :: after)
                     = S (List.length before)).
    { clear Hl. induction before as [|offer before IH]; [now split|].
      destruct (Hbefore offer (or_introl eq_refl)) as (e'' & ->).
      cbn [app first_ok tried List.length].
      destruct IH as (IH1 & IH2); [|now rewrite IH1, IH2].
      intros o Ho. apply Hbefore. now right. }
    destruct Hok as (-> & ->). unfold fetches.
    now rewrite <- !app_assoc.
Qed.

Lemma transcript_first_success_witness :
  get_youtube_transcript (Stage.second_offer_only []) "https://youtu.be/abc"
    true []
  = (inr "never gonna",
     [GetTranscript "abc"; GetTranscriptIn "abc" ["en"; "en-US"; "en-GB"];
      ListTranscripts "abc"; FetchTranscript "abc" 0;
      FetchTranscript "abc" 1]).
Proof.
  refine (proj2 (proj2 (@transcript_first_success
                          (Stage.second_offer_only []) "https://youtu.be/abc"
                          "abc" [] eq_refl))
            (ServiceError "blocked") (ServiceError "blocked")
            [inl (ServiceError "blocked")] ["never"; "gonna"] []
            eq_refl eq_refl eq_refl _).
  intros offer [<-|[]]. now exists (ServiceError "blocked").
Defined.

Lemma first_ok_none (offers : list (result (list string))) :
  first_ok offers = None ->
  (forall offer, In offer offers -> exists e, offer = inl e) /\
  tried offers = List.length offers.
Proof.
  induction offers as [|[e|data] rest IH]; cbn [first_ok tried List.length].
  - intros _. split; [contradiction | reflexivity].
  - intros H. destruct (IH H) as (Hall & Hn). split; [|now rewrite Hn].
    intros offer [<-|Hin]; [now exists e | now apply Hall].
  - discriminate.
Qed.

(** X17.  How [get_youtube_transcript] fails.  A URL that is not a
    video URL gives the [ValueError] of [extract_video_id] before any
    request is made.  Without fallback, a refused plain request gives
    [RuntimeError] "Primary transcript retrieval failed: ..." after that
    one request.  With fallback, the only failure is the [RuntimeError]
    that names the video, and it is raised only after every attempt has
    failed: the plain request, the request for English, and either the
    listing or the fetch of every transcript on offer. *)
Theorem transcript_failures (pf : Platform) (video_url : string)
  (use_fallback : bool) (tr tr' : list io_event) (err : app_exn) :
  get_youtube_transcript pf video_url use_fallback tr = (inl err, tr') ->
  (exists e,
      extract_video_id (urllib pf) video_url = inl e /\
      err = Builtin e /\ tr' = tr) \/
  (exists video_id e,
      extract_video_id (urllib pf) video_url = inr video_id /\
      use_fallback = false /\
      get_transcript pf video_id = inl e /\
      err = RuntimeError
              ("Primary transcript retrieval failed: " ++ str e) /\
      tr' = tr ++ [GetTranscript video_id]) \/
  (exists video_id e e',
      extract_video_id (urllib pf) video_url = inr video_id /\
      use_fallback = true /\
      get_transcript pf video_id = inl e /\
      get_transcript_in pf video_id ["en"; "en-US"; "en-GB"] = inl e' /\
      err = RuntimeError (transcript_failure_message video_id) /\
      ((exists e'',
           list_transcripts pf video_id = inl e'' /\
           tr' = tr ++ [GetTranscript video_id;
                        GetTranscriptIn video_id ["en"; "en-US"; "en-GB"];
                        ListTranscripts video_id]) \/
       (exists offers,
           list_transcripts pf video_id = inr offers /\
           (forall offer, In offer offers -> exists e'', offer = inl e'') /\
           tr' = tr ++ [GetTranscript video_id;
                        GetTranscriptIn video_id ["en"; "en-US"; "en-GB"];
                        ListTranscripts video_id]
                    ++ map (FetchTranscript video_id)
                           (seq 0 (List.length offers))))).
Proof.
  rewrite get_youtube_transcript_run.
  destruct (extract_video_id (urllib pf) video_url) as [e0|video_id] eqn:Hid.
  { intros [= <- <-]. left. now exists e0. }
  destruct (get_transcript pf video_id) as [e|t] eqn:He; [|discriminate].
  destruct use_fallback.
  2:{ intros [= <- <-]. right. left. exists video_id, e.
      repeat (split; [first [reflexivity | assumption]|]). reflexivity. }
  rewrite transcript_fallbacks_run. unfold english.
  destruct (get_transcript_in pf video_id ["en"; "en-US"; "en-GB"])
    as [e'|t'] eqn:He'; [|discriminate].
  destruct (list_transcripts pf video_id) as [e''|offers] eqn:Hl.
  - intros [= <- <-]. right. right. exists video_id, e, e'.
    repeat (split; [first [reflexivity | assumption]|]). left. exists e''.
    split; [assumption|]. now rewrite <- app_assoc.
  - destruct (first_ok offers) as [data|] eqn:Hok; [discriminate|].
    intros [= <- <-]. right. right. exists video_id, e, e'.
    repeat (split; [first [reflexivity | assumption]|]). right.
    exists offers.
    destruct (first_ok_none offers Hok) as (Hall & Hn).
    split; [assumption|]. split; [assumption|].
    unfold fetches. now rewrite Hn, <- !app_assoc.
Qed.

Lemma transcript_failures_witness :
  exists e,
    get_transcript (Stage.blocked []) "abc" = inl e /\
    get_youtube_transcript (Stage.blocked []) "https://youtu.be/abc" true []
    = (inl (RuntimeError (transcript_failure_message "abc")),
       [GetTranscript "abc"; GetTranscriptIn "abc" ["en"; "en-US"; "en-GB"];
        ListTranscripts "abc"]).
Proof.
  destruct (@transcript_failures (Stage.blocked []) "https://youtu.be/abc"
              true [] _ _ eq_refl)
    as [(e & H & _)|[(id & e & _ & H & _)|(id & e & e' & Hid & _ & He & _)]].
  - discriminate.
  - discriminate.
  - injection Hid as <-. exists e. split; [assumption | reflexivity].
Defined.

(** X18.  [GET /youtube-status/] never reports "error_other" when the
    library parses its test URL: the status is "accessible" when a
    transcript of the test video could be had, and "blocked_cloud" in
    every other case, whatever made the transcript service fail (the
    failure text always holds "cloud provider"). *)
Theorem youtube_status_never_other (pf : Platform) (tr : list io_event) :
  extract_video_id (urllib pf) "https://www.youtube.com/watch?v=dQw4w9WgXcQ"
  = inr "dQw4w9WgXcQ" ->
  exists status tr',
    check_youtube_api_status pf tr = (inr status, tr') /\
    (status = "accessible" \/ status = "blocked_cloud") /\
    (status = "accessible"
     <-> exists text,
          fst (get_youtube_transcript pf
                 "https://www.youtube.com/watch?v=dQw4w9WgXcQ" true tr)
          = inr text).
Proof.
  intros Hid. unfold check_youtube_api_status, io_try, io_bind, io_ret.
  cbn [append].
  destruct (get_youtube_transcript pf
              "https://www.youtube.com/watch?v=dQw4w9WgXcQ" true tr)
    as [[err|text] tr'] eqn:Hrun.
  - destruct (transcript_failures _ _ _ _ Hrun)
      as [(e & H & _)|[(id & e & _ & H & _)|(id & e & e' & Hid' & _ & _ & _
                                              & -> & _)]].
    + congruence.
    + discriminate.
    + rewrite Hid in Hid'. injection Hid' as <-.
      eexists. eexists. split; [reflexivity|].
      split; [now right|]. split; [discriminate|].
      intros (text & Ht). discriminate.
  - eexists. eexists. split; [reflexivity|]. split; [now left|].
    split; [intros _; now exists text | reflexivity].
Qed.

Lemma youtube_status_never_other_witness :
  exists status tr',
    check_youtube_api_status (Stage.blocked []) [] = (inr status, tr') /\
    (status = "accessible" \/ status = "blocked_cloud").
Proof.
  destruct (@youtube_status_never_other (Stage.blocked []) [] eq_refl)
    as (status & tr' & Hrun & Hstatus & _).
  exists status, tr'. split; assumption.
Defined.

(** * The YouTube endpoints *)

Lemma upload_youtube_video_run (pf : Platform)
  (request : VideoRequestWithTranscript) (tr : list io_event) :
  upload_youtube_video pf request tr
  = match extract_video_id (urllib pf) (up_video_url request) with
    | inl e => (inr (processing_failed (str e)), tr)
    | inr video_id =>
        match truthy (up_manual_transcript request) with
        | Some manual =>
            match handle_manual_transcript pf (up_video_url request)
                    manual with
            | inl e => (inr (processing_failed (str e)), tr)
            | inr transcript =>
                store_and_report pf video_id transcript "manual" tr
            end
        | None =>
            match get_youtube_transcript pf (up_video_url request)
                    (up_use_fallback request) tr with
            | (inl err, tr') =>
                (inr (transcript_blocked (app_str err) video_id), tr')
            | (inr transcript, tr') =>
                store_and_report pf video_id transcript "automatic" tr'
            end
        end
    end.
Proof.
  unfold upload_youtube_video, upload_transcript, io_try, io_bind, io_lift,
    io_ret, create_embeddings_and_store_qdrant, io_call,
    split_text_into_chunks, store_and_report, video_source.
  destruct (extract_video_id (urllib pf) (up_video_url request))
    as [e|video_id]; [reflexivity|].
  destruct (truthy (up_manual_transcript request)) as [manual|].
  - destruct (handle_manual_transcript pf (up_video_url request) manual)
      as [e|transcript]; [reflexivity|].
    now destruct (from_documents pf _).
  - destruct (get_youtube_transcript pf (up_video_url request)
                (up_use_fallback request) tr) as [[err|transcript] tr'];
      [reflexivity|].
    now destruct (from_documents pf _).
Qed.

(** X19.  [POST /upload-youtube/] with a manual transcript never calls
    the transcript service.  A transcript of whitespace only ends the
    request with "processing_failed" and detail "Manual transcript text
    is required", and nothing is stored; otherwise the stripped text is
    split under the source "video_<id>.txt" and stored in one write, and
    the response reports the method "manual", or "processing_failed"
    with the text of the error when the write fails. *)
Theorem upload_manual_transcript (pf : Platform)
  (request : VideoRequestWithTranscript) (video_id manual : string)
  (tr : list io_event) :
  extract_video_id (urllib pf) (up_video_url request) = inr video_id ->
  up_manual_transcript request = Some manual ->
  manual <> "" ->
  (UrlModel.all_chars (isspace pf) manual = true ->
   upload_youtube_video pf request tr
   = (inr (UploadFailed "processing_failed"
             "Failed to process YouTube video"
             "Manual transcript text is required" None []), tr)) /\
  (UrlModel.all_chars (isspace pf) manual = false ->
   let transcript := strip (isspace pf) manual in
   let source := ("video_" ++ video_id ++ ".txt")%string in
   let chunks := split_documents pf transcript source in
   upload_youtube_video pf request tr
   = (inr match from_documents pf chunks with
          | inr _ =>
              Uploaded video_id source (Z.of_nat (List.length chunks))
                "manual" (Z.of_nat (String.length transcript))
          | inl e =>
              UploadFailed "processing_failed"
                "Failed to process YouTube video" (str e) None []
          end,
      tr ++ [StoreDocuments chunks])).
Proof.
  intros Hid Hmanual Hne.
  assert (Htruthy : truthy (up_manual_transcript request) = Some manual).
  { rewrite Hmanual. cbn. apply String.eqb_neq in Hne. now rewrite Hne. }
  destruct (handle_manual_transcript_spec pf (up_video_url request) manual)
    as (Hblank & Htext).
  split.
  - intros H. rewrite upload_youtube_video_run, Hid, Htruthy.
    now rewrite (Hblank H).
  - intros H. cbv zeta.
    rewrite upload_youtube_video_run, Hid, Htruthy.
    destruct (Htext H) as (stripped & _ & _ & Hrun & _).
    assert (Hs : stripped = strip (isspace pf) manual).
    { unfold handle_manual_transcript in Hrun.
      destruct (_ || _); [discriminate | congruence]. }
    rewrite Hrun, Hs. reflexivity.
Qed.

Lemma upload_manual_transcript_witness :
  upload_youtube_video (Stage.blocked [])
    (mkVideoRequestWithTranscript "https://youtu.be/abc" (Some "   ") true) []
  = (inr (processing_failed "Manual transcript text is required"), []).
Proof.
  refine (proj1 (@upload_manual_transcript (Stage.blocked [])
                   (mkVideoRequestWithTranscript "https://youtu.be/abc"
                      (Some "   ") true)
                   "abc" "   " [] eq_refl eq_refl _) eq_refl).
  discriminate.
Defined.

(** X20.  [POST /upload-youtube/] never raises.  For a URL that is not
    a video URL it answers "processing_failed" with the text of the URL
    error and makes no external call.  Without a manual transcript, a
    failure of [get_youtube_transcript] gives "transcript_blocked" with
    the text of that failure and the video id, and the log is that of the
    transcript attempts: nothing is written to the store. *)
Theorem upload_failures (pf : Platform)
  (request : VideoRequestWithTranscript) (tr : list io_event) :
  (exists response tr',
      upload_youtube_video pf request tr = (inr response, tr')) /\
  (forall e,
      extract_video_id (urllib pf) (up_video_url request) = inl e ->
      upload_youtube_video pf request tr
      = (inr (UploadFailed "processing_failed"
                "Failed to process YouTube video" (str e) None []), tr)) /\
  (forall video_id err tr',
      extract_video_id (urllib pf) (up_video_url request) = inr video_id ->
      truthy (up_manual_transcript request) = None ->
      get_youtube_transcript pf (up_video_url request)
        (up_use_fallback request) tr = (inl err, tr') ->
      upload_youtube_video pf request tr
      = (inr (UploadFailed "transcript_blocked"
                "YouTube transcript retrieval failed" (app_str err)
                (Some video_id)
                ["Provide manual transcript text"; "Use a proxy service";
                 "Process video locally"]), tr')).
Proof.
  split; [|split].
  - rewrite upload_youtube_video_run. unfold store_and_report.
    destruct (extract_video_id _ _); [now eexists; eexists|].
    destruct (truthy _).
    + destruct (handle_manual_transcript _ _ _); now eexists; eexists.
    + destruct (get_youtube_transcript _ _ _ _) as [[?|?] ?];
        now eexists; eexists.
  - intros e He. now rewrite upload_youtube_video_run, He.
  - intros video_id err tr' Hid Hnone Hrun.
    now rewrite upload_youtube_video_run, Hid, Hnone, Hrun.
Qed.

Lemma upload_failures_witness :
  upload_youtube_video (Stage.blocked [])
    (mkVideoRequestWithTranscript "https://youtu.be/abc" None true) []
  = (inr (UploadFailed "transcript_blocked"
            "YouTube transcript retrieval failed"
            (transcript_failure_message "abc") (Some "abc")
            ["Provide manual transcript text"; "Use a proxy service";
             "Process video locally"]),
     [GetTranscript "abc"; GetTranscriptIn "abc" ["en"; "en-US"; "en-GB"];
      ListTranscripts "abc"]).
Proof.
  apply (proj2 (proj2 (@upload_failures (Stage.blocked [])
                         (mkVideoRequestWithTranscript "https://youtu.be/abc"
                            None true) []))
           "abc" (RuntimeError (transcript_failure_message "abc"))
           [GetTranscript "abc";
            GetTranscriptIn "abc" ["en"; "en-US"; "en-GB"];
            ListTranscripts "abc"]
           eq_refl eq_refl eq_refl).
Defined.

Lemma io_of_ask_azure_openai (sv : Services) (query : string)
  (context_chunks : list Document) (tr : list io_event) :
  io_of_M (ask_azure_openai sv query context_chunks) tr
  = (inr (answer_text sv query context_chunks),
     tr ++ [StoreCall (completion_call query context_chunks)]).
Proof. unfold io_of_M. now rewrite ask_azure_openai_total. Qed.

Lemma answer_from_database_run (pf : Platform) (request : VideoQueryRequest)
  (video_id : string) (tr : list io_event) :
  let search :=
    StoreCall (SimilaritySearch (vq_query request) (vq_k request * 10)) in
  answer_from_database pf request video_id (video_source video_id) tr
  = match similarity_search (services pf) (vq_query request)
            (vq_k request * 10) with
    | inl _ => (inr None, tr ++ [search])
    | inr docs =>
        let results := stored_chunks (vq_k request) video_id docs in
        if is_empty results then (inr None, tr ++ [search])
        else
          (inr (Some (AnsweredFromDatabase
                        (answer_text (services pf) (vq_query request)
                           results) video_id
                        (Z.of_nat (List.length results)))),
           tr ++ [search;
                  StoreCall (completion_call (vq_query request) results)])
    end.
Proof.
  cbv zeta. unfold answer_from_database, io_try, io_bind, io_ret.
  unfold io_of_M at 1. rewrite search_specific_document_run.
  destruct (similarity_search (services pf) (vq_query request)
              (vq_k request * 10)) as [e|docs]; [reflexivity|].
  cbn [rbind map app]. fold (stored_chunks (vq_k request) video_id docs).
  destruct (is_empty (stored_chunks (vq_k request) video_id docs));
    [reflexivity|].
  rewrite io_of_ask_azure_openai, <- app_assoc. reflexivity.
Qed.

Lemma query_youtube_video_run (pf : Platform) (request : VideoQueryRequest)
  (tr : list io_event) :
  query_youtube_video pf request tr
  = match extract_video_id (urllib pf) (vq_video_url request) with
    | inl e =>
        (inr (VideoQueryFailed "query_failed" "Failed to query YouTube video"
                (str e) []), tr)
    | inr video_id =>
        match answer_from_database pf request video_id
                (video_source video_id) tr with
        | (inr (Some response), tr1) => (inr response, tr1)
        | (inl e, tr1) =>
            (inr (VideoQueryFailed "query_failed"
                    "Failed to query YouTube video" (app_str e) []), tr1)
        | (inr None, tr1) =>
            match truthy (vq_manual_transcript request) with
            | Some manual =>
                match handle_manual_transcript pf (vq_video_url request)
                        manual with
                | inl e =>
                    (inr (VideoQueryFailed "query_failed"
                            "Failed to query YouTube video" (str e) []), tr1)
                | inr transcript =>
                    answer_from_transcript pf request video_id transcript
                      "manual" tr1
                end
            | None =>
                match get_youtube_transcript pf (vq_video_url request)
                        true tr1 with
                | (inl err, tr2) =>
                    (inr (VideoQueryFailed "transcript_blocked"
                            "YouTube transcript blocked and no manual transcript provided"
                            (app_str err)
                            ["Provide manual transcript";
                             "Upload video first"; "Use proxy service"]),
                     tr2)
                | (inr transcript, tr2) =>
                    answer_from_transcript pf request video_id transcript
                      "automatic" tr2
                end
            end
        end
    end.
Proof.
  unfold query_youtube_video, io_try, io_bind, io_lift, io_ret.
  destruct (extract_video_id (urllib pf) (vq_video_url request))
    as [e|video_id]; [reflexivity|].
  fold (video_source video_id).
  destruct (answer_from_database pf request video_id (video_source video_id)
              tr) as [[e|[response|]] tr1]; [reflexivity | reflexivity |].
  unfold query_transcript, io_try, io_bind, io_lift, io_ret,
    answer_from_transcript, split_text_into_chunks.
  destruct (truthy (vq_manual_transcript request)) as [manual|].
  - destruct (handle_manual_transcript pf (vq_video_url request) manual)
      as [e|transcript]; [reflexivity|].
    now rewrite io_of_ask_azure_openai.
  - destruct (get_youtube_transcript pf (vq_video_url request) true tr1)
      as [[err|transcript] tr2]; [reflexivity|].
    now rewrite io_of_ask_azure_openai.
Qed.

(** X21.  [POST /query-youtube/]: when the store holds chunks of the
    video among the [k * 10] chunks fetched, the answer is built from
    (at most [k] of) them and the request is over: the transcript service
    is not called, and a manual transcript sent with the request is not
    looked at. *)
Theorem query_youtube_from_database (pf : Platform)
  (request : VideoQueryRequest) (video_id : string) (tr : list io_event)
  (docs : list Document) :
  extract_video_id (urllib pf) (vq_video_url request) = inr video_id ->
  similarity_search (services pf) (vq_query request) (vq_k request * 10)
  = inr docs ->
  let results :=
    slice_to (vq_k request)
      (filter (fun doc =>
                 option_string_eqb (get_source doc)
                   (Some ("video_" ++ video_id ++ ".txt")%string)) docs) in
  results <> [] ->
  query_youtube_video pf request tr
  = (inr (AnsweredFromDatabase
            (answer_text (services pf) (vq_query request) results)
            video_id (Z.of_nat (List.length results))),
     tr ++ [StoreCall (SimilaritySearch (vq_query request)
                         (vq_k request * 10));
            StoreCall (completion_call (vq_query request) results)]).
Proof.
  intros Hid Hsearch results Hne.
  rewrite query_youtube_video_run, Hid, answer_from_database_run.
  cbv zeta. rewrite Hsearch.
  change (stored_chunks (vq_k request) video_id docs) with results.
  now rewrite (is_empty_false Hne).
Qed.

Lemma query_youtube_from_database_witness :
  exists answer n,
    query_youtube_video (Stage.blocked Stage.stored_video)
      (mkVideoQueryRequest "q" "https://youtu.be/dQw4w9WgXcQ" 3
         (Some "a manual transcript")) []
    = (inr (AnsweredFromDatabase answer "dQw4w9WgXcQ" n),
       [StoreCall (SimilaritySearch "q" 30);
        StoreCall (completion_call "q" (map fst Stage.stored_video))]).
Proof.
  eexists. eexists.
  refine (@query_youtube_from_database (Stage.blocked Stage.stored_video)
            (mkVideoQueryRequest "q" "https://youtu.be/dQw4w9WgXcQ" 3
               (Some "a manual transcript"))
            "dQw4w9WgXcQ" [] (map fst Stage.stored_video) eq_refl eq_refl _).
  discriminate.
Defined.

(** ** What the query endpoint never does *)

Lemma writes_nothing_nil : writes_nothing [].
Proof. intros docs []. Qed.

Lemma writes_nothing_app (a b : list io_event) :
  writes_nothing a -> writes_nothing b -> writes_nothing (a ++ b).
Proof.
  intros Ha Hb docs Hin. apply in_app_or in Hin.
  destruct Hin as [Hin|Hin]; [exact (Ha docs Hin) | exact (Hb docs Hin)].
Qed.

Lemma writes_nothing_cons (ev : io_event) (evs : list io_event) :
  (forall docs, ev <> StoreDocuments docs) ->
  writes_nothing evs -> writes_nothing (ev :: evs).
Proof.
  intros Hev Hevs docs [E|Hin]; [exact (Hev docs E) | exact (Hevs docs Hin)].
Qed.

Lemma writes_nothing_fetches (video_id : string) (from count : nat) :
  writes_nothing (fetches video_id from count).
Proof.
  intros docs Hin. unfold fetches in Hin. apply in_map_iff in Hin.
  destruct Hin as (i & E & _). discriminate.
Qed.

Ltac quiet :=
  repeat first
    [ apply writes_nothing_nil
    | apply writes_nothing_fetches
    | apply writes_nothing_app
    | apply writes_nothing_cons; [discriminate|]
    | assumption ].

Lemma transcript_fallbacks_read_only (pf : Platform) (video_id : string) :
  read_only (transcript_fallbacks pf video_id).
Proof.
  intros tr. rewrite transcript_fallbacks_run.
  destruct (get_transcript_in pf video_id english) as [e1|t].
  - destruct (list_transcripts pf video_id) as [e2|offers];
      eexists; (split; [reflexivity|]); quiet.
  - eexists. split; [reflexivity|]. quiet.
Qed.

Lemma get_youtube_transcript_read_only (pf : Platform) (video_url : string)
  (use_fallback : bool) :
  read_only (get_youtube_transcript pf video_url use_fallback).
Proof.
  intros tr. rewrite get_youtube_transcript_run.
  destruct (extract_video_id (urllib pf) video_url) as [e|video_id].
  { exists []. split; [now rewrite app_nil_r | quiet]. }
  destruct (get_transcript pf video_id) as [e|t].
  2:{ eexists. split; [reflexivity | quiet]. }
  destruct use_fallback.
  2:{ eexists. split; [reflexivity | quiet]. }
  destruct (transcript_fallbacks_read_only pf video_id
              (tr ++ [GetTranscript video_id])) as (evs & -> & Hevs).
  exists (GetTranscript video_id :: evs).
  split; [now rewrite <- app_assoc | quiet].
Qed.

(** X22.  [POST /query-youtube/] never raises and never writes to the
    vector store: whatever the request and whatever the services do, it
    answers, and no event it adds to the log is a write.  A transcript
    fetched to answer a query is therefore not stored. *)
Theorem query_youtube_read_only (pf : Platform) (request : VideoQueryRequest)
  (tr : list io_event) :
  exists response evs,
    query_youtube_video pf request tr = (inr response, tr ++ evs) /\
    forall docs, ~ In (StoreDocuments docs) evs.
Proof.
  rewrite query_youtube_video_run.
  destruct (extract_video_id (urllib pf) (vq_video_url request))
    as [e|video_id].
  { eexists. exists []. split; [now rewrite app_nil_r | quiet]. }
  rewrite answer_from_database_run. cbv zeta.
  set (search := StoreCall (SimilaritySearch (vq_query request)
                              (vq_k request * 10))).
  assert (Hrest : forall tr1 evs1,
             tr1 = tr ++ evs1 -> writes_nothing evs1 ->
             exists response evs,
               match truthy (vq_manual_transcript request) with
               | Some manual =>
                   match handle_manual_transcript pf (vq_video_url request)
                           manual with
                   | inl e =>
                       (inr (VideoQueryFailed "query_failed"
                               "Failed to query YouTube video" (str e) []),
                        tr1)
                   | inr transcript =>
                       answer_from_transcript pf request video_id transcript
                         "manual" tr1
                   end
               | None =>
                   match get_youtube_transcript pf (vq_video_url request)
                           true tr1 with
                   | (inl err, tr2) =>
                       (inr (VideoQueryFailed "transcript_blocked"
                               "YouTube transcript blocked and no manual transcript provided"
                               (app_str err)
                               ["Provide manual transcript";
                                "Upload video first"; "Use proxy service"]),
                        tr2)
                   | (inr transcript, tr2) =>
                       answer_from_transcript pf request video_id transcript
                         "automatic" tr2
                   end
               end = (inr response, tr ++ evs) /\ writes_nothing evs).
  { intros tr1 evs1 -> Hevs1. unfold answer_from_transcript.
    destruct (truthy (vq_manual_transcript request)) as [manual|].
    - destruct (handle_manual_transcript pf (vq_video_url request) manual).
      + eexists. exists evs1. split; [reflexivity | assumption].
      + eexists. eexists. split; [now rewrite <- app_assoc | quiet].
    - destruct (get_youtube_transcript_read_only pf (vq_video_url request)
                  true (tr ++ evs1)) as (evs2 & Hlog & Hevs2).
      destruct (get_youtube_transcript pf (vq_video_url request) true
                  (tr ++ evs1)) as [[err|transcript] tr2];
        cbn [snd] in Hlog; subst tr2.
      + eexists. eexists. split; [now rewrite <- app_assoc | quiet].
      + eexists. eexists. split; [now rewrite <- !app_assoc | quiet]. }
  destruct (similarity_search (services pf) (vq_query request)
              (vq_k request * 10)) as [e|docs].
  { apply (Hrest _ [search] eq_refl). quiet. }
  destruct (is_empty (stored_chunks (vq_k request) video_id docs)).
  { apply (Hrest _ [search] eq_refl). quiet. }
  eexists. eexists. split; [reflexivity | quiet].
Qed.

(** X23.  [POST /query-youtube/] swallows a failure of the vector
    store: when the search for stored chunks raises and the request
    carries a manual transcript that is not blank, the answer is built
    from the first chunks of the stripped transcript and reported with
    the source "direct_transcript_manual"; the caller sees no error, and
    the transcript service is not called. *)
Theorem query_youtube_store_outage (pf : Platform)
  (request : VideoQueryRequest) (video_id manual : string) (e : exn)
  (tr : list io_event) :
  extract_video_id (urllib pf) (vq_video_url request) = inr video_id ->
  similarity_search (services pf) (vq_query request) (vq_k request * 10)
  = inl e ->
  vq_manual_transcript request = Some manual ->
  UrlModel.all_chars (isspace pf) manual = false ->
  let relevant :=
    relevant_chunks (vq_k request)
      (split_documents pf (strip (isspace pf) manual)
         ("video_" ++ video_id ++ ".txt")%string) in
  query_youtube_video pf request tr
  = (inr (AnsweredFromTranscript
            (answer_text (services pf) (vq_query request) relevant) video_id
            "direct_transcript_manual" (Z.of_nat (List.length relevant))),
     tr ++ [StoreCall (SimilaritySearch (vq_query request)
                         (vq_k request * 10));
            StoreCall (completion_call (vq_query request) relevant)]).
Proof.
  intros Hid Hsearch Hmanual Htext relevant.
  assert (Hne : manual <> "") by (intros ->; discriminate).
  assert (Htruthy : truthy (vq_manual_transcript request) = Some manual).
  { rewrite Hmanual. cbn. apply String.eqb_neq in Hne. now rewrite Hne. }
  destruct (handle_manual_transcript_spec pf (vq_video_url request) manual)
    as (_ & Hspec).
  destruct (Hspec Htext) as (stripped & _ & _ & Hrun & _).
  assert (Hs : stripped = strip (isspace pf) manual).
  { unfold handle_manual_transcript in Hrun.
    destruct (_ || _); [discriminate | congruence]. }
  rewrite query_youtube_video_run, Hid, answer_from_database_run.
  cbv zeta. rewrite Hsearch, Htruthy, Hrun, Hs.
  unfold answer_from_transcript. now rewrite <- app_assoc.
Qed.

Lemma query_youtube_store_outage_witness :
  exists answer,
    query_youtube_video Stage.store_down
      (mkVideoQueryRequest "q" "https://youtu.be/abc" 3 (Some " hello "))
      []
    = (inr (AnsweredFromTranscript answer "abc" "direct_transcript_manual"
              1),
       [StoreCall (SimilaritySearch "q" 30);
        StoreCall (completion_call "q"
                     [mkDocument "hello" (Some "video_abc.txt")])]).
Proof.
  eexists.
  refine (@query_youtube_store_outage Stage.store_down
            (mkVideoQueryRequest "q" "https://youtu.be/abc" 3
               (Some " hello "))
            "abc" " hello " (ServiceError "connection refused") []
            eq_refl eq_refl eq_refl eq_refl).
Defined.

(** * PDF upload *)

Lemma extract_text_from_pdf_run (pf : Platform) (file : UploadFile)
  (tr : list io_event) :
  extract_text_from_pdf pf file tr
  = (match read file with
     | inl e => inl (Builtin e)
     | inr file_bytes =>
         match pdf_pages pf file_bytes with
         | inl e =>
             inl (RuntimeError ("PDF text extraction failed: " ++ str e))
         | inr pages =>
             if UrlModel.all_chars (isspace pf) (pages_text pages)
             then inl (RuntimeError
                         "PDF text extraction failed: PDF has no extractable text.")
             else inr (pages_text pages)
         end
     end, tr).
Proof.
  unfold extract_text_from_pdf, io_bind, io_try, io_lift, io_raise.
  destruct (read file) as [e|file_bytes]; [reflexivity|].
  destruct (pdf_pages pf file_bytes) as [e|pages]; [reflexivity|].
  cbn [rbind].
  destruct (UrlModel.all_chars (isspace pf) (pages_text pages)) eqn:E.
  - apply strip_blank in E. now rewrite E.
  - destruct (String.eqb_spec (strip (isspace pf) (pages_text pages)) "")
      as [Hs|Hs]; [|reflexivity].
    apply strip_blank in Hs. congruence.
Qed.

(** X24.  [extract_text_from_pdf] makes no call to the store.  The
    upload is read before the [try]: when reading it fails, that
    exception leaves the function as it is.  Every failure after the read
    is a [RuntimeError] whose text starts with "PDF text extraction
    failed: ": when the document cannot be opened or its pages cannot be
    read (followed by the text of that error), and when the pages hold
    whitespace only (followed by "PDF has no extractable text.").  The
    text it returns is the texts of the pages in their order and is never
    blank. *)
Theorem extract_text_from_pdf_spec (pf : Platform) (file : UploadFile)
  (tr : list io_event) :
  exists outcome,
    extract_text_from_pdf pf file tr = (outcome, tr) /\
    (forall e, read file = inl e -> outcome = inl (Builtin e)) /\
    (forall file_bytes e,
        read file = inr file_bytes ->
        pdf_pages pf file_bytes = inl e ->
        outcome
        = inl (RuntimeError ("PDF text extraction failed: " ++ str e))) /\
    (forall file_bytes pages,
        read file = inr file_bytes ->
        pdf_pages pf file_bytes = inr pages ->
        UrlModel.all_chars (isspace pf) (fold_left append pages "") = true ->
        outcome
        = inl (RuntimeError
                 "PDF text extraction failed: PDF has no extractable text.")) /\
    (forall text,
        outcome = inr text ->
        UrlModel.all_chars (isspace pf) text = false /\
        exists file_bytes pages,
          read file = inr file_bytes /\
          pdf_pages pf file_bytes = inr pages /\
          text = fold_left append pages "") /\
    (forall err,
        outcome = inl err ->
        (exists e, read file = inl e /\ err = Builtin e) \/
        (exists file_bytes detail,
            read file = inr file_bytes /\
            err = RuntimeError ("PDF text extraction failed: " ++ detail))).
Proof.
  rewrite extract_text_from_pdf_run. eexists. split; [reflexivity|].
  fold (pages_text).
  destruct (read file) as [e|file_bytes].
  { split; [now intros e' [= <-]|]. split; [discriminate|].
    split; [discriminate|]. split; [discriminate|].
    intros err [= <-]. left. now exists e. }
  split; [discriminate|].
  destruct (pdf_pages pf file_bytes) as [e|pages] eqn:Epages.
  - split; [intros b e' [= <-]; rewrite Epages; now intros [= <-]|].
    split; [intros b pages [= <-]; rewrite Epages; discriminate|].
    split; [discriminate|].
    intros err [= <-]. right. now exists file_bytes, (str e).
  - split; [intros b e' [= <-]; rewrite Epages; discriminate|].
    unfold pages_text.
    destruct (UrlModel.all_chars (isspace pf) (fold_left append pages ""))
      eqn:E.
    + split; [reflexivity|]. split; [discriminate|].
      intros err [= <-]. right.
      now exists file_bytes, "PDF has no extractable text.".
    + split.
      { intros b pages' [= <-]. rewrite Epages. intros [= <-]. congruence. }
      split; [|discriminate].
      intros text [= <-]. split; [assumption|].
      now exists file_bytes, pages.
Qed.

Lemma extract_text_from_pdf_spec_witness :
  extract_text_from_pdf (Stage.blocked [])
    (mkUploadFile "application/pdf" "lost.pdf"
       (inl (ServiceError "connection reset"))) []
  = (inl (Builtin (ServiceError "connection reset")), []).
Proof.
  destruct (extract_text_from_pdf_spec (Stage.blocked [])
              (mkUploadFile "application/pdf" "lost.pdf"
                 (inl (ServiceError "connection reset"))) [])
    as (outcome & Hrun & Hread & _).
  rewrite Hrun, (Hread (ServiceError "connection reset") eq_refl).
  reflexivity.
Defined.

Lemma upload_each_through (pf : Platform) (before rest : list UploadFile) :
  Forall (uploadable pf) before ->
  forall (summaries : list UploadSummary) (tr : list io_event),
    upload_each pf (before ++ rest) summaries tr
    = upload_each pf rest (summaries ++ map (file_summary pf) before)
        (tr ++ map (fun f => StoreDocuments (file_chunks pf f)) before).
Proof.
  induction 1 as [|file before (Htype & (pages & Hpages & Htext) & Hstore)
                    _ IH]; intros summaries tr.
  - cbn. now rewrite !app_nil_r.
  - cbn [app upload_each map].
    unfold io_bind at 1. unfold io_lift, validate_pdf.
    rewrite Htype, String.eqb_refl.
    assert (Hc : split_documents pf (pages_text pages) (filename file)
                 = file_chunks pf file)
      by (unfold file_chunks; now rewrite Hpages).
    assert (Hread : exists file_bytes,
               read file = inr file_bytes /\
               pdf_pages pf file_bytes = inr pages).
    { unfold file_pages in Hpages.
      destruct (read file) as [e|file_bytes]; [discriminate|].
      now exists file_bytes. }
    destruct Hread as (file_bytes & Hread & Hopen).
    unfold io_bind at 1.
    rewrite extract_text_from_pdf_run, Hread, Hopen, Htext.
    unfold io_bind at 1.
    unfold create_embeddings_and_store_qdrant, io_call,
      split_text_into_chunks.
    rewrite Hc, Hstore, IH. unfold file_summary at 2.
    now rewrite <- !app_assoc.
Qed.

(** X25.  [POST /upload-pdf/] with a file that is not a PDF by its
    content type: the status 400 raised by [validate_pdf] never reaches
    the client, the request fails with status 500 (its detail is the text
    of the caught exception).  The files before it have been stored, one
    write each, and stay stored; the files after it are not looked at. *)
Theorem upload_pdfs_wrong_type (pf : Platform)
  (before after : list UploadFile) (bad : UploadFile)
  (tr : list io_event) :
  Forall (uploadable pf) before ->
  content_type bad <> "application/pdf" ->
  upload_pdfs pf (before ++ bad :: after) tr
  = (inl (Builtin
            (HTTPException 500
               (http_exception_str pf 400
                  "Invalid file type. Only PDF files are allowed."))),
     tr ++ map (fun f => StoreDocuments (file_chunks pf f)) before).
Proof.
  intros Hbefore Hbad. unfold upload_pdfs, io_try.
  rewrite upload_each_through by assumption.
  cbn [upload_each]. unfold io_bind at 1. unfold io_lift, validate_pdf.
  apply String.eqb_neq in Hbad. rewrite Hbad. reflexivity.
Qed.

Lemma upload_pdfs_wrong_type_witness :
  upload_pdfs (Stage.blocked [])
    [mkUploadFile "application/pdf" "a.pdf" (inr "hello");
     mkUploadFile "text/plain" "b.txt" (inr "x");
     mkUploadFile "application/pdf" "c.pdf" (inr "hello")] []
  = (inl (Builtin
            (HTTPException 500
               "400: Invalid file type. Only PDF files are allowed.")),
     [StoreDocuments [mkDocument "hello" (Some "a.pdf")]]).
Proof.
  refine (@upload_pdfs_wrong_type (Stage.blocked [])
            [mkUploadFile "application/pdf" "a.pdf" (inr "hello")]
            [mkUploadFile "application/pdf" "c.pdf" (inr "hello")]
            (mkUploadFile "text/plain" "b.txt" (inr "x")) [] _ _).
  - constructor; [|constructor]. split; [reflexivity|].
    split; [|reflexivity]. exists ["hello"]. split; reflexivity.
  - discriminate.
Defined.

(** X26.  [POST /upload-pdf/] with files that all go through: every
    file is written to the store once, in the order of the request, under
    its file name, and the summary lists each file name with the number
    of its chunks in the same order. *)
Theorem upload_pdfs_summary (pf : Platform) (files : list UploadFile)
  (tr : list io_event) :
  Forall (uploadable pf) files ->
  exists summary,
    upload_pdfs pf files tr
    = (inr summary,
       tr ++ map (fun f => StoreDocuments (file_chunks pf f)) files) /\
    map summary_filename summary = map filename files /\
    map summary_num_chunks summary
    = map (fun f => Z.of_nat (List.length (file_chunks pf f))) files.
Proof.
  intros Hfiles. exists (map (file_summary pf) files). split.
  - unfold upload_pdfs, io_try.
    rewrite <- (app_nil_r files) at 1.
    rewrite upload_each_through by assumption. reflexivity.
  - rewrite !map_map. split; reflexivity.
Qed.

Lemma upload_pdfs_summary_witness :
  exists summary,
    upload_pdfs (Stage.blocked [])
      [mkUploadFile "application/pdf" "a.pdf" (inr "hello")] []
    = (inr summary, [StoreDocuments [mkDocument "hello" (Some "a.pdf")]]) /\
    map summary_filename summary = ["a.pdf"].
Proof.
  destruct (@upload_pdfs_summary (Stage.blocked [])
              [mkUploadFile "application/pdf" "a.pdf" (inr "hello")] [])
    as (summary & Hrun & Hnames & _).
  - constructor; [|constructor]. split; [reflexivity|].
    split; [|reflexivity]. exists ["hello"]. split; reflexivity.
  - exists summary. split; assumption.
Defined.
